(** * Chat manager, feedback store and generation retry loop of the comment bot

    A shallow embedding of the classes
    - [DatabaseManager] (the module required as [./databaseManager]: the
      SQLite store),
    - [ChatManager] ([bot/managers/chatManager.js]: the flat-file chat
      store and the dispatch to the database),
    - [LearningManager] (required as [../managers/learningManager]:
      feedback records and their statistics),
    - [QwenApi] (required as [./qwenApi]; method [generateComments]: the
      retry loop around the remote generation call), with the two helpers
      of [bot/utils/utils.js] it calls,
    together with the properties of these operations.

    Conventions of the embedding.
    - A JS [Map] keyed by user ids is a [gmap Z _]; arrays are lists;
      [push] appends at the end, [splice(i, 1)] removes position [i].
    - Objects held in a [Map] and mutated through a reference are written
      back into the map at the same key.
    - [Date.now()], [new Date()], SQLite's [CURRENT_TIMESTAMP] and
      [Math.random()] are inputs of the operation that reads them
      ([now : Z], [rnd : string]); ISO timestamps are kept as the numbers
      they denote.
    - A JS string is a [string] whose characters stand for its code units,
      so that [.length] is [String.length].
    - [await this.saveData()] / [saveFeedback()] only serialise the maps to
      disk and swallow their own failures; they do not change the in-memory
      state and are not modelled.
    - Every [{success: true, data}] / [{success: false, error}] result is a
      [Result]; the [error] strings of the source are the constructors of
      [Error], rendered back by [errorMessage]. *)

From Stdlib Require Import ZArith Lia SpecFloat.
From stdpp Require Import gmap strings list fin_maps pretty sorting.

Local Open Scope Z_scope.

(** ** Configuration *)

Module Config.

(** The fields of [config] that the modelled code reads:
    [config.chat.maxChatsPerUser], [config.chat.maxChatNameLength],
    [config.qwen.maxRetries], [config.qwen.model],
    [config.telegram.defaultModel]. *)
Record Config := {
  maxChatsPerUser : nat;
  maxChatNameLength : nat;
  maxRetries : Z;
  qwenModel : string;
  defaultModel : string
}.

(** Modelled from the spec: [bot/utils/config.js] is not among the
    sources.  The defaults are the ones the specification lists (section 6:
    at most 10 chats per user, names of at most 50 characters, 3
    generation attempts); the default model is the one of the [chats]
    table schema. *)
Definition default : Config :=
  {| maxChatsPerUser := 10;
     maxChatNameLength := 50;
     maxRetries := 3;
     qwenModel := "qwen-max-latest";
     defaultModel := "qwen-max-latest" |}.

End Config.

(** ** Results and errors *)

(** Failures SQLite reports for the statements used here. *)
Inductive SqliteFailure :=
| CheckConstraintFailed    (* CHECK (rating >= 1 AND rating <= 5) *)
| ForeignKeyConstraintFailed.

(** The [error] member of a failed result. *)
Inductive Error :=
| ChatLimitReached (max : nat)
| ChatNameTooLong (max : nat)
| ChatNotFound
| NoActiveChat
| ActiveChatNotFound
| SqliteError (e : SqliteFailure).

Definition errorMessage (e : Error) : string :=
  match e with
  | ChatLimitReached max =>
      "Достигнут лимит чатов (" +:+ pretty max +:+ "). Удалите старые чаты."
  | ChatNameTooLong max =>
      "Название чата слишком длинное (максимум " +:+ pretty max +:+ " символов)."
  | ChatNotFound => "Чат не найден"
  | NoActiveChat => "Нет активного чата"
  | ActiveChatNotFound => "Активный чат не найден"
  | SqliteError CheckConstraintFailed =>
      "CHECK constraint failed: rating >= 1 AND rating <= 5"
  | SqliteError ForeignKeyConstraintFailed => "FOREIGN KEY constraint failed"
  end.

(** The error taxonomy of the specification (section 7), read off the
    messages of the code: the source itself only returns the message. *)
Inductive ErrorKind := ValidationError | NotFound | LimitExceeded.

Definition errorKind (e : Error) : ErrorKind :=
  match e with
  | ChatLimitReached _ => LimitExceeded
  | ChatNameTooLong _ => ValidationError
  | ChatNotFound | NoActiveChat | ActiveChatNotFound => NotFound
  | SqliteError CheckConstraintFailed => ValidationError
  | SqliteError ForeignKeyConstraintFailed => NotFound
  end.

Inductive Result (A : Type) :=
| Ok (data : A)
| Fail (error : Error).
Arguments Ok {A} data.
Arguments Fail {A} error.

Definition success {A} (r : Result A) : bool :=
  match r with Ok _ => true | Fail _ => false end.

(** The kinds of feedback record ([type] / [feedback_type]). *)
Inductive FeedbackType := comment_rating | improvement_feedback.

(** The generation context stored with a feedback record; the code never
    inspects it. *)
Definition Context := string.

(** ** The SQLite store *)

Module DatabaseManager.

Record UserRow := {
  user_id : Z;
  telegram_id : Z;
  username : option string;
  first_name : option string;
  last_name : option string;
  user_created_at : Z
}.

Record ChatRow := {
  id : Z;
  chat_user_id : Z;
  name : string;
  model : string;
  is_active : bool;
  message_count : Z;
  created_at : Z;
  updated_at : Z
}.

Record FeedbackRow := {
  feedback_id : Z;
  feedback_user_id : Z;
  comment_id : string;
  rating : option Z;
  feedback_text : option string;
  feedback_type : FeedbackType;
  context : Context;
  feedback_created_at : Z
}.

(** The tables, with the AUTOINCREMENT counters of [chats] and
    [feedback] (the largest row id ever handed out). *)
Record Database := {
  users : list UserRow;
  chats : list ChatRow;
  chats_seq : Z;
  feedback : list FeedbackRow;
  feedback_seq : Z
}.

Definition empty : Database :=
  {| users := []; chats := []; chats_seq := 0;
     feedback := []; feedback_seq := 0 |}.

Definition with_users (db : Database) (us : list UserRow) : Database :=
  {| users := us; chats := chats db; chats_seq := chats_seq db;
     feedback := feedback db; feedback_seq := feedback_seq db |}.

Definition with_chats (db : Database) (cs : list ChatRow) (seq : Z) : Database :=
  {| users := users db; chats := cs; chats_seq := seq;
     feedback := feedback db; feedback_seq := feedback_seq db |}.

Definition with_feedback (db : Database) (fs : list FeedbackRow) (seq : Z) : Database :=
  {| users := users db; chats := chats db; chats_seq := chats_seq db;
     feedback := fs; feedback_seq := seq |}.

(** Row id of a fresh row of [users] ([INTEGER PRIMARY KEY] without
    AUTOINCREMENT): 1 in an empty table, else one more than the largest
    one in use. *)
Definition next_user_id (us : list UserRow) : Z :=
  match us with
  | [] => 1
  | u :: us' => foldr (λ u' acc, Z.max (user_id u') acc) (user_id u) us' + 1
  end.

(** The profile hints of [getUserOrCreate]; [{}] is [no_hints]. *)
Record UserHints := {
  hint_username : option string;
  hint_first_name : option string;
  hint_last_name : option string
}.
Definition no_hints : UserHints :=
  {| hint_username := None; hint_first_name := None; hint_last_name := None |}.

(** [getUserOrCreate(telegramId, userData = {})] *)
Definition getUserOrCreate (telegramId : Z) (userData : UserHints) (now : Z)
    (db : Database) : UserRow * Database :=
  match list_find (λ u, telegram_id u = telegramId) (users db) with
  | Some (_, user) => (user, db)
  | None =>
      let user :=
        {| user_id := next_user_id (users db);
           telegram_id := telegramId;
           username := hint_username userData;
           first_name := hint_first_name userData;
           last_name := hint_last_name userData;
           user_created_at := now |} in
      (user, with_users db (users db ++ [user]))
  end.

(** [UPDATE chats SET is_active = 0 WHERE user_id = ?] *)
Definition deactivate (c : ChatRow) : ChatRow :=
  {| id := id c; chat_user_id := chat_user_id c; name := name c;
     model := model c; is_active := false;
     message_count := message_count c;
     created_at := created_at c; updated_at := updated_at c |}.

Definition deactivate_all (userId : Z) (cs : list ChatRow) : list ChatRow :=
  (λ c, if decide (chat_user_id c = userId) then deactivate c else c) <$> cs.

(** [createChat(userId, name, model)]: the UPDATE runs first and is not
    rolled back when the INSERT is refused (the foreign key on [user_id],
    which better-sqlite3 enforces). *)
Definition createChat (userId : Z) (name : string) (model : string) (now : Z)
    (db : Database) : Result ChatRow * Database :=
  let cs := deactivate_all userId (chats db) in
  if decide (Exists (λ u, user_id u = userId) (users db)) then
    let chat :=
      {| id := chats_seq db + 1; chat_user_id := userId; name := name;
         model := model; is_active := true; message_count := 0;
         created_at := now; updated_at := now |} in
    (Ok chat, with_chats db (cs ++ [chat]) (chats_seq db + 1))
  else
    (Fail (SqliteError ForeignKeyConstraintFailed),
     with_chats db cs (chats_seq db)).

(** [ORDER BY updated_at DESC].  [updated_at] stands for the text that
    CURRENT_TIMESTAMP stored, by the second it was taken at: on texts of
    that one form SQLite's comparison is the comparison of these
    numbers.  This is the form of every value the managers write; the
    migration script also writes ISO strings, which compare otherwise,
    so statements on the order are made for the tables the managers
    wrote.  SQL leaves the order of rows with equal keys open; the
    model keeps them in the order of the merge sort. *)
Definition updated_desc (a b : ChatRow) : Prop := updated_at b ≤ updated_at a.

Global Instance updated_desc_dec : RelDecision updated_desc.
Proof. intros a b. unfold updated_desc. apply _. Defined.

Definition order_by_updated_at_desc (cs : list ChatRow) : list ChatRow :=
  merge_sort updated_desc cs.

(** [getUserChats(userId)]:
    [SELECT * FROM chats WHERE user_id = ? ORDER BY updated_at DESC] *)
Definition getUserChats (userId : Z) (db : Database) : list ChatRow :=
  order_by_updated_at_desc (filter (λ c, chat_user_id c = userId) (chats db)).

(** [getActiveChat(userId)]:
    [... WHERE user_id = ? AND is_active = 1 ORDER BY updated_at DESC LIMIT 1] *)
Definition getActiveChat (userId : Z) (db : Database) : Result ChatRow :=
  match order_by_updated_at_desc
          (filter (λ c, chat_user_id c = userId ∧ is_active c = true) (chats db)) with
  | chat :: _ => Ok chat
  | [] => Fail ActiveChatNotFound
  end.

(** [saveFeedback(userId, commentId, rating, feedbackText, feedbackType,
    context)]: one INSERT; the table's CHECK on [rating] (a NULL rating
    passes it) and the foreign key make it throw, and the [catch] turns
    that into a failed result. *)
Definition rating_check (rating : option Z) : Prop :=
  match rating with
  | Some r => 1 ≤ r ∧ r ≤ 5
  | None => True
  end.

Global Instance rating_check_dec r : Decision (rating_check r).
Proof. destruct r; simpl; apply _. Defined.

Definition saveFeedback (userId : Z) (commentId : string) (rating : option Z)
    (feedbackText : option string) (feedbackType : FeedbackType)
    (context : Context) (now : Z) (db : Database) : Result Z * Database :=
  if decide (rating_check rating) then
    if decide (Exists (λ u, user_id u = userId) (users db)) then
      let row :=
        {| feedback_id := feedback_seq db + 1; feedback_user_id := userId;
           comment_id := commentId; rating := rating;
           feedback_text := feedbackText; feedback_type := feedbackType;
           context := context; feedback_created_at := now |} in
      (Ok (feedback_seq db + 1),
       with_feedback db (feedback db ++ [row]) (feedback_seq db + 1))
    else (Fail (SqliteError ForeignKeyConstraintFailed), db)
  else (Fail (SqliteError CheckConstraintFailed), db).

End DatabaseManager.

(** ** The chat manager *)

(** A chat id as the callers pass it: the flat-file store names chats by
    strings, the database by row numbers; [===] never identifies the two. *)
Inductive JsId := IdString (s : string) | IdNumber (n : Z).

Global Instance JsId_eq_dec : EqDecision JsId.
Proof. solve_decision. Defined.

Module ChatManager.
Import Config.

Record Chat := {
  id : string;
  name : string;
  createdAt : Z;
  lastUsed : Z;
  messageCount : Z
}.

Global Instance Chat_eq_dec : EqDecision Chat.
Proof. solve_decision. Defined.

(** [{ chats: [], activeChatId: null }] *)
Record UserData := {
  chats : list Chat;
  activeChatId : option string
}.

Record ChatManager := {
  userChats : gmap Z UserData;
  userSettings : gmap Z string;      (* userId -> { model } *)
  dbManager : DatabaseManager.Database;
  useDatabase : bool
}.

Definition with_userChats (m : ChatManager) (uc : gmap Z UserData) : ChatManager :=
  {| userChats := uc; userSettings := userSettings m;
     dbManager := dbManager m; useDatabase := useDatabase m |}.

Definition with_db (m : ChatManager) (us : gmap Z string)
    (db : DatabaseManager.Database) : ChatManager :=
  {| userChats := userChats m; userSettings := us;
     dbManager := db; useDatabase := useDatabase m |}.

(** The manager after [init()], on either backend, before any data. *)
Definition initial (useDb : bool) : ChatManager :=
  {| userChats := ∅; userSettings := ∅;
     dbManager := DatabaseManager.empty; useDatabase := useDb |}.

Definition emptyUserData : UserData := {| chats := []; activeChatId := None |}.

(** [getUserData(userId)]: creates the entry on first use. *)
Definition getUserData (userId : Z) (uc : gmap Z UserData)
    : UserData * gmap Z UserData :=
  match uc !! userId with
  | Some userData => (userData, uc)
  | None => (emptyUserData, <[userId := emptyUserData]> uc)
  end.

(** [getUserModel(userId)], through [getUserSettings(userId)]. *)
Definition getUserModel (cfg : Config) (userId : Z) (us : gmap Z string)
    : string * gmap Z string :=
  match us !! userId with
  | Some model => (model, us)
  | None => (defaultModel cfg, <[userId := defaultModel cfg]> us)
  end.

(** What [createChat] hands back: the object of the backend in use. *)
Inductive AnyChat :=
| JsonChat (c : Chat)
| DbChat (c : DatabaseManager.ChatRow).

(** [`chat_${Date.now()}_${Math.random().toString(36).substr(2, 9)}`] *)
Definition newChatId (now : Z) (rnd : string) : string :=
  "chat_" +:+ pretty now +:+ "_" +:+ rnd.

(** [createChatDB(userId, chatName)] *)
Definition createChatDB (cfg : Config) (userId : Z) (chatName : string)
    (now : Z) (m : ChatManager) : Result AnyChat * ChatManager :=
  let '(user, db) :=
    DatabaseManager.getUserOrCreate userId DatabaseManager.no_hints now (dbManager m) in
  let userChats := DatabaseManager.getUserChats (DatabaseManager.user_id user) db in
  if decide (maxChatsPerUser cfg ≤ length userChats)%nat then
    (Fail (ChatLimitReached (maxChatsPerUser cfg)), with_db m (userSettings m) db)
  else if decide (maxChatNameLength cfg < String.length chatName)%nat then
    (Fail (ChatNameTooLong (maxChatNameLength cfg)), with_db m (userSettings m) db)
  else
    let '(model, us) := getUserModel cfg userId (userSettings m) in
    let '(result, db') :=
      DatabaseManager.createChat (DatabaseManager.user_id user) chatName model now db in
    (match result with Ok c => Ok (DbChat c) | Fail e => Fail e end,
     with_db m us db').

(** [createChatJSON(userId, chatName)] *)
Definition createChatJSON (cfg : Config) (userId : Z) (chatName : string)
    (now : Z) (rnd : string) (m : ChatManager) : Result AnyChat * ChatManager :=
  let '(userData, uc) := getUserData userId (userChats m) in
  if decide (maxChatsPerUser cfg ≤ length (chats userData))%nat then
    (Fail (ChatLimitReached (maxChatsPerUser cfg)), with_userChats m uc)
  else if decide (maxChatNameLength cfg < String.length chatName)%nat then
    (Fail (ChatNameTooLong (maxChatNameLength cfg)), with_userChats m uc)
  else
    let newChat :=
      {| id := newChatId now rnd; name := chatName;
         createdAt := now; lastUsed := now; messageCount := 0 |} in
    let chats' := chats userData ++ [newChat] in
    let userData' :=
      {| chats := chats';
         activeChatId :=
           (* only the first chat is made the active one *)
           if decide (length chats' = 1%nat) then Some (id newChat)
           else activeChatId userData |} in
    (Ok (JsonChat newChat), with_userChats m (<[userId := userData']> uc)).

(** [createChat(userId, chatName)] *)
Definition createChat (cfg : Config) (userId : Z) (chatName : string)
    (now : Z) (rnd : string) (m : ChatManager) : Result AnyChat * ChatManager :=
  if useDatabase m then createChatDB cfg userId chatName now m
  else createChatJSON cfg userId chatName now rnd m.

(** The [data] of [getChats]: [{ chats, activeChatId }]. *)
Inductive ChatList :=
| JsonChats (chats : list Chat) (activeChatId : option string)
| DbChats (chats : list DatabaseManager.ChatRow) (activeChatId : option Z).

(** [getChatsDB(userId)] *)
Definition getChatsDB (userId : Z) (now : Z) (m : ChatManager)
    : Result ChatList * ChatManager :=
  let '(user, db) :=
    DatabaseManager.getUserOrCreate userId DatabaseManager.no_hints now (dbManager m) in
  let chats := DatabaseManager.getUserChats (DatabaseManager.user_id user) db in
  let activeChat := DatabaseManager.getActiveChat (DatabaseManager.user_id user) db in
  (Ok (DbChats chats
         (match activeChat with
          | Ok c => Some (DatabaseManager.id c)
          | Fail _ => None
          end)),
   with_db m (userSettings m) db).

(** [getChatsJSON(userId)] *)
Definition getChatsJSON (userId : Z) (m : ChatManager)
    : Result ChatList * ChatManager :=
  let '(userData, uc) := getUserData userId (userChats m) in
  (Ok (JsonChats (chats userData) (activeChatId userData)), with_userChats m uc).

(** [getChats(userId)] *)
Definition getChats (userId : Z) (now : Z) (m : ChatManager)
    : Result ChatList * ChatManager :=
  if useDatabase m then getChatsDB userId now m else getChatsJSON userId m.

(** [selectChatJSON(userId, chatId)] *)
Definition selectChatJSON (userId : Z) (chatId : JsId) (now : Z)
    (m : ChatManager) : Result Chat * ChatManager :=
  let '(userData, uc) := getUserData userId (userChats m) in
  match list_find (λ c, IdString (id c) = chatId) (chats userData) with
  | None => (Fail ChatNotFound, with_userChats m uc)
  | Some (i, chat) =>
      let chat' :=
        {| id := id chat; name := name chat; createdAt := createdAt chat;
           lastUsed := now; messageCount := messageCount chat |} in
      let userData' :=
        {| chats := <[i := chat']> (chats userData);
           activeChatId := Some (id chat) |} in
      (Ok chat', with_userChats m (<[userId := userData']> uc))
  end.

(** [renameChat(userId, chatId, newName)]: there is one body for both
    backends, and it works on [userChats]. *)
Definition renameChat (cfg : Config) (userId : Z) (chatId : JsId)
    (newName : string) (m : ChatManager) : Result Chat * ChatManager :=
  let '(userData, uc) := getUserData userId (userChats m) in
  match list_find (λ c, IdString (id c) = chatId) (chats userData) with
  | None => (Fail ChatNotFound, with_userChats m uc)
  | Some (i, chat) =>
      if decide (maxChatNameLength cfg < String.length newName)%nat then
        (Fail (ChatNameTooLong (maxChatNameLength cfg)), with_userChats m uc)
      else
        let chat' :=
          {| id := id chat; name := newName; createdAt := createdAt chat;
             lastUsed := lastUsed chat; messageCount := messageCount chat |} in
        let userData' :=
          {| chats := <[i := chat']> (chats userData);
             activeChatId := activeChatId userData |} in
        (Ok chat', with_userChats m (<[userId := userData']> uc))
  end.

(** [userData.chats.length > 0 ? userData.chats[0].id : null] *)
Definition firstChatId (cs : list Chat) : option string := id <$> head cs.

(** [deleteChat(userId, chatId)]: one body for both backends, on
    [userChats]. *)
Definition deleteChat (userId : Z) (chatId : JsId) (m : ChatManager)
    : Result Chat * ChatManager :=
  let '(userData, uc) := getUserData userId (userChats m) in
  match list_find (λ c, IdString (id c) = chatId) (chats userData) with
  | None => (Fail ChatNotFound, with_userChats m uc)
  | Some (chatIndex, deletedChat) =>
      let chats' := delete chatIndex (chats userData) in
      let userData' :=
        {| chats := chats';
           activeChatId :=
             if decide (IdString <$> activeChatId userData = Some chatId)
             then firstChatId chats'
             else activeChatId userData |} in
      (Ok deletedChat, with_userChats m (<[userId := userData']> uc))
  end.

(** [getActiveChatJSON(userId)]; [!userData.activeChatId] also holds of
    the empty string. *)
Definition getActiveChatJSON (userId : Z) (m : ChatManager)
    : Result Chat * ChatManager :=
  let '(userData, uc) := getUserData userId (userChats m) in
  let m' := with_userChats m uc in
  match activeChatId userData with
  | None => (Fail NoActiveChat, m')
  | Some a =>
      if decide (a = "") then (Fail NoActiveChat, m')
      else
        match list_find (λ c, id c = a) (chats userData) with
        | None => (Fail ActiveChatNotFound, m')
        | Some (_, activeChat) => (Ok activeChat, m')
        end
  end.

(** [getActiveChatDB(userId)] *)
Definition getActiveChatDB (userId : Z) (now : Z) (m : ChatManager)
    : Result AnyChat * ChatManager :=
  let '(user, db) :=
    DatabaseManager.getUserOrCreate userId DatabaseManager.no_hints now (dbManager m) in
  (match DatabaseManager.getActiveChat (DatabaseManager.user_id user) db with
   | Ok c => Ok (DbChat c)
   | Fail e => Fail e
   end,
   with_db m (userSettings m) db).

(** [getActiveChat(userId)] *)
Definition getActiveChat (userId : Z) (now : Z) (m : ChatManager)
    : Result AnyChat * ChatManager :=
  if useDatabase m then getActiveChatDB userId now m
  else
    let '(r, m') := getActiveChatJSON userId m in
    (match r with Ok c => Ok (JsonChat c) | Fail e => Fail e end, m').

(** [updateChatStats(userId, chatId)] *)
Definition updateChatStats (userId : Z) (chatId : JsId) (now : Z)
    (m : ChatManager) : ChatManager :=
  let '(userData, uc) := getUserData userId (userChats m) in
  match list_find (λ c, IdString (id c) = chatId) (chats userData) with
  | None => with_userChats m uc
  | Some (i, chat) =>
      let chat' :=
        {| id := id chat; name := name chat; createdAt := createdAt chat;
           lastUsed := now; messageCount := messageCount chat + 1 |} in
      with_userChats m
        (<[userId := {| chats := <[i := chat']> (chats userData);
                        activeChatId := activeChatId userData |}]> uc)
  end.

(** One run of the timer body of [startAutoCleanup()].

    [daysSinceLastUse > 30] is [(now - lastUsed) / 86400000 > 30] on
    numbers; for whole milliseconds this is the comparison below. *)
Definition isOld (now : Z) (chat : Chat) : Prop :=
  30 * (1000 * 60 * 60 * 24) < now - lastUsed chat.

Global Instance isOld_dec now chat : Decision (isOld now chat).
Proof. unfold isOld. apply _. Defined.

(** [findIndex] by id, then [splice(chatIndex, 1)] when found. *)
Definition removeById (cs : list Chat) (oldChat : Chat) : list Chat :=
  match list_find (λ c, id c = id oldChat) cs with
  | Some (chatIndex, _) => delete chatIndex cs
  | None => cs
  end.

Definition cleanupUser (now : Z) (userData : UserData) : UserData :=
  let oldChats := filter (isOld now) (chats userData) in
  let chats' := foldl removeById (chats userData) oldChats in
  {| chats := chats';
     activeChatId :=
       match activeChatId userData with
       | None => None
       | Some a =>
           if decide (a = "") then Some a
           else
             match list_find (λ c, id c = a) chats' with
             | Some _ => Some a
             | None => firstChatId chats'
             end
       end |}.

Definition autoCleanup (now : Z) (m : ChatManager) : ChatManager :=
  with_userChats m (cleanupUser now <$> userChats m).

End ChatManager.

(** ** JS numbers: division and [toFixed(1)] *)

Module JsNumber.

(** IEEE 754 binary64. *)
Definition prec : Z := 53.
Definition emax : Z := 1024.

(** The number an integer denotes (exact below [2^53]). *)
Definition of_Z (z : Z) : spec_float := binary_normalize prec emax z 0 false.

(** [x / y] *)
Definition div (x y : spec_float) : spec_float := SFdiv prec emax x y.

(** The integer [n] for which [n / 10 - m * 2^e] is as close to zero as
    possible, the larger one when there are two. *)
Definition tenths (m : positive) (e : Z) : Z :=
  if decide (0 ≤ e) then 10 * Z.pos m * 2 ^ e
  else (20 * Z.pos m + 2 ^ (- e)) / 2 ^ (1 - e).

(** The digits of [n], with a point before the last one. *)
Definition fixed1 (n : Z) : string :=
  pretty (n / 10) +:+ "." +:+ pretty (n mod 10).

(** [Number.prototype.toFixed] with one fraction digit, for numbers
    of absolute value below [10^21].  From [10^21] on the code's result
    is the exponent notation of [ToString], which this function does not
    give: it is used on quotients of at most [2^53] only. *)
Definition toFixed1 (x : spec_float) : string :=
  match x with
  | S754_zero _ => "0.0"
  | S754_infinity s => if s then "-Infinity" else "Infinity"
  | S754_nan => "NaN"
  | S754_finite s m e => (if s then "-" else "") +:+ fixed1 (tenths m e)
  end.

End JsNumber.

(** ** The feedback manager *)

Module LearningManager.

(** A feedback object; the constructor is its [type]. *)
Inductive Feedback :=
| CommentRating (id commentId : string) (rating : Z)
    (context : Context) (timestamp : Z)
| ImprovementFeedback (id commentId : string) (feedback : string)
    (context : Context) (timestamp : Z).

Record LearningManager := {
  feedbackCache : gmap Z (list Feedback);
  dbManager : DatabaseManager.Database;
  useDatabase : bool
}.

Definition with_cache (m : LearningManager) (fc : gmap Z (list Feedback))
    : LearningManager :=
  {| feedbackCache := fc; dbManager := dbManager m;
     useDatabase := useDatabase m |}.

Definition with_db (m : LearningManager) (db : DatabaseManager.Database)
    : LearningManager :=
  {| feedbackCache := feedbackCache m; dbManager := db;
     useDatabase := useDatabase m |}.

Definition initial (useDb : bool) : LearningManager :=
  {| feedbackCache := ∅; dbManager := DatabaseManager.empty;
     useDatabase := useDb |}.

(** What a save hands back: the stored object, or [{ id }] of the row. *)
Inductive Saved :=
| SavedJson (f : Feedback)
| SavedRow (id : Z).

(** [`feedback_${Date.now()}_${Math.random().toString(36).substr(2, 9)}`] *)
Definition newFeedbackId (now : Z) (rnd : string) : string :=
  "feedback_" +:+ pretty now +:+ "_" +:+ rnd.

(** [this.feedbackCache.get(userId)] after the [has]/[set] guard. *)
Definition userFeedback (userId : Z) (fc : gmap Z (list Feedback)) : list Feedback :=
  default [] (fc !! userId).

(** [saveCommentRatingDB(userId, commentId, rating, context)] *)
Definition saveCommentRatingDB (userId : Z) (commentId : string) (rating : Z)
    (context : Context) (now : Z) (m : LearningManager)
    : Result Saved * LearningManager :=
  let '(user, db) :=
    DatabaseManager.getUserOrCreate userId DatabaseManager.no_hints now (dbManager m) in
  let '(result, db') :=
    DatabaseManager.saveFeedback (DatabaseManager.user_id user) commentId
      (Some rating) None comment_rating context now db in
  (match result with Ok i => Ok (SavedRow i) | Fail e => Fail e end,
   with_db m db').

(** [saveCommentRatingJSON(userId, commentId, rating, context)] *)
Definition saveCommentRatingJSON (userId : Z) (commentId : string) (rating : Z)
    (context : Context) (now : Z) (rnd : string) (m : LearningManager)
    : Result Saved * LearningManager :=
  let feedback :=
    CommentRating (newFeedbackId now rnd) commentId rating context now in
  (Ok (SavedJson feedback),
   with_cache m
     (<[userId := userFeedback userId (feedbackCache m) ++ [feedback]]>
        (feedbackCache m))).

(** [saveCommentRating(userId, commentId, rating, context)] *)
Definition saveCommentRating (userId : Z) (commentId : string) (rating : Z)
    (context : Context) (now : Z) (rnd : string) (m : LearningManager)
    : Result Saved * LearningManager :=
  if useDatabase m then saveCommentRatingDB userId commentId rating context now m
  else saveCommentRatingJSON userId commentId rating context now rnd m.

(** [saveImprovementFeedback(userId, commentId, feedback, context)]:
    one body for both backends, on [feedbackCache]. *)
Definition saveImprovementFeedback (userId : Z) (commentId : string)
    (feedback : string) (context : Context) (now : Z) (rnd : string)
    (m : LearningManager) : Result Saved * LearningManager :=
  let feedbackData :=
    ImprovementFeedback (newFeedbackId now rnd) commentId feedback context now in
  (Ok (SavedJson feedbackData),
   with_cache m
     (<[userId := userFeedback userId (feedbackCache m) ++ [feedbackData]]>
        (feedbackCache m))).

(** A counter of [stats.ratings]: [undefined++] leaves [NaN]. *)
Inductive JsCount := Count (n : nat) | NaN.

Definition increment (c : option JsCount) : JsCount :=
  match c with
  | Some (Count n) => Count (S n)
  | Some NaN | None => NaN
  end.

(** [averageRating]: the number [0], or the string of [toFixed(1)]. *)
Inductive Average := AverageZero | AverageFixed (s : string).

Record Stats := {
  totalFeedback : nat;
  ratings : gmap Z JsCount;
  improvementFeedback : nat;
  averageRating : Average
}.

(** The variables the [forEach] of [getUserFeedbackStats] updates.
    [totalRating] is the sum of the ratings as integers: this is what
    the code's additions of doubles give as long as the absolute values
    of the ratings add up to at most [2^53] (see
    [FeedbackStats.exactly_summed]); statements on the average are made
    within that range. *)
Record Tally := {
  tally_ratings : gmap Z JsCount;
  tally_improvementFeedback : nat;
  totalRating : Z;
  ratingCount : nat
}.

Definition initialRatings : gmap Z JsCount :=
  {[ 1 := Count 0; 2 := Count 0; 3 := Count 0; 4 := Count 0; 5 := Count 0 ]}.

Definition initialTally : Tally :=
  {| tally_ratings := initialRatings; tally_improvementFeedback := 0;
     totalRating := 0; ratingCount := 0 |}.

Definition tallyOne (t : Tally) (feedback : Feedback) : Tally :=
  match feedback with
  | CommentRating _ _ rating _ _ =>
      {| tally_ratings :=
           <[rating := increment (tally_ratings t !! rating)]> (tally_ratings t);
         tally_improvementFeedback := tally_improvementFeedback t;
         totalRating := totalRating t + rating;
         ratingCount := S (ratingCount t) |}
  | ImprovementFeedback _ _ _ _ _ =>
      {| tally_ratings := tally_ratings t;
         tally_improvementFeedback := S (tally_improvementFeedback t);
         totalRating := totalRating t;
         ratingCount := ratingCount t |}
  end.

(** [getUserFeedbackStats(userId)]: reads [feedbackCache] on both
    backends. *)
Definition getUserFeedbackStats (userId : Z) (m : LearningManager) : Stats :=
  let userFeedback := userFeedback userId (feedbackCache m) in
  let t := foldl tallyOne initialTally userFeedback in
  {| totalFeedback := length userFeedback;
     ratings := tally_ratings t;
     improvementFeedback := tally_improvementFeedback t;
     averageRating :=
       if decide (0 < ratingCount t)%nat then
         AverageFixed
           (JsNumber.toFixed1
              (JsNumber.div (JsNumber.of_Z (totalRating t))
                            (JsNumber.of_Z (Z.of_nat (ratingCount t)))))
       else AverageZero |}.

End LearningManager.
(** ** The generation call and its retries *)

Module Utils.

(** Outcome of [Utils.handleApiError]: [{ success: false, error, code }]. *)
Record ApiFailure := {
  error : string;
  code : string
}.

(** The object a rejected request throws, as far as [handleApiError]
    looks at it: [error.response] with its [status] and a truthy
    [data.error]; else [error.request]; else [error.message]. *)
Inductive AxiosError :=
| ResponseError (status : Z) (dataError : option string)
| RequestError
| OtherError (message : option string).

(** [Utils.handleApiError(error, context)] *)
Definition handleApiError (e : AxiosError) : ApiFailure :=
  match e with
  | ResponseError status dataError =>
      let '(errorMessage, errorCode) :=
        if decide (status = 401) then ("Ошибка авторизации API", "AUTH_ERROR")
        else if decide (status = 403) then ("Доступ запрещен", "FORBIDDEN")
        else if decide (status = 404) then ("API эндпоинт не найден", "NOT_FOUND")
        else if decide (status = 429) then ("Превышен лимит запросов", "RATE_LIMIT")
        else if decide (status = 500) then ("Внутренняя ошибка сервера", "SERVER_ERROR")
        else ("Ошибка сервера: " +:+ pretty status, "HTTP_" +:+ pretty status) in
      {| error :=
           match dataError with
           | Some d =>
               if decide (d = "") then errorMessage
               else errorMessage +:+ " - " +:+ d
           | None => errorMessage
           end;
         code := errorCode |}
  | RequestError =>
      {| error := "Ошибка подключения к API"; code := "NETWORK_ERROR" |}
  | OtherError message =>
      {| error :=
           match message with
           | Some s => if decide (s = "") then "Неизвестная ошибка" else s
           | None => "Неизвестная ошибка"
           end;
         code := "GENERAL_ERROR" |}
  end.

(** White space that [trim()] removes, among the code units below 256. *)
Definition isWhiteSpace (c : Ascii.ascii) : bool :=
  let n := Ascii.nat_of_ascii c in
  bool_decide (n = 9 ∨ n = 10 ∨ n = 11 ∨ n = 12 ∨ n = 13 ∨ n = 32 ∨ n = 160)%nat.

Fixpoint isBlank (s : string) : bool :=
  match s with
  | EmptyString => true
  | String c s' => isWhiteSpace c && isBlank s'
  end.

(** [Utils.validateText(text)] with [maxLength = null]; [None] is a
    [text] that is not a string.  Only the verdict is kept: the trimmed
    text goes into the request body, which is not modelled. *)
Definition validateText (text : option string) : option string :=
  match text with
  | None => Some "Текст должен быть строкой"
  | Some t =>
      if decide (t = "") then Some "Текст должен быть строкой"
      else if isBlank t then Some "Текст не может быть пустым"
      else None
  end.

End Utils.

Module QwenApi.
Import Config Utils.

(** [response.data], by the three cases the code tells apart. *)
Inductive ResponseData :=
| Choices (content : string) (chatId : option string)
| Text (s : string)
| Other (json : string).

(** How [this.client.post('/api/chat', requestBody)] settles. *)
Inductive Outcome :=
| Resolves (data : ResponseData)
| Rejects (e : AxiosError).

Inductive GenerationResult :=
| Generated (data : string) (chatId : option string) (model : string)
| Invalid (error : string)
| Failed (f : ApiFailure).

(** What the loop does to the outside: a request, or a [setTimeout]
    wait of so many milliseconds. *)
Inductive Event :=
| Post (attempt : Z)
| Sleep (ms : Z).

Global Instance Event_eq_dec : EqDecision Event.
Proof. solve_decision. Defined.

Definition isPost (e : Event) : bool :=
  match e with Post _ => true | Sleep _ => false end.

(** [a || b] on strings and on numbers. *)
Definition orString (a : option string) (b : string) : string :=
  match a with
  | Some s => if decide (s = "") then b else s
  | None => b
  end.

Definition orNumber (a : option Z) (b : Z) : Z :=
  match a with
  | Some n => if decide (n = 0) then b else n
  | None => b
  end.

(** The body of [for (let attempt = 1; attempt <= retries; attempt++)],
    from [attempt] on.  [post k] is how the request of attempt [k]
    settles; [fuel] bounds the iterations that are left.  The result is
    [None] when the loop runs out without a [return]. *)
Fixpoint attempts (fuel : nat) (attempt retries : Z) (text : option string)
    (userModel : string) (chatId : option string) (post : Z → Outcome)
    : option GenerationResult * list Event :=
  match fuel with
  | O => (None, [])
  | S fuel' =>
      if decide (attempt ≤ retries) then
        match validateText text with
        | Some error => (Some (Invalid error), [])
        | None =>
            match post attempt with
            | Resolves data =>
                let '(responseText, responseChatId) :=
                  match data with
                  | Choices content newChatId =>
                      (content, match newChatId with
                                | Some c => if decide (c = "") then chatId else Some c
                                | None => chatId
                                end)
                  | Text s => (s, chatId)
                  | Other json => (json, chatId)
                  end in
                (Some (Generated responseText responseChatId userModel),
                 [Post attempt])
            | Rejects e =>
                if decide (attempt = retries) then
                  (Some (Failed (handleApiError e)), [Post attempt])
                else
                  let '(r, evs) :=
                    attempts fuel' (attempt + 1) retries text userModel chatId post in
                  (r, Post attempt :: Sleep (2000 * attempt) :: evs)
            end
        end
      else (None, [])
  end.

(** [generateComments(text, userId, model, chatId, maxRetries, ...)] *)
Definition generateComments (cfg : Config) (text : option string)
    (model : option string) (chatId : option string) (maxRetries : option Z)
    (post : Z → Outcome) : option GenerationResult * list Event :=
  let retries := orNumber maxRetries (Config.maxRetries cfg) in
  let userModel := orString model (qwenModel cfg) in
  attempts (Z.to_nat retries) 1 retries text userModel chatId post.

End QwenApi.

(** ** Vocabulary of the properties *)

(** The flat-file store and the operations that write it. *)
Module ChatStore.
Import ChatManager.

(** [activeChatId] is [null] or the id of a chat of the list. *)
Definition active_ok (d : UserData) : Prop :=
  ∀ a, activeChatId d = Some a → a ∈ id <$> chats d.

(** No chat carries the empty id. *)
Definition ids_ok (d : UserData) : Prop :=
  ∀ c, c ∈ chats d → id c ≠ "".

Definition store_ok (uc : gmap Z UserData) : Prop :=
  ∀ u d, uc !! u = Some d → active_ok d ∧ ids_ok d.

(** The operations that write [userChats].  [selectChat] with the
    database in use and [setUserModel] leave [userChats] alone and are
    not among the steps: this relation is for statements on the
    flat-file store; runs that also write the database are those of
    [BotRun.step]. *)
Inductive step (cfg : Config.Config) : ChatManager → ChatManager → Prop :=
| step_createChat u chatName now rnd m :
    step cfg m (createChat cfg u chatName now rnd m).2
| step_selectChat u chatId now m :
    step cfg m (selectChatJSON u chatId now m).2
| step_renameChat u chatId newName m :
    step cfg m (renameChat cfg u chatId newName m).2
| step_deleteChat u chatId m :
    step cfg m (deleteChat u chatId m).2
| step_getChats u m :
    step cfg m (getChatsJSON u m).2
| step_getActiveChat u m :
    step cfg m (getActiveChatJSON u m).2
| step_updateChatStats u chatId now m :
    step cfg m (updateChatStats u chatId now m)
| step_autoCleanup now m :
    step cfg m (autoCleanup now m).

(** The number of chats [getChats] lists for a user. *)
Definition chatCount (u : Z) (now : Z) (m : ChatManager) : nat :=
  match (getChats u now m).1 with
  | Ok (JsonChats cs _) => length cs
  | Ok (DbChats cs _) => length cs
  | Fail _ => 0%nat
  end.



(** A listing "ordered by most-recently-updated first". *)
Definition recent_first (cs : list Chat) : Prop :=
  StronglySorted (λ a b, lastUsed b ≤ lastUsed a) cs.

End ChatStore.

(** The retry loop seen from outside. *)
Module Retry.
Import QwenApi.

(** The requests of attempts [from .. k], with the wait of
    [2000 * i] ms after each attempt [i] before the last. *)
Definition eventsFrom (from k : Z) : list Event :=
  (seqZ from (k - from) ≫= λ i, [Post i; Sleep (2000 * i)]) ++ [Post k].

(** What the caller and the network see when attempt [k] is the one
    that returns. *)
Definition expectedEvents (k : Z) : list Event := eventsFrom 1 k.

End Retry.

(** The feedback of a user, as the statistics read it. *)
Module FeedbackStats.
Import LearningManager.

Definition ratingOf (f : Feedback) : option Z :=
  match f with
  | CommentRating _ _ rating _ _ => Some rating
  | ImprovementFeedback _ _ _ _ _ => None
  end.

(** The ratings of the rating-kind records, in order. *)
Definition ratingsOf (fb : list Feedback) : list Z := omap ratingOf fb.

Definition isImprovement (f : Feedback) : bool :=
  match f with
  | CommentRating _ _ _ _ _ => false
  | ImprovementFeedback _ _ _ _ _ => true
  end.

(** The number of improvement-kind records. *)
Definition improvementsOf (fb : list Feedback) : nat :=
  length (filter isImprovement fb).

Definition sumZ (l : list Z) : Z := foldr Z.add 0 l.

(** How often [k] occurs among the ratings. *)
Definition countOf (k : Z) (l : list Z) : nat := length (filter (λ r, r = k) l).

(** Ratings that the code sums and counts without rounding: their
    absolute values add up to at most [2^53], and so does their number.
    Every sum of some of them is then a double, and the average stays
    below [10^21]. *)
Definition exactly_summed (l : list Z) : Prop :=
  sumZ (Z.abs <$> l) ≤ 2 ^ 53 ∧ Z.of_nat (length l) ≤ 2 ^ 53.

End FeedbackStats.

(** ** Concrete runs *)

Module Scenario.
Import ChatManager.

(** A configuration with room for two chats and names of three
    characters. *)
Definition small : Config.Config :=
  {| Config.maxChatsPerUser := 2;
     Config.maxChatNameLength := 3;
     Config.maxRetries := 3;
     Config.qwenModel := "qwen-max-latest";
     Config.defaultModel := "qwen-max-latest" |}.

Definition alice : Z := 42.

(** On the flat files: alice creates "A", then "B", then "C", selects
    "C" and deletes it. *)
Definition flatA : ChatManager :=
  (createChat Config.default alice "A" 1000 "a" (initial false)).2.
Definition flatAB : ChatManager :=
  (createChat Config.default alice "B" 2000 "b" flatA).2.
Definition flatABC : ChatManager :=
  (createChat Config.default alice "C" 3000 "c" flatAB).2.
Definition flatABC_onC : ChatManager :=
  (selectChatJSON alice (IdString (newChatId 3000 "c")) 4000 flatABC).2.
Definition flatAB_afterC : ChatManager :=
  (deleteChat alice (IdString (newChatId 3000 "c")) flatABC_onC).2.

Definition chatA : Chat :=
  {| id := newChatId 1000 "a"; name := "A";
     createdAt := 1000; lastUsed := 1000; messageCount := 0 |}.
Definition chatB : Chat :=
  {| id := newChatId 2000 "b"; name := "B";
     createdAt := 2000; lastUsed := 2000; messageCount := 0 |}.

(** On the database: alice creates "A", then "B". *)
Definition dbA : ChatManager :=
  (createChat Config.default alice "A" 1000 "a" (initial true)).2.
Definition dbAB : ChatManager :=
  (createChat Config.default alice "B" 2000 "b" dbA).2.

Definition rowA : DatabaseManager.ChatRow :=
  {| DatabaseManager.id := 1; DatabaseManager.chat_user_id := 1;
     DatabaseManager.name := "A"; DatabaseManager.model := "qwen-max-latest";
     DatabaseManager.is_active := true; DatabaseManager.message_count := 0;
     DatabaseManager.created_at := 1000; DatabaseManager.updated_at := 1000 |}.

(** The feedback manager on the flat files after alice has rated two
    comments, with 4 and with 5. *)
Definition ratedTwice : LearningManager.LearningManager :=
  (LearningManager.saveCommentRatingJSON alice "comment_2" 5 "{}" 2000 "y"
     (LearningManager.saveCommentRatingJSON alice "comment_1" 4 "{}" 1000 "x"
        (LearningManager.initial false)).2).2.

(** Three requests that fail, by a time-out, a 500 and a 429. *)
Definition failing (attempt : Z) : QwenApi.Outcome :=
  if decide (attempt = 1) then QwenApi.Rejects Utils.RequestError
  else if decide (attempt = 2) then QwenApi.Rejects (Utils.ResponseError 500 None)
  else QwenApi.Rejects (Utils.ResponseError 429 None).

End Scenario.

(** ** Further operations *)

(** *** Selecting a chat in the database *)

Module ChatSelect.
Import DatabaseManager.

(** [UPDATE chats SET is_active = 1, updated_at = CURRENT_TIMESTAMP
     WHERE id = ? AND user_id = ?] *)
Definition activate (chatId userId now : Z) (c : ChatRow) : ChatRow :=
  if decide (id c = chatId ∧ chat_user_id c = userId) then
    {| id := id c; chat_user_id := chat_user_id c; name := name c;
       model := model c; is_active := true;
       message_count := message_count c;
       created_at := created_at c; updated_at := now |}
  else c.

(** The two statements of [selectChatDB], one after the other. *)
Definition setActiveChat (userId chatId now : Z) (db : Database) : Database :=
  with_chats db
    (activate chatId userId now <$> deactivate_all userId (chats db))
    (chats_seq db).

(** [selectChatDB(userId, chatId)] of [ChatManager], for a [chatId] that
    is a number, as the ids of the rows that [getChats] lists are.  The
    result carries the row as it was read before the update. *)
Definition selectChatDB (userId : Z) (chatId : Z) (now : Z)
    (m : ChatManager.ChatManager) : Result ChatRow * ChatManager.ChatManager :=
  let '(user, db) := getUserOrCreate userId no_hints now (ChatManager.dbManager m) in
  let chats := getUserChats (user_id user) db in
  match list_find (λ c, id c = chatId) chats with
  | None =>
      (Fail ChatNotFound, ChatManager.with_db m (ChatManager.userSettings m) db)
  | Some (_, chat) =>
      (Ok chat,
       ChatManager.with_db m (ChatManager.userSettings m)
         (setActiveChat (user_id user) chatId now db))
  end.

End ChatSelect.

(** *** What the database keeps true *)

Module DatabaseInvariant.
Import DatabaseManager.

(** The statements the managers run. *)
Inductive step : Database → Database → Prop :=
| step_getUserOrCreate telegramId hints now db :
    step db (getUserOrCreate telegramId hints now db).2
| step_createChat userId chatName chatModel now db :
    step db (createChat userId chatName chatModel now db).2
| step_setActiveChat userId chatId now db :
    step db (ChatSelect.setActiveChat userId chatId now db)
| step_saveFeedback userId commentId rating text type context now db :
    step db (saveFeedback userId commentId rating text type context now db).2.

(** PRIMARY KEY, UNIQUE, FOREIGN KEY and CHECK of the schema. *)
Record constraints (db : Database) : Prop := {
  user_ids_distinct : NoDup (user_id <$> users db);
  telegram_ids_distinct : NoDup (telegram_id <$> users db);
  chat_ids_distinct : NoDup (id <$> chats db);
  chat_ids_issued : ∀ c, c ∈ chats db → id c ≤ chats_seq db;
  feedback_ids_distinct : NoDup (feedback_id <$> feedback db);
  feedback_ids_issued : ∀ f, f ∈ feedback db → feedback_id f ≤ feedback_seq db;
  chat_users_exist :
    ∀ c, c ∈ chats db → chat_user_id c ∈ user_id <$> users db;
  feedback_users_exist :
    ∀ f, f ∈ feedback db → feedback_user_id f ∈ user_id <$> users db;
  ratings_in_range : ∀ f, f ∈ feedback db → rating_check (rating f)
}.

(** The chats of a user that are marked active. *)
Definition activeChats (userId : Z) (db : Database) : list ChatRow :=
  filter (λ c, chat_user_id c = userId ∧ is_active c = true) (chats db).

Definition one_active (db : Database) : Prop :=
  ∀ u, (length (activeChats u db) ≤ 1)%nat.

End DatabaseInvariant.

(** *** The model of a user *)

Module UserModel.
Import ChatManager.

(** [setUserModel(userId, model)]: the settings object of the user,
    created on first use, gets the new [model]. *)
Definition setUserModel (cfg : Config.Config) (userId : Z) (model : string)
    (m : ChatManager) : Result string * ChatManager :=
  let '(_, us) := getUserModel cfg userId (userSettings m) in
  (Ok model, with_db m (<[userId := model]> us) (dbManager m)).

End UserModel.

(** *** Vocabulary of the further properties *)

Module ChatStoreMore.
Import ChatManager.

(** No user has more chats than the configuration allows. *)
Definition within_limit (cfg : Config.Config) (uc : gmap Z UserData) : Prop :=
  ∀ u d, uc !! u = Some d → (length (chats d) ≤ Config.maxChatsPerUser cfg)%nat.

(** The chat that [activeChatId] names: the first one with that id. *)
Definition namedChat (d : UserData) : option Chat :=
  a ← activeChatId d; snd <$> list_find (λ c, id c = a) (chats d).

End ChatStoreMore.

(** *** Clean-up of the stored feedback *)

Module FeedbackCleanup.
Import LearningManager.

Global Instance Feedback_eq_dec : EqDecision Feedback.
Proof. solve_decision. Defined.

(** [feedback.timestamp], read back by [new Date(...)]. *)
Definition timestamp (f : Feedback) : Z :=
  match f with
  | CommentRating _ _ _ _ t => t
  | ImprovementFeedback _ _ _ _ t => t
  end.

(** [new Date(now.getTime() - (retentionDays * 24 * 60 * 60 * 1000))] *)
Definition cutoffDate (retentionDays now : Z) : Z :=
  now - retentionDays * 24 * 60 * 60 * 1000.

(** [index = userFeedback.indexOf(item)] and, when it is not [-1],
    [userFeedback.splice(index, 1)].  The array holds each object once
    and [indexOf] compares references; on values, taking out the first
    equal record leaves the same list. *)
Fixpoint removeItem (item : Feedback) (userFeedback : list Feedback)
    : list Feedback :=
  match userFeedback with
  | [] => []
  | f :: rest => if decide (f = item) then rest else f :: removeItem item rest
  end.

(** The body of the loop over [feedbackCache.entries()]. *)
Definition cleanupUser (cutoff : Z) (userFeedback : list Feedback)
    : list Feedback :=
  let oldFeedback := filter (λ f, timestamp f < cutoff) userFeedback in
  foldl (λ l item, removeItem item l) userFeedback oldFeedback.

(** One tick of the interval of [startAutoCleanup], with
    [config.learning.feedbackRetentionDays] as [retentionDays]. *)
Definition autoCleanup (retentionDays now : Z) (m : LearningManager)
    : LearningManager :=
  with_cache m (cleanupUser (cutoffDate retentionDays now) <$> feedbackCache m).

End FeedbackCleanup.

(** *** Statistics of the feedback table *)

Module DatabaseStats.
Import DatabaseManager.

Global Instance FeedbackType_eq_dec : EqDecision FeedbackType.
Proof. solve_decision. Defined.

(** The ratings of the rows of
    [... WHERE user_id = ? AND feedback_type = 'comment_rating'
         AND rating IS NOT NULL]. *)
Definition ratedRows (userId : Z) (db : Database) : list Z :=
  omap rating
    (filter (λ f, feedback_user_id f = userId ∧ feedback_type f = comment_rating)
       (feedback db)).

(** [SELECT rating, COUNT( * ) as count ... GROUP BY rating]: one row
    for each rating that occurs, with the number of its rows.  SQL
    leaves the order of the groups open. *)
Definition groupByRating (rs : list Z) : list (Z * nat) :=
  (λ r, (r, FeedbackStats.countOf r rs)) <$> remove_dups rs.

(** The body of [ratings.forEach(row => ...)]. *)
Definition addGroup (t : LearningManager.Tally) (row : Z * nat)
    : LearningManager.Tally :=
  {| LearningManager.tally_ratings :=
       <[row.1 := LearningManager.Count row.2]> (LearningManager.tally_ratings t);
     LearningManager.tally_improvementFeedback :=
       LearningManager.tally_improvementFeedback t;
     LearningManager.totalRating :=
       LearningManager.totalRating t + row.1 * Z.of_nat row.2;
     LearningManager.ratingCount := (LearningManager.ratingCount t + row.2)%nat |}.

(** [getUserFeedbackStats(userId)] of the database manager, for the
    groups in the order the query returned them. *)
Definition statsOfGroups (userId : Z) (db : Database) (groups : list (Z * nat))
    : LearningManager.Stats :=
  let t := foldl addGroup LearningManager.initialTally groups in
  {| LearningManager.totalFeedback :=
       length (filter (λ f, feedback_user_id f = userId) (feedback db));
     LearningManager.ratings := LearningManager.tally_ratings t;
     LearningManager.improvementFeedback :=
       length (filter (λ f, feedback_user_id f = userId ∧
                            feedback_type f = improvement_feedback) (feedback db));
     LearningManager.averageRating :=
       if decide (0 < LearningManager.ratingCount t)%nat then
         LearningManager.AverageFixed
           (JsNumber.toFixed1
              (JsNumber.div (JsNumber.of_Z (LearningManager.totalRating t))
                 (JsNumber.of_Z (Z.of_nat (LearningManager.ratingCount t)))))
       else LearningManager.AverageZero |}.

Definition getUserFeedbackStats (userId : Z) (db : Database)
    : LearningManager.Stats :=
  statsOfGroups userId db (groupByRating (ratedRows userId db)).

End DatabaseStats.

(** *** The text sent with a request *)

(** [Utils.cleanText(text)], on the code units of the string.  [isSpace]
    is the class [\s], which is also what [trim()] removes. *)
Module CleanText.
Section CleanText.
Context {char : Type} `{EqDecision char}.
Variable isSpace : char → bool.
Variables space newline : char.

(** [replace(/\s+/g, ' ')]: every maximal run of white space becomes
    one space.  [inRun] tells that the code unit before was part of a
    run. *)
Fixpoint collapseSpaces (inRun : bool) (text : list char) : list char :=
  match text with
  | [] => []
  | c :: rest =>
      if isSpace c then
        if inRun then collapseSpaces true rest
        else space :: collapseSpaces true rest
      else c :: collapseSpaces false rest
  end.

(** A match of [\s*\n] at the head of [text], the longest one first:
    what follows the match. *)
Fixpoint matchBlank (text : list char) : option (list char) :=
  match text with
  | [] => None
  | c :: rest =>
      match (if isSpace c then matchBlank rest else None) with
      | Some after => Some after
      | None => if decide (c = newline) then Some rest else None
      end
  end.

(** [replace(/\n\s*\n/g, '\n')]; every step consumes a code unit, so
    [fuel] is the length of the text. *)
Fixpoint dropBlankLines (fuel : nat) (text : list char) : list char :=
  match fuel, text with
  | O, _ => text
  | _, [] => []
  | S fuel', c :: rest =>
      match (if decide (c = newline) then matchBlank rest else None) with
      | Some after => newline :: dropBlankLines fuel' after
      | None => c :: dropBlankLines fuel' rest
      end
  end.

(** [trim()] *)
Fixpoint trimStart (text : list char) : list char :=
  match text with
  | [] => []
  | c :: rest => if isSpace c then trimStart rest else text
  end.

Fixpoint trimEnd (text : list char) : list char :=
  match text with
  | [] => []
  | c :: rest =>
      match trimEnd rest with
      | [] => if isSpace c then [] else [c]
      | kept => c :: kept
      end
  end.

Definition trim (text : list char) : list char := trimEnd (trimStart text).

Definition cleanText (text : list char) : list char :=
  let collapsed := collapseSpaces false text in
  trim (dropBlankLines (length collapsed) collapsed).

(** White space of [text] is the single [space], never two in a row and,
    when [afterSpace] is set, not at the head. *)
Fixpoint tidy (afterSpace : bool) (text : list char) : Prop :=
  match text with
  | [] => True
  | c :: rest =>
      if isSpace c then c = space ∧ afterSpace = false ∧ tidy true rest
      else tidy false rest
  end.

End CleanText.
End CleanText.

(** *** From the flat files to the database *)

(** [migrateChats] of [scripts/migrate-to-database.js].  [clock n] is
    the CURRENT_TIMESTAMP of the [n]-th INSERT the run attempts; the
    state carries the number of INSERTs so far. *)
Module Migration.
Import DatabaseManager.

(** [UPDATE chats SET message_count = ?, updated_at = ? WHERE id = ?] *)
Definition updateStats (chatId messageCount updatedAt : Z) (c : ChatRow) : ChatRow :=
  if decide (id c = chatId) then
    {| id := id c; chat_user_id := chat_user_id c; name := name c;
       model := model c; is_active := is_active c;
       message_count := messageCount;
       created_at := created_at c; updated_at := updatedAt |}
  else c.

(** The body of the loop over [userData.chats].  The chat objects of
    the flat files have no [model], so [chat.model || 'qwen-max-latest']
    is the constant.  The UPDATE stores [chat.lastUsed], an ISO string,
    in [updated_at]: where such a row comes in the order of
    [getUserChats] is not what its number says, and nothing here is
    stated on that order. *)
Definition migrateChat (clock : nat → Z) (userId : Z) (st : Database * nat)
    (chat : ChatManager.Chat) : Database * nat :=
  let '(db, n) := st in
  let '(result, db') :=
    createChat userId (ChatManager.name chat) "qwen-max-latest" (clock n) db in
  match result with
  | Ok row =>
      if decide (0 < ChatManager.messageCount chat) then
        (with_chats db'
           (updateStats (id row) (ChatManager.messageCount chat)
              (ChatManager.lastUsed chat) <$> chats db')
           (chats_seq db'), S n)
      else (db', S n)
  | Fail _ => (db', S n)
  end.

(** The body of the loop over [Object.entries(userChats)]. *)
Definition migrateUser (clock : nat → Z) (st : Database * nat)
    (entry : Z * ChatManager.UserData) : Database * nat :=
  let '(db, n) := st in
  let '(user, db1) := getUserOrCreate entry.1 no_hints (clock n) db in
  foldl (migrateChat clock (user_id user)) (db1, S n) (ChatManager.chats entry.2).

Definition migrateChats (clock : nat → Z)
    (userChats : list (Z * ChatManager.UserData)) (db : Database) : Database :=
  (foldl (migrateUser clock) (db, 0%nat) userChats).1.

(** What of a row the migration is about: whose it is, its name, and
    whether it is the active one. *)
Definition shape (c : ChatRow) : Z * string * bool :=
  (chat_user_id c, name c, is_active c).

End Migration.

(** ** The monitor of the bot process *)

Module BotMonitor.

(** How a bot process the monitor has spawned ends: with the ['error']
    event, or with ['exit'] and its code ([null] after a signal). *)
Inductive Ending :=
| ErrorEvent
| ExitEvent (code : option Z).

Global Instance Ending_eq_dec : EqDecision Ending.
Proof. solve_decision. Defined.

(** What the monitor does then: spawn the bot again (after
    [restartDelay]), leave with [process.exit(1)], or nothing. *)
Inductive Action := Spawn | ProcessExit | Nothing.

Global Instance Action_eq_dec : EqDecision Action.
Proof. solve_decision. Defined.

Definition maxRestarts : nat := 10.

(** [handleRestart()] *)
Definition handleRestart (restartCount : nat) : nat * Action :=
  let restartCount := S restartCount in
  if decide (restartCount ≤ maxRestarts)%nat then (restartCount, Spawn)
  else (restartCount, ProcessExit).

(** The listeners [spawnBot] puts on the process. *)
Definition onEnding (restartCount : nat) (e : Ending) : nat * Action :=
  match e with
  | ErrorEvent => handleRestart restartCount
  | ExitEvent code =>
      if decide (code ≠ Some 0 ∧ (restartCount < maxRestarts)%nat) then
        handleRestart restartCount
      else if decide (maxRestarts ≤ restartCount)%nat then
        (restartCount, ProcessExit)
      else (restartCount, Nothing)
  end.

(** The monitor over the endings of the processes it spawns, one after
    the other; it goes on only after a [Spawn]. *)
Fixpoint run (restartCount : nat) (endings : list Ending) : list Action :=
  match endings with
  | [] => []
  | e :: rest =>
      let '(restartCount', action) := onEnding restartCount e in
      action :: match action with
                | Spawn => run restartCount' rest
                | ProcessExit | Nothing => []
                end
  end.

(** [start()]: the first [spawnBot()], with [restartCount = 0]. *)
Definition start (endings : list Ending) : list Action := Spawn :: run 0 endings.

(** The bot did not end cleanly. *)
Definition crashed (e : Ending) : Prop := e ≠ ExitEvent (Some 0).

Global Instance crashed_dec e : Decision (crashed e).
Proof. unfold crashed. apply _. Defined.

End BotMonitor.

(** ** The command handlers of the bot *)

Module TelegramBot.
Import ChatManager.

(** The name of the first chat, ['Основной чат'], by its twelve code
    units.  A character of a string stands for a code unit; a code unit
    above 255 is kept by its low byte, which leaves the length, the only
    thing the code looks at, as it is. *)
Definition codeUnit (n : N) : Ascii.ascii := Ascii.ascii_of_N (n mod 256).

Definition mainChatName : string :=
  String.string_of_list_ascii
    (codeUnit <$> [1054; 1089; 1085; 1086; 1074; 1085; 1086; 1081; 32;
                   1095; 1072; 1090]%N).

(** [handleStart(msg)], as far as the chats go: the user data of the
    flat files decide whether the first chat is created; the welcome
    message is left out. *)
Definition handleStart (cfg : Config.Config) (userId : Z) (now : Z)
    (rnd : string) (m : ChatManager) : ChatManager :=
  let '(userData, uc) := getUserData userId (userChats m) in
  let m1 := with_userChats m uc in
  if decide (length (chats userData) = 0%nat) then
    (createChat cfg userId mainChatName now rnd m1).2
  else m1.

End TelegramBot.

(** ** What can have happened before a command *)

(** The runs of the bot on one chat manager.  Whatever is done to the
    database or to the settings is a step: [selectChatDB],
    [createChatDB], [getChatsDB], [getActiveChatDB], [setUserModel] and
    the statements of the feedback manager are among these. *)
Module BotRun.
Import ChatManager.

Inductive step (cfg : Config.Config) : ChatManager → ChatManager → Prop :=
| step_store m m' :
    ChatStore.step cfg m m' → step cfg m m'
| step_database us db m :
    step cfg m (with_db m us db)
| step_handleStart u now rnd m :
    step cfg m (TelegramBot.handleStart cfg u now rnd m).

(** The chat manager after [init()] when the database is there:
    [loadData()] is skipped, so the maps are empty, while the database
    holds what earlier runs left in it. *)
Definition started_on_database (m : ChatManager) : Prop :=
  useDatabase m = true ∧ userChats m = ∅.

End BotRun.

(** ** The clean-up script of the API server's chats *)

(** [ChatCleanup.autoCleanup] of [scripts/cleanup-chats.js], for the
    chats of one user (those whose name matches [User_<id>_Comments]). *)
Module ChatCleanup.

(** A chat as the API lists it.  [time] is
    [new Date(chat.createdAt || chat.updatedAt || 0).getTime()], taken
    to be a number. *)
Record RemoteChat := {
  chatId : string;
  time : Z
}.

Global Instance RemoteChat_eq_dec : EqDecision RemoteChat.
Proof. solve_decision. Defined.

Definition MAX_CHAT_AGE_DAYS : Z := 7.
Definition MAX_CHATS_PER_USER : nat := 5.

Definition maxAgeMs : Z := MAX_CHAT_AGE_DAYS * 24 * 60 * 60 * 1000.

(** [userChatList.sort((a, b) => timeB - timeA)]: newest first.  The
    model sorts by merging; chats of equal time may come out in another
    order than the engine's sort gives them. *)
Definition newer_first (a b : RemoteChat) : Prop := time b ≤ time a.

Global Instance newer_first_dec : RelDecision newer_first.
Proof. intros a b. unfold newer_first. apply _. Defined.

Definition sortChats (userChatList : list RemoteChat) : list RemoteChat :=
  merge_sort newer_first userChatList.

(** [chatAge > maxAgeMs || i >= MAX_CHATS_PER_USER] *)
Definition doomed (now : Z) (i : nat) (chat : RemoteChat) : Prop :=
  maxAgeMs < now - time chat ∨ (MAX_CHATS_PER_USER ≤ i)%nat.

Global Instance doomed_dec now i chat : Decision (doomed now i chat).
Proof. unfold doomed. apply _. Defined.

(** The loop [for (let i = 0; i < userChatList.length; i++)] from index
    [i] on: the chats it asks the server to delete, in this order. *)
Fixpoint sweep (now : Z) (i : nat) (userChatList : list RemoteChat)
    : list RemoteChat :=
  match userChatList with
  | [] => []
  | chat :: rest =>
      if decide (doomed now i chat) then chat :: sweep now (S i) rest
      else sweep now (S i) rest
  end.

(** The chats the loop passes over. *)
Fixpoint spared (now : Z) (i : nat) (userChatList : list RemoteChat)
    : list RemoteChat :=
  match userChatList with
  | [] => []
  | chat :: rest =>
      if decide (doomed now i chat) then spared now (S i) rest
      else chat :: spared now (S i) rest
  end.

(** The delete requests of [autoCleanup] for the chats of one user. *)
Definition autoCleanup (now : Z) (userChatList : list RemoteChat)
    : list RemoteChat :=
  sweep now 0 (sortChats userChatList).

End ChatCleanup.

(** ** Further concrete runs *)

Module Runs.
Import DatabaseManager.

(** The tables after alice has been registered and has created the
    chats "A" and "B", and after a rating of 4 has been stored for her. *)
Definition tablesA : Database :=
  (createChat 1 "A" "qwen-max-latest" 1000
     (getUserOrCreate Scenario.alice no_hints 1000 empty).2).2.
Definition tablesAB : Database :=
  (createChat 1 "B" "qwen-max-latest" 2000 tablesA).2.
Definition tablesRated : Database :=
  (saveFeedback 1 "comment_1" (Some 4) None comment_rating "{}" 2500 tablesAB).2.

(** A chat manager on these tables. *)
Definition managerAB : ChatManager.ChatManager :=
  ChatManager.with_db (ChatManager.initial true) ∅ tablesAB.

(** The same manager after alice has selected the chat "A", and after
    she has then sent [/start]. *)
Definition managerSelected : ChatManager.ChatManager :=
  (ChatSelect.selectChatDB Scenario.alice 1 3000 managerAB).2.
Definition managerStarted : ChatManager.ChatManager :=
  TelegramBot.handleStart Config.default Scenario.alice 4000 "x" managerSelected.

(** A user who has no chat. *)
Definition bob : Z := 7.

(** The user data of alice after "A" and "B" on the flat files. *)
Definition dataAB : ChatManager.UserData :=
  {| ChatManager.chats := [Scenario.chatA; Scenario.chatB];
     ChatManager.activeChatId := Some (ChatManager.id Scenario.chatA) |}.

(** Forty days after the chat "A" was used last. *)
Definition fortyDaysLater : Z := 1000 + 40 * 86400000.

(** A text with white space at both ends, a run of two spaces and a
    line break. *)
Definition lineBreak : Ascii.ascii := Ascii.ascii_of_nat 10.
Definition blank : Ascii.ascii := Ascii.ascii_of_nat 32.
(** Six chats of the API server, the last one nine days old at [atNoon]. *)
Definition atNoon : Z := 10 * 86400000.
Definition remoteChats : list ChatCleanup.RemoteChat :=
  [ {| ChatCleanup.chatId := "c1"; ChatCleanup.time := 9 * 86400000 |};
    {| ChatCleanup.chatId := "c2"; ChatCleanup.time := 8 * 86400000 |};
    {| ChatCleanup.chatId := "c3"; ChatCleanup.time := 7 * 86400000 |};
    {| ChatCleanup.chatId := "c4"; ChatCleanup.time := 6 * 86400000 |};
    {| ChatCleanup.chatId := "c5"; ChatCleanup.time := 5 * 86400000 |};
    {| ChatCleanup.chatId := "c6"; ChatCleanup.time := 1 * 86400000 |} ].

Definition untidy : list Ascii.ascii :=
  String.list_ascii_of_string " a  b" ++ [lineBreak] ++
  String.list_ascii_of_string "c ".

End Runs.
(** * Properties *)

(** ** The flat-file store never points at a chat that is gone *)

Section ActiveChatInvariant.
Import ChatManager ChatStore.

Lemma emptyUserData_ok : active_ok emptyUserData ∧ ids_ok emptyUserData.
Proof.
  split; [intros a Ha; discriminate | intros c Hc].
  by apply elem_of_nil in Hc.
Qed.

Lemma store_ok_empty : store_ok ∅.
Proof. intros u d Hd. by rewrite lookup_empty in Hd. Qed.

Lemma store_ok_insert uc u d :
  store_ok uc → active_ok d → ids_ok d → store_ok (<[u := d]> uc).
Proof.
  intros Huc Ha Hi u' d'. rewrite lookup_insert.
  case_decide; [intros [= <-]; done | apply Huc].
Qed.

Lemma getUserData_ok u uc d uc' :
  getUserData u uc = (d, uc') →
  store_ok uc → store_ok uc' ∧ active_ok d ∧ ids_ok d.
Proof.
  unfold getUserData. intros Hg Huc.
  destruct (uc !! u) as [d0|] eqn:Hu; injection Hg as <- <-.
  - split; [done | by apply (Huc u)].
  - destruct emptyUserData_ok as [Ha Hi].
    split; [by apply store_ok_insert | done].
Qed.

Lemma newChatId_nonempty now rnd : newChatId now rnd ≠ "".
Proof. discriminate. Qed.

(** Overwriting a chat by one of the same id keeps the ids in place. *)
Lemma ids_insert_same (cs : list Chat) i c c' :
  cs !! i = Some c → id c' = id c → id <$> <[i := c']> cs = id <$> cs.
Proof.
  intros Hi Hid. rewrite list_fmap_insert, Hid.
  apply list_insert_id. by rewrite list_lookup_fmap, Hi.
Qed.

Lemma ids_ok_insert_same (cs : list Chat) i c c' acts acts' :
  cs !! i = Some c → id c' = id c →
  ids_ok {| chats := cs; activeChatId := acts |} →
  ids_ok {| chats := <[i := c']> cs; activeChatId := acts' |}.
Proof.
  intros Hi Hid Hok x Hx. simpl in *.
  assert (id x ∈ id <$> cs) as Hin.
  { rewrite <- (ids_insert_same cs i c c' Hi Hid). by apply list_elem_of_fmap_2. }
  apply list_elem_of_fmap in Hin as (y & -> & Hy). by apply Hok.
Qed.

(** A chat other than the one taken out is still there. *)
Lemma elem_of_delete_other (cs : list Chat) i c x :
  cs !! i = Some c → x ∈ cs → id x ≠ id c → x ∈ delete i cs.
Proof.
  revert i. induction cs as [|y cs IH]; intros i Hi Hx Hne.
  - by apply elem_of_nil in Hx.
  - destruct i as [|i]; simpl in *.
    + injection Hi as ->. apply elem_of_cons in Hx as [->|Hx]; done.
    + apply elem_of_cons in Hx as [->|Hx]; [by left|].
      right. by apply IH.
Qed.

Lemma firstChatId_elem_of cs a : firstChatId cs = Some a → a ∈ id <$> cs.
Proof.
  unfold firstChatId. destruct cs as [|c cs]; [discriminate|].
  simpl. intros [= <-]. by left.
Qed.

Lemma removeById_sublist cs c : removeById cs c `sublist_of` cs.
Proof.
  unfold removeById. destruct (list_find _ cs) as [[i ?]|]; [|done].
  apply sublist_delete.
Qed.

Lemma foldl_removeById_sublist old cs : foldl removeById cs old `sublist_of` cs.
Proof.
  revert cs. induction old as [|c old IH]; intros cs; simpl; [done|].
  etrans; [apply IH | apply removeById_sublist].
Qed.

Lemma cleanupUser_ok now d :
  active_ok d → ids_ok d → active_ok (cleanupUser now d) ∧ ids_ok (cleanupUser now d).
Proof.
  intros Ha Hi. unfold cleanupUser.
  set (cs' := foldl removeById (chats d) (filter (isOld now) (chats d))).
  split.
  - intros a. simpl. destruct (activeChatId d) as [a0|] eqn:Hact; [|discriminate].
    destruct (decide (a0 = "")) as [->|Hne].
    + exfalso. destruct (proj1 (list_elem_of_fmap _ _ _) (Ha _ Hact))
        as (c & Hc & Hin). by apply (Hi c).
    + destruct (list_find _ cs') as [[j c]|] eqn:Hf.
      * intros [= <-]. apply list_find_Some in Hf as (Hj & Hid & _).
        rewrite <- Hid. apply list_elem_of_fmap_2.
        by eapply list_elem_of_lookup_2.
      * apply firstChatId_elem_of.
  - intros c Hc. simpl in Hc. apply Hi.
    eapply elem_of_sublist; [done | apply foldl_removeById_sublist].
Qed.

Lemma createChatJSON_ok cfg u chatName now rnd m :
  store_ok (userChats m) →
  store_ok (userChats (createChatJSON cfg u chatName now rnd m).2).
Proof.
  intros Hok. unfold createChatJSON.
  destruct (getUserData u (userChats m)) as [d uc] eqn:Hg.
  destruct (getUserData_ok _ _ _ _ Hg Hok) as (Huc & Ha & Hi).
  case_decide; [done|]. case_decide; [done|]. simpl.
  apply store_ok_insert; [done | |].
  - intros a. simpl. rewrite fmap_app. case_decide.
    + intros [= <-]. apply elem_of_app. right. by left.
    + intros Hact. apply elem_of_app. left. by apply Ha.
  - intros c. simpl. intros [Hc | ->%list_elem_of_singleton]%elem_of_app.
    + by apply Hi.
    + apply newChatId_nonempty.
Qed.

Lemma createChatDB_userChats cfg u chatName now m :
  userChats (createChatDB cfg u chatName now m).2 = userChats m.
Proof.
  unfold createChatDB.
  destruct (DatabaseManager.getUserOrCreate _ _ _ _) as [user db].
  repeat case_decide; try done.
  destruct (getUserModel _ _ _) as [model us].
  by destruct (DatabaseManager.createChat _ _ _ _ _) as [r db'].
Qed.

Lemma selectChatJSON_ok u chatId now m :
  store_ok (userChats m) → store_ok (userChats (selectChatJSON u chatId now m).2).
Proof.
  intros Hok. unfold selectChatJSON.
  destruct (getUserData u (userChats m)) as [d uc] eqn:Hg.
  destruct (getUserData_ok _ _ _ _ Hg Hok) as (Huc & Ha & Hi).
  destruct (list_find _ (chats d)) as [[i c]|] eqn:Hf; simpl; [|done].
  apply list_find_Some in Hf as (Hl & _ & _).
  apply store_ok_insert; [done | |].
  - intros a. simpl. intros [= <-].
    rewrite (ids_insert_same _ _ c) by done.
    apply list_elem_of_fmap_2. by eapply list_elem_of_lookup_2.
  - destruct d as [cs act]. by eapply ids_ok_insert_same.
Qed.

Lemma renameChat_ok cfg u chatId newName m :
  store_ok (userChats m) → store_ok (userChats (renameChat cfg u chatId newName m).2).
Proof.
  intros Hok. unfold renameChat.
  destruct (getUserData u (userChats m)) as [d uc] eqn:Hg.
  destruct (getUserData_ok _ _ _ _ Hg Hok) as (Huc & Ha & Hi).
  destruct (list_find _ (chats d)) as [[i c]|] eqn:Hf; simpl; [|done].
  apply list_find_Some in Hf as (Hl & _ & _).
  case_decide; simpl; [done|].
  apply store_ok_insert; [done | |].
  - intros a. simpl. rewrite (ids_insert_same _ _ c) by done. apply Ha.
  - destruct d as [cs act]. by eapply ids_ok_insert_same.
Qed.

Lemma updateChatStats_ok u chatId now m :
  store_ok (userChats m) → store_ok (userChats (updateChatStats u chatId now m)).
Proof.
  intros Hok. unfold updateChatStats.
  destruct (getUserData u (userChats m)) as [d uc] eqn:Hg.
  destruct (getUserData_ok _ _ _ _ Hg Hok) as (Huc & Ha & Hi).
  destruct (list_find _ (chats d)) as [[i c]|] eqn:Hf; simpl; [|done].
  apply list_find_Some in Hf as (Hl & _ & _).
  apply store_ok_insert; [done | |].
  - intros a. simpl. rewrite (ids_insert_same _ _ c) by done. apply Ha.
  - destruct d as [cs act]. by eapply ids_ok_insert_same.
Qed.

Lemma deleteChat_ok u chatId m :
  store_ok (userChats m) → store_ok (userChats (deleteChat u chatId m).2).
Proof.
  intros Hok. unfold deleteChat.
  destruct (getUserData u (userChats m)) as [d uc] eqn:Hg.
  destruct (getUserData_ok _ _ _ _ Hg Hok) as (Huc & Ha & Hi).
  destruct (list_find _ (chats d)) as [[i c]|] eqn:Hf; simpl; [|done].
  apply list_find_Some in Hf as (Hl & Hid & _).
  apply store_ok_insert; [done | |].
  - intros a. simpl. case_decide as Hact.
    + apply firstChatId_elem_of.
    + intros Hsome.
      destruct (proj1 (list_elem_of_fmap _ _ _) (Ha _ Hsome)) as (x & -> & Hx).
      apply list_elem_of_fmap_2. eapply elem_of_delete_other; [done..|].
      intros Heq. apply Hact. rewrite Hsome. simpl. by rewrite Heq, Hid.
  - intros x Hx. simpl in Hx. apply Hi.
    eapply elem_of_sublist; [done | apply sublist_delete].
Qed.

Lemma getChatsJSON_ok u m :
  store_ok (userChats m) → store_ok (userChats (getChatsJSON u m).2).
Proof.
  intros Hok. unfold getChatsJSON.
  destruct (getUserData u (userChats m)) as [d uc] eqn:Hg.
  by destruct (getUserData_ok _ _ _ _ Hg Hok) as (Huc & _).
Qed.

Lemma getActiveChatJSON_ok u m :
  store_ok (userChats m) → store_ok (userChats (getActiveChatJSON u m).2).
Proof.
  intros Hok. unfold getActiveChatJSON.
  destruct (getUserData u (userChats m)) as [d uc] eqn:Hg.
  destruct (getUserData_ok _ _ _ _ Hg Hok) as (Huc & _).
  destruct (activeChatId d) as [a|]; [|done].
  case_decide; [done|]. by destruct (list_find _ _) as [[? ?]|].
Qed.

Lemma autoCleanup_ok now m :
  store_ok (userChats m) → store_ok (userChats (autoCleanup now m)).
Proof.
  intros Hok u d. simpl. rewrite lookup_fmap.
  destruct (userChats m !! u) as [d0|] eqn:Hu; [|discriminate].
  simpl. intros [= <-]. destruct (Hok u d0 Hu). by apply cleanupUser_ok.
Qed.

Lemma step_ok cfg m m' : step cfg m m' → store_ok (userChats m) → store_ok (userChats m').
Proof.
  intros Hstep Hok. destruct Hstep.
  - unfold createChat. destruct (useDatabase m).
    + by rewrite createChatDB_userChats.
    + by apply createChatJSON_ok.
  - by apply selectChatJSON_ok.
  - by apply renameChat_ok.
  - by apply deleteChat_ok.
  - by apply getChatsJSON_ok.
  - by apply getActiveChatJSON_ok.
  - by apply updateChatStats_ok.
  - by apply autoCleanup_ok.
Qed.

Lemma steps_ok cfg m m' :
  rtc (step cfg) m m' → store_ok (userChats m) → store_ok (userChats m').
Proof. induction 1; eauto using step_ok. Qed.

(** C10. Starting from the manager as [init()] leaves it, after any
    sequence of createChat, selectChat, renameChat, deleteChat, reads,
    statistics updates and cleanup runs, the [activeChatId] of every
    user is [null] or the id of one of that user's chats. *)
Theorem activeChatId_never_dangles cfg useDb m u d :
  rtc (step cfg) (initial useDb) m →
  userChats m !! u = Some d →
  match activeChatId d with
  | None => True
  | Some a => ∃ c, c ∈ chats d ∧ id c = a
  end.
Proof.
  intros Hsteps Hu.
  destruct (steps_ok _ _ _ Hsteps store_ok_empty u d Hu) as [Ha _].
  destruct (activeChatId d) as [a|] eqn:Hact; [|done].
  apply Ha, list_elem_of_fmap in Hact as (c & -> & Hc). eauto.
Qed.

End ActiveChatInvariant.

(** ** Facts about the SQLite store *)

Section DatabaseFacts.
Import DatabaseManager.

Lemma getUserOrCreate_tables telegramId hints now db :
  chats (getUserOrCreate telegramId hints now db).2 = chats db ∧
  chats_seq (getUserOrCreate telegramId hints now db).2 = chats_seq db ∧
  feedback (getUserOrCreate telegramId hints now db).2 = feedback db ∧
  feedback_seq (getUserOrCreate telegramId hints now db).2 = feedback_seq db.
Proof.
  unfold getUserOrCreate.
  by destruct (list_find _ (users db)) as [[i user]|].
Qed.

(** The row id of the user does not depend on when, or with which
    hints, the user is looked up. *)
Lemma getUserOrCreate_user_id telegramId hints hints' now now' db :
  user_id (getUserOrCreate telegramId hints now db).1 =
  user_id (getUserOrCreate telegramId hints' now' db).1.
Proof.
  unfold getUserOrCreate.
  by destruct (list_find _ (users db)) as [[i user]|].
Qed.

Lemma getUserOrCreate_registered telegramId hints now db :
  Exists (λ u, user_id u = user_id (getUserOrCreate telegramId hints now db).1)
    (users (getUserOrCreate telegramId hints now db).2).
Proof.
  unfold getUserOrCreate.
  destruct (list_find _ (users db)) as [[i user]|] eqn:Hf; simpl.
  - apply list_find_Some in Hf as (Hi & _ & _).
    apply Exists_exists. exists user. split; [|done].
    by eapply list_elem_of_lookup_2.
  - apply Exists_app. right. by apply Exists_cons_hd.
Qed.

(** Idempotence: a second lookup finds the row of the first and writes
    nothing. *)
Lemma getUserOrCreate_again telegramId hints hints' now now' db :
  getUserOrCreate telegramId hints' now'
    (getUserOrCreate telegramId hints now db).2 =
  getUserOrCreate telegramId hints now db.
Proof.
  unfold getUserOrCreate at 2 3.
  destruct (list_find _ (users db)) as [[i user]|] eqn:Hf; simpl.
  - unfold getUserOrCreate. by rewrite Hf.
  - unfold getUserOrCreate. simpl.
    rewrite list_find_app_r by done. simpl.
    by rewrite decide_True.
Qed.

Lemma filter_active_deactivate_all userId cs :
  filter (λ c, chat_user_id c = userId ∧ is_active c = true)
    (deactivate_all userId cs) = [].
Proof.
  induction cs as [|c cs IH]; [done|].
  unfold deactivate_all in *. rewrite fmap_cons, filter_cons, IH.
  case_decide as Hc; [|done]. exfalso. destruct Hc as [Hu Ha].
  case_decide; simpl in *; [discriminate | done].
Qed.

Lemma deactivate_all_length userId cs :
  length (deactivate_all userId cs) = length cs.
Proof. unfold deactivate_all. by rewrite length_fmap. Qed.

Lemma deactivate_all_inactive userId cs c :
  c ∈ deactivate_all userId cs → chat_user_id c = userId → is_active c = false.
Proof.
  unfold deactivate_all. intros (c0 & -> & Hc0)%list_elem_of_fmap.
  case_decide; simpl; [done|]. intros; done.
Qed.

(** What a successful [createChat] returns and leaves behind. *)
Lemma createChat_Ok userId chatName chatModel now db chat db' :
  createChat userId chatName chatModel now db = (Ok chat, db') →
  chat = {| id := chats_seq db + 1; chat_user_id := userId; name := chatName;
            model := chatModel; is_active := true; message_count := 0;
            created_at := now; updated_at := now |} ∧
  chats db' = deactivate_all userId (chats db) ++ [chat] ∧
  users db' = users db.
Proof.
  unfold createChat. case_decide; [|discriminate].
  intros [= <- <-]. done.
Qed.

Lemma createChat_registered userId chatName chatModel now db :
  Exists (λ u, user_id u = userId) (users db) →
  success (createChat userId chatName chatModel now db).1 = true.
Proof. intros He. unfold createChat. by rewrite decide_True. Qed.

Lemma order_by_singleton c : order_by_updated_at_desc [c] = [c].
Proof. reflexivity. Qed.

(** After a successful [createChat] the new row is the active chat. *)
Lemma getActiveChat_createChat userId chatName chatModel now db chat db' :
  createChat userId chatName chatModel now db = (Ok chat, db') →
  getActiveChat userId db' = Ok chat.
Proof.
  intros Hc. destruct (createChat_Ok _ _ _ _ _ _ _ Hc) as (Hchat & Hcs & _).
  unfold getActiveChat. rewrite Hcs, filter_app, filter_active_deactivate_all.
  rewrite filter_cons, decide_True by (by rewrite Hchat).
  by rewrite filter_nil.
Qed.

(** [getUserChats] lists exactly the rows of the user, latest update
    first. *)
Lemma getUserChats_sorted userId db :
  StronglySorted updated_desc (getUserChats userId db) ∧
  getUserChats userId db ≡ₚ filter (λ c, chat_user_id c = userId) (chats db).
Proof.
  unfold getUserChats, order_by_updated_at_desc. split.
  - apply StronglySorted_merge_sort.
    + intros a b c. unfold updated_desc. lia.
    + intros a b. unfold updated_desc. lia.
  - apply merge_sort_Permutation.
Qed.

Lemma getUserChats_length userId db :
  length (getUserChats userId db) =
  length (filter (λ c, chat_user_id c = userId) (chats db)).
Proof. apply Permutation_length, getUserChats_sorted. Qed.

End DatabaseFacts.

(** ** Creating chats *)

Section CreateChat.
Import Config ChatManager ChatStore.

Lemma getUserOrCreate_found telegramId hints now db i user :
  list_find (λ u, DatabaseManager.telegram_id u = telegramId)
    (DatabaseManager.users db) = Some (i, user) →
  DatabaseManager.getUserOrCreate telegramId hints now db = (user, db).
Proof. intros Hf. unfold DatabaseManager.getUserOrCreate. by rewrite Hf. Qed.

Lemma getUserOrCreate_find telegramId hints now db :
  ∃ i, list_find (λ u, DatabaseManager.telegram_id u = telegramId)
         (DatabaseManager.users
            (DatabaseManager.getUserOrCreate telegramId hints now db).2)
       = Some (i, (DatabaseManager.getUserOrCreate telegramId hints now db).1).
Proof.
  unfold DatabaseManager.getUserOrCreate.
  destruct (list_find _ (DatabaseManager.users db)) as [[i user]|] eqn:Hf; simpl.
  - eauto.
  - eexists. rewrite list_find_app_r by done. simpl.
    by rewrite decide_True.
Qed.

Lemma getUserChats_ext userId db db' :
  DatabaseManager.chats db = DatabaseManager.chats db' →
  DatabaseManager.getUserChats userId db = DatabaseManager.getUserChats userId db'.
Proof. intros H. unfold DatabaseManager.getUserChats. by rewrite H. Qed.

Lemma getActiveChat_ext userId db db' :
  DatabaseManager.chats db = DatabaseManager.chats db' →
  DatabaseManager.getActiveChat userId db = DatabaseManager.getActiveChat userId db'.
Proof. intros H. unfold DatabaseManager.getActiveChat. by rewrite H. Qed.

Lemma getUserData_again u uc :
  getUserData u (getUserData u uc).2 = getUserData u uc.
Proof.
  unfold getUserData. destruct (uc !! u) as [d|] eqn:Hu; simpl.
  - by rewrite Hu.
  - by rewrite lookup_insert_eq.
Qed.

Lemma getUserData_lookup u uc :
  (getUserData u uc).2 !! u = Some (getUserData u uc).1.
Proof.
  unfold getUserData. destruct (uc !! u) as [d|] eqn:Hu; simpl; [done|].
  by rewrite lookup_insert_eq.
Qed.

(** The observations of the database backend depend on the [chats]
    table and on the row id of the user only. *)
Lemma getChatsDB_ext u t m m' :
  DatabaseManager.chats (dbManager m') = DatabaseManager.chats (dbManager m) →
  DatabaseManager.user_id
    (DatabaseManager.getUserOrCreate u DatabaseManager.no_hints t (dbManager m')).1 =
  DatabaseManager.user_id
    (DatabaseManager.getUserOrCreate u DatabaseManager.no_hints t (dbManager m)).1 →
  (getChatsDB u t m').1 = (getChatsDB u t m).1 ∧
  (getActiveChatDB u t m').1 = (getActiveChatDB u t m).1.
Proof.
  intros Hcs Hid. unfold getChatsDB, getActiveChatDB.
  destruct (getUserOrCreate_tables u DatabaseManager.no_hints t
              (dbManager m)) as (H1 & _).
  destruct (getUserOrCreate_tables u DatabaseManager.no_hints t
              (dbManager m')) as (H1' & _).
  destruct (DatabaseManager.getUserOrCreate u _ t (dbManager m)) as [user db].
  destruct (DatabaseManager.getUserOrCreate u _ t (dbManager m')) as [user' db'].
  simpl in *. rewrite Hid.
  rewrite (getUserChats_ext _ db' db), (getActiveChat_ext _ db' db) by congruence.
  done.
Qed.

(** C3. A user who already has the configured maximum number of chats
    cannot create another one: [createChat] fails with the
    limit-exceeded error, and the chats of the user, the active one
    among them, and the stored tables are what they were. *)
Theorem createChat_at_limit cfg u chatName now rnd t m :
  (maxChatsPerUser cfg ≤ chatCount u t m)%nat →
  let r := createChat cfg u chatName now rnd m in
  (∃ e, r.1 = Fail e ∧ e = ChatLimitReached (maxChatsPerUser cfg) ∧
        errorKind e = LimitExceeded) ∧
  (∀ t', (getChats u t' r.2).1 = (getChats u t' m).1 ∧
         (getActiveChat u t' r.2).1 = (getActiveChat u t' m).1) ∧
  DatabaseManager.chats (dbManager r.2) = DatabaseManager.chats (dbManager m) ∧
  (getUserData u (userChats r.2)).1 = (getUserData u (userChats m)).1 ∧
  ∀ u', u' ≠ u → userChats r.2 !! u' = userChats m !! u'.
Proof.
  unfold chatCount, getChats, getActiveChat, createChat.
  destruct (useDatabase m) eqn:Hdb.
  - (* database *)
    unfold getChatsDB at 1, createChatDB.
    pose proof (getUserOrCreate_user_id u
      DatabaseManager.no_hints DatabaseManager.no_hints t now (dbManager m)) as Hid.
    destruct (getUserOrCreate_tables u DatabaseManager.no_hints t
                (dbManager m)) as (Ht & _).
    destruct (getUserOrCreate_tables u DatabaseManager.no_hints now
                (dbManager m)) as (Hn & _).
    pose proof (getUserOrCreate_again u DatabaseManager.no_hints
                  DatabaseManager.no_hints now) as Hagain.
    destruct (DatabaseManager.getUserOrCreate u _ t (dbManager m)) as [user0 db0].
    destruct (DatabaseManager.getUserOrCreate u _ now (dbManager m)) as [user db] eqn:Hg.
    simpl in *. intros Hlim.
    rewrite (getUserChats_ext _ db0 db), Hid in Hlim by congruence.
    rewrite decide_True by done. simpl.
    split; [eauto|]. split; [|done].
    intros t'. rewrite Hdb.
    apply getChatsDB_ext; simpl; [done|].
    specialize (Hagain t' (dbManager m)). rewrite Hg in Hagain. simpl in Hagain.
    rewrite Hagain. simpl.
    pose proof (getUserOrCreate_user_id u
      DatabaseManager.no_hints DatabaseManager.no_hints t' now (dbManager m)) as Hid'.
    by rewrite Hg in Hid'.
  - (* flat files *)
    unfold getChatsJSON at 1, createChatJSON.
    pose proof (getUserData_again u (userChats m)) as Hagain.
    pose proof (getUserData_lookup u (userChats m)) as Hlook.
    assert (∀ u', u' ≠ u → (getUserData u (userChats m)).2 !! u' = userChats m !! u')
      as Hother.
    { intros u' Hne. unfold getUserData.
      destruct (userChats m !! u); simpl; [done|]. by rewrite lookup_insert_ne. }
    destruct (getUserData u (userChats m)) as [d uc] eqn:Hg. simpl in *.
    intros Hlim. rewrite decide_True by done. simpl. rewrite Hdb.
    split; [eauto|]. split; [|by rewrite Hagain].
    intros t'. unfold getChatsJSON, getActiveChatJSON. simpl.
    rewrite Hagain, Hg. simpl.
    split; [done|]. destruct (activeChatId d) as [a|]; [|done].
    case_decide; [done|]. by destruct (list_find _ _) as [[? ?]|].
Qed.

(** The two length checks of [createChatDB], followed by the insert. *)
Lemma createChatDB_below_limit cfg u chatName now m :
  let user := (DatabaseManager.getUserOrCreate u DatabaseManager.no_hints now
                 (dbManager m)).1 in
  let db := (DatabaseManager.getUserOrCreate u DatabaseManager.no_hints now
               (dbManager m)).2 in
  (length (DatabaseManager.getUserChats (DatabaseManager.user_id user) db)
     < maxChatsPerUser cfg)%nat →
  createChatDB cfg u chatName now m =
    if decide (maxChatNameLength cfg < String.length chatName)%nat then
      (Fail (ChatNameTooLong (maxChatNameLength cfg)), with_db m (userSettings m) db)
    else
      let r := DatabaseManager.createChat (DatabaseManager.user_id user) chatName
                 (getUserModel cfg u (userSettings m)).1 now db in
      (match r.1 with Ok c => Ok (DbChat c) | Fail e => Fail e end,
       with_db m (getUserModel cfg u (userSettings m)).2 r.2).
Proof.
  unfold createChatDB.
  destruct (DatabaseManager.getUserOrCreate u _ now (dbManager m)) as [user db].
  simpl. intros Hlt. rewrite decide_False by lia.
  case_decide; [done|].
  destruct (getUserModel cfg u (userSettings m)) as [model us]. simpl.
  by destruct (DatabaseManager.createChat _ _ _ _ _) as [r db'].
Qed.

Lemma chatCount_db u t now m :
  useDatabase m = true →
  chatCount u t m =
  length (DatabaseManager.getUserChats
            (DatabaseManager.user_id
               (DatabaseManager.getUserOrCreate u DatabaseManager.no_hints now
                  (dbManager m)).1)
            (DatabaseManager.getUserOrCreate u DatabaseManager.no_hints now
               (dbManager m)).2).
Proof.
  intros Hdb. unfold chatCount, getChats, getChatsDB. rewrite Hdb.
  pose proof (getUserOrCreate_user_id u
    DatabaseManager.no_hints DatabaseManager.no_hints t now (dbManager m)) as Hid.
  destruct (getUserOrCreate_tables u DatabaseManager.no_hints t (dbManager m))
    as (Ht & _).
  destruct (getUserOrCreate_tables u DatabaseManager.no_hints now (dbManager m))
    as (Hn & _).
  destruct (DatabaseManager.getUserOrCreate u _ t (dbManager m)) as [user0 db0].
  destruct (DatabaseManager.getUserOrCreate u _ now (dbManager m)) as [user db].
  simpl in *. rewrite Hid. f_equal. apply getUserChats_ext. congruence.
Qed.

Lemma chatCount_json u t m :
  useDatabase m = false →
  chatCount u t m = length (chats (getUserData u (userChats m)).1).
Proof.
  intros Hdb. unfold chatCount, getChats, getChatsJSON. rewrite Hdb.
  by destruct (getUserData u (userChats m)) as [d uc].
Qed.

(** C4. A name of exactly the maximum length is accepted, one character
    more is refused as a validation error: by [createChat] for a user
    below the chat limit, and by [renameChat] for a chat that exists. *)
Theorem chat_name_length_boundary cfg u now rnd t m chatName longName :
  String.length chatName = maxChatNameLength cfg →
  String.length longName = S (maxChatNameLength cfg) →
  ((chatCount u t m < maxChatsPerUser cfg)%nat →
     success (createChat cfg u chatName now rnd m).1 = true ∧
     ∃ e, (createChat cfg u longName now rnd m).1 = Fail e ∧
          e = ChatNameTooLong (maxChatNameLength cfg) ∧
          errorKind e = ValidationError) ∧
  (∀ chatId,
     is_Some (list_find (λ c, IdString (id c) = chatId)
                (chats (getUserData u (userChats m)).1)) →
     (∃ c, (renameChat cfg u chatId chatName m).1 = Ok c ∧ name c = chatName) ∧
     ∃ e, (renameChat cfg u chatId longName m).1 = Fail e ∧
          e = ChatNameTooLong (maxChatNameLength cfg) ∧
          errorKind e = ValidationError).
Proof.
  intros Hlen Hlong. split.
  - intros Hcount. unfold createChat. destruct (useDatabase m) eqn:Hdb.
    + rewrite (chatCount_db u t now) in Hcount by done.
      rewrite !createChatDB_below_limit by done.
      rewrite decide_False by lia. rewrite decide_True by lia. simpl.
      split; [|eauto].
      pose proof (getUserOrCreate_registered u DatabaseManager.no_hints now
                    (dbManager m)) as Hreg.
      pose proof (createChat_registered _ chatName
                    (getUserModel cfg u (userSettings m)).1 now _ Hreg) as Hok.
      by destruct (DatabaseManager.createChat _ _ _ _ _).1.
    + rewrite chatCount_json in Hcount by done. unfold createChatJSON.
      destruct (getUserData u (userChats m)) as [d uc]. simpl in Hcount.
      rewrite !(decide_False (P := (maxChatsPerUser cfg ≤ length (chats d))%nat)) by lia.
      rewrite (decide_False (P := (maxChatNameLength cfg < String.length chatName)%nat)) by lia.
      rewrite (decide_True (P := (maxChatNameLength cfg < String.length longName)%nat)) by lia.
      simpl.
      split; [done | eauto].
  - intros chatId [[i c] Hf]. unfold renameChat.
    destruct (getUserData u (userChats m)) as [d uc]. simpl in Hf. rewrite Hf.
    rewrite decide_False by lia. rewrite decide_True by lia. simpl.
    split; eauto.
Qed.

(** What a successful [createChat] leaves.  On the database the new
    chat is the only active chat of the user.  On the flat files the new
    chat is appended to the user's list, and it becomes the active chat
    only when it is the user's first chat; otherwise [activeChatId]
    stays what it was. *)
Lemma createChat_Ok_state cfg u chatName now rnd m c m' :
  createChat cfg u chatName now rnd m = (Ok c, m') →
  if useDatabase m then
    ∃ row, c = DbChat row ∧
      DatabaseManager.is_active row = true ∧
      row ∈ DatabaseManager.chats (dbManager m') ∧
      (∀ r, r ∈ DatabaseManager.chats (dbManager m') →
            DatabaseManager.chat_user_id r = DatabaseManager.chat_user_id row →
            DatabaseManager.is_active r = true → r = row) ∧
      ∀ t, (getActiveChat u t m').1 = Ok (DbChat row)
  else
    ∃ chat, c = JsonChat chat ∧
      let before := (getUserData u (userChats m)).1 in
      userChats m' !! u =
        Some {| chats := chats before ++ [chat];
                activeChatId :=
                  match chats before with
                  | [] => Some (id chat)
                  | _ :: _ => activeChatId before
                  end |}.
Proof.
  unfold createChat. destruct (useDatabase m) eqn:Hdb.
  - unfold createChatDB.
    destruct (getUserOrCreate_find u DatabaseManager.no_hints now (dbManager m))
      as [i Hfind].
    destruct (DatabaseManager.getUserOrCreate u _ now (dbManager m)) as [user db].
    simpl in Hfind.
    case_decide; [discriminate|]. case_decide; [discriminate|].
    destruct (getUserModel cfg u (userSettings m)) as [model us].
    destruct (DatabaseManager.createChat _ _ _ _ _) as [[row|e] db'] eqn:Hc;
      [|discriminate].
    intros [= <- <-]. exists row.
    destruct (createChat_Ok _ _ _ _ _ _ _ Hc) as (Hrow & Hcs & Hus).
    split_and!; [done | by rewrite Hrow | | |].
    + simpl. rewrite Hcs. apply elem_of_app. right. by left.
    + simpl. rewrite Hcs.
      intros r [Hr | ->%list_elem_of_singleton]%elem_of_app Hu Ha; [|done].
      apply deactivate_all_inactive in Hr; [congruence|].
      by rewrite Hu, Hrow.
    + intros t. unfold getActiveChat, getActiveChatDB. simpl. rewrite Hdb.
      rewrite (getUserOrCreate_found u _ t db' i user) by (by rewrite Hus).
      simpl. by rewrite (getActiveChat_createChat _ _ _ _ _ _ _ Hc).
  - unfold createChatJSON.
    pose proof (getUserData_lookup u (userChats m)) as Hlook.
    destruct (getUserData u (userChats m)) as [d uc]. simpl in *.
    case_decide; [discriminate|]. case_decide; [discriminate|].
    intros [= <- <-]. eexists. split; [done|]. simpl.
    rewrite lookup_insert_eq. do 2 f_equal.
    rewrite length_app. simpl.
    destruct (chats d) as [|c0 cs]; simpl; [done|].
    rewrite decide_False by lia. done.
Qed.

End CreateChat.

(** ** Listing chats *)

Section ListChats.
Import Config ChatManager ChatStore.

Lemma filter_user_deactivate_all userId cs :
  filter (λ c, DatabaseManager.chat_user_id c = userId)
    (DatabaseManager.deactivate_all userId cs) =
  DatabaseManager.deactivate <$>
    filter (λ c, DatabaseManager.chat_user_id c = userId) cs.
Proof.
  induction cs as [|c cs IH]; [done|].
  unfold DatabaseManager.deactivate_all in *.
  rewrite fmap_cons, !filter_cons, IH.
  destruct (decide (DatabaseManager.chat_user_id c = userId)) as [Hc|Hc].
  - by rewrite decide_True by done.
  - by rewrite decide_False by done.
Qed.

(** [createChatDB] for a user below the limit and a name that fits. *)
Lemma createChatDB_ok cfg u chatName now m :
  let user := (DatabaseManager.getUserOrCreate u DatabaseManager.no_hints now
                 (dbManager m)).1 in
  let db := (DatabaseManager.getUserOrCreate u DatabaseManager.no_hints now
               (dbManager m)).2 in
  let row :=
    {| DatabaseManager.id := DatabaseManager.chats_seq db + 1;
       DatabaseManager.chat_user_id := DatabaseManager.user_id user;
       DatabaseManager.name := chatName;
       DatabaseManager.model := (getUserModel cfg u (userSettings m)).1;
       DatabaseManager.is_active := true;
       DatabaseManager.message_count := 0;
       DatabaseManager.created_at := now;
       DatabaseManager.updated_at := now |} in
  (length (DatabaseManager.getUserChats (DatabaseManager.user_id user) db)
     < maxChatsPerUser cfg)%nat →
  (String.length chatName ≤ maxChatNameLength cfg)%nat →
  createChatDB cfg u chatName now m =
    (Ok (DbChat row),
     with_db m (getUserModel cfg u (userSettings m)).2
       (DatabaseManager.with_chats db
          (DatabaseManager.deactivate_all (DatabaseManager.user_id user)
             (DatabaseManager.chats db) ++ [row])
          (DatabaseManager.chats_seq db + 1))).
Proof.
  intros user db row Hlim Hlen.
  rewrite createChatDB_below_limit by done.
  rewrite decide_False by lia. unfold DatabaseManager.createChat.
  rewrite decide_True; [done|].
  apply getUserOrCreate_registered.
Qed.

(** [createChatJSON] for a user below the limit and a name that fits. *)
Lemma createChatJSON_appends cfg u chatName now rnd m :
  let d := (getUserData u (userChats m)).1 in
  let newChat :=
    {| id := newChatId now rnd; name := chatName;
       createdAt := now; lastUsed := now; messageCount := 0 |} in
  (length (chats d) < maxChatsPerUser cfg)%nat →
  (String.length chatName ≤ maxChatNameLength cfg)%nat →
  createChatJSON cfg u chatName now rnd m =
    (Ok (JsonChat newChat),
     with_userChats m
       (<[u := {| chats := chats d ++ [newChat];
                  activeChatId :=
                    match chats d with
                    | [] => Some (id newChat)
                    | _ :: _ => activeChatId d
                    end |}]> (getUserData u (userChats m)).2)).
Proof.
  unfold createChatJSON.
  destruct (getUserData u (userChats m)) as [d uc]. simpl. intros Hlim Hlen.
  rewrite decide_False by lia.
  rewrite (decide_False (P := (maxChatNameLength cfg < String.length chatName)%nat))
    by lia.
  do 4 f_equal. rewrite length_app. simpl.
  destruct (chats d) as [|c0 cs]; simpl; [done|].
  by rewrite decide_False by lia.
Qed.

Lemma order_by_two (a b : DatabaseManager.ChatRow) :
  DatabaseManager.updated_at a < DatabaseManager.updated_at b →
  DatabaseManager.order_by_updated_at_desc [a; b] = [b; a].
Proof.
  intros Hlt. unfold DatabaseManager.order_by_updated_at_desc. cbn.
  rewrite decide_False; [done|].
  unfold DatabaseManager.updated_desc. lia.
Qed.

(** A user without chats creates "A" and then, at a later time, "B". *)
Lemma getChats_two_chats cfg u nameA nameB t1 t2 t rndA rndB m :
  chatCount u t m = 0%nat →
  (2 ≤ maxChatsPerUser cfg)%nat →
  (String.length nameA ≤ maxChatNameLength cfg)%nat →
  (String.length nameB ≤ maxChatNameLength cfg)%nat →
  t1 < t2 →
  let m1 := (createChat cfg u nameA t1 rndA m).2 in
  let m2 := (createChat cfg u nameB t2 rndB m1).2 in
  if useDatabase m then
    ∃ a b, (getChats u t m2).1 = Ok (DbChats [b; a] (Some (DatabaseManager.id b))) ∧
      DatabaseManager.name a = nameA ∧ DatabaseManager.name b = nameB ∧
      DatabaseManager.updated_at a = t1 ∧ DatabaseManager.updated_at b = t2 ∧
      StronglySorted DatabaseManager.updated_desc [b; a]
  else
    ∃ a b, (getChats u t m2).1 = Ok (JsonChats [a; b] (Some (id a))) ∧
      name a = nameA ∧ name b = nameB ∧
      lastUsed a = t1 ∧ lastUsed b = t2 ∧
      createdAt a = t1 ∧ createdAt b = t2.
Proof.
  intros Hcount Hmax HlenA HlenB Hlt m1 m2.
  destruct (useDatabase m) eqn:Hdb.
  - (* database *)
    rewrite (chatCount_db u t t1) in Hcount by done.
    assert (createChat cfg u nameA t1 rndA m = createChatDB cfg u nameA t1 m) as HA
      by (unfold createChat; by rewrite Hdb).
    rewrite createChatDB_ok in HA by (done || lia).
    destruct (getUserOrCreate_find u DatabaseManager.no_hints t1 (dbManager m))
      as [i Hfind].
    destruct (getUserOrCreate_tables u DatabaseManager.no_hints t1 (dbManager m))
      as (Hcs & _).
    rewrite getUserChats_length in Hcount.
    apply nil_length_inv in Hcount.
    set (user := (DatabaseManager.getUserOrCreate u DatabaseManager.no_hints t1
                    (dbManager m)).1) in *.
    set (db := (DatabaseManager.getUserOrCreate u DatabaseManager.no_hints t1
                  (dbManager m)).2) in *.
    set (uid := DatabaseManager.user_id user) in *.
    set (rowA := DatabaseManager.Build_ChatRow _ uid nameA _ true 0 t1 t1) in HA.
    assert (∀ t' db', DatabaseManager.users db' = DatabaseManager.users db →
              DatabaseManager.getUserOrCreate u DatabaseManager.no_hints t' db'
              = (user, db')) as Hfound.
    { intros t' db' Hus. apply (getUserOrCreate_found _ _ _ _ i).
      by rewrite Hus. }
    assert (filter (λ c, DatabaseManager.chat_user_id c = uid)
              (DatabaseManager.chats (dbManager m1)) = [rowA]) as Hrows1.
    { subst m1. rewrite HA. simpl.
      rewrite filter_app, filter_user_deactivate_all, Hcount. simpl.
      rewrite filter_cons, decide_True by done. done. }
    assert (createChat cfg u nameB t2 rndB m1 = createChatDB cfg u nameB t2 m1) as HB.
    { unfold createChat. subst m1. rewrite HA. simpl. by rewrite Hdb. }
    assert (DatabaseManager.users (dbManager m1) = DatabaseManager.users db) as Hus1.
    { subst m1. by rewrite HA. }
    pose proof (Hfound t2 (dbManager m1) Hus1) as Hg2.
    pose proof (createChatDB_ok cfg u nameB t2 m1) as HB'.
    rewrite Hg2 in HB'. simpl in HB'. fold uid in HB'.
    rewrite getUserChats_length, Hrows1 in HB'. simpl in HB'.
    rewrite HB' in HB by lia. clear HB'.
    set (rowB := DatabaseManager.Build_ChatRow _ uid nameB _ true 0 t2 t2) in HB.
    exists (DatabaseManager.deactivate rowA), rowB.
    assert (DatabaseManager.users (dbManager m2) = DatabaseManager.users db) as Hus2.
    { subst m2. by rewrite HB. }
    assert (filter (λ c, DatabaseManager.chat_user_id c = uid)
              (DatabaseManager.chats (dbManager m2))
            = [DatabaseManager.deactivate rowA; rowB]) as Hrows2.
    { subst m2. rewrite HB. simpl.
      rewrite filter_app, filter_user_deactivate_all, Hrows1. simpl.
      rewrite filter_cons, decide_True by done. done. }
    assert (useDatabase m2 = true) as Hdb2.
    { subst m2. rewrite HB. simpl. subst m1. rewrite HA. by simpl. }
    unfold getChats, getChatsDB. rewrite Hdb2, (Hfound t _ Hus2). simpl.
    fold uid. unfold DatabaseManager.getUserChats. rewrite Hrows2.
    rewrite order_by_two by done.
    assert (DatabaseManager.getActiveChat uid (dbManager m2) = Ok rowB) as ->.
    { subst m2. rewrite HB. simpl.
      eapply (getActiveChat_createChat uid nameB _ t2 (dbManager m1)).
      unfold DatabaseManager.createChat. rewrite decide_True; [done|].
      rewrite Hus1.
      apply (getUserOrCreate_registered u DatabaseManager.no_hints t1 (dbManager m)). }
    split_and!; try done.
    repeat constructor. unfold DatabaseManager.updated_desc. simpl. lia.
  - (* flat files *)
    rewrite chatCount_json in Hcount by done.
    apply nil_length_inv in Hcount.
    assert (createChat cfg u nameA t1 rndA m = createChatJSON cfg u nameA t1 rndA m)
      as HA by (unfold createChat; by rewrite Hdb).
    rewrite createChatJSON_appends in HA by (rewrite ?Hcount; simpl; lia).
    rewrite Hcount in HA. simpl in HA.
    set (chatA := Build_Chat (newChatId t1 rndA) nameA t1 t1 0) in HA.
    set (d1 := Build_UserData [chatA] (Some (newChatId t1 rndA))) in HA.
    assert (∀ uc, getUserData u (<[u := d1]> uc) = (d1, <[u := d1]> uc)) as Hget1.
    { intros uc. unfold getUserData. by rewrite lookup_insert_eq. }
    assert (createChat cfg u nameB t2 rndB m1 = createChatJSON cfg u nameB t2 rndB m1)
      as HB.
    { unfold createChat. subst m1. rewrite HA. simpl. by rewrite Hdb. }
    pose proof (createChatJSON_appends cfg u nameB t2 rndB m1) as HB'.
    subst m1. rewrite HA in HB', HB. simpl in HB', HB.
    rewrite Hget1 in HB'. simpl in HB'. rewrite HB' in HB by lia. clear HB'.
    set (chatB := Build_Chat (newChatId t2 rndB) nameB t2 t2 0) in HB.
    exists chatA, chatB. subst m2. rewrite HA. simpl. rewrite HB.
    unfold getChats, getChatsJSON, getUserData. simpl. rewrite Hdb.
    rewrite lookup_insert_eq. by simpl.
Qed.

(** On the database the listing is sorted, latest update first, and
    holds exactly the rows of the user. *)
Lemma getChats_db_sorted u t m :
  useDatabase m = true →
  ∃ cs a, (getChats u t m).1 = Ok (DbChats cs a) ∧
    StronglySorted DatabaseManager.updated_desc cs ∧
    cs ≡ₚ filter (λ c, DatabaseManager.chat_user_id c =
                        DatabaseManager.user_id
                          (DatabaseManager.getUserOrCreate u
                             DatabaseManager.no_hints t (dbManager m)).1)
            (DatabaseManager.chats (dbManager m)).
Proof.
  intros Hdb. unfold getChats, getChatsDB. rewrite Hdb.
  destruct (getUserOrCreate_tables u DatabaseManager.no_hints t (dbManager m))
    as (Hcs & _).
  destruct (DatabaseManager.getUserOrCreate u _ t (dbManager m)) as [user db].
  simpl in *. eexists _, _. split; [done|]. rewrite <- Hcs.
  apply getUserChats_sorted.
Qed.

(** On the flat files the listing is the stored array, as it is. *)
Lemma getChats_json_stored u t m :
  useDatabase m = false →
  (getChats u t m).1 =
    Ok (JsonChats (chats (getUserData u (userChats m)).1)
          (activeChatId (getUserData u (userChats m)).1)).
Proof.
  intros Hdb. unfold getChats, getChatsJSON. rewrite Hdb.
  by destruct (getUserData u (userChats m)) as [d uc].
Qed.

(** On the flat files a new chat goes to the end of the listing,
    whenever it is created. *)
Lemma getChats_json_new_chat_last cfg u chatName now rnd t m c m' :
  useDatabase m = false →
  createChat cfg u chatName now rnd m = (Ok c, m') →
  ∃ chat a, c = JsonChat chat ∧ lastUsed chat = now ∧
    (getChats u t m').1 =
      Ok (JsonChats (chats (getUserData u (userChats m)).1 ++ [chat]) a).
Proof.
  intros Hdb. unfold createChat. rewrite Hdb. unfold createChatJSON.
  destruct (getUserData u (userChats m)) as [d uc]. simpl.
  case_decide; [discriminate|]. case_decide; [discriminate|].
  intros [= <- <-]. eexists _, _. split_and!; [done | done |].
  unfold getChats, getChatsJSON, getUserData. simpl. rewrite Hdb.
  by rewrite lookup_insert_eq.
Qed.

End ListChats.

(** ** Deleting the active chat *)

Section DeleteChat.
Import Config ChatManager ChatStore.


End DeleteChat.

(** ** The retry loop of the generation call *)

Section Retries.
Import Config Utils QwenApi Retry.

Lemma eventsFrom_last k : eventsFrom k k = [Post k].
Proof. unfold eventsFrom. by rewrite Z.sub_diag. Qed.

Lemma eventsFrom_step from k :
  from < k →
  eventsFrom from k = Post from :: Sleep (2000 * from) :: eventsFrom (from + 1) k.
Proof.
  intros Hlt. unfold eventsFrom.
  replace (k - from) with (Z.succ (k - (from + 1))) by lia.
  rewrite seqZ_cons by lia. rewrite Z.pred_succ.
  replace (Z.succ from) with (from + 1) by lia. done.
Qed.

Lemma eventsFrom_posts from k :
  from ≤ k → Z.of_nat (length (filter isPost (eventsFrom from k))) = k - from + 1.
Proof.
  intros Hle. remember (Z.to_nat (k - from)) as n eqn:Hn.
  revert from Hle Hn. induction n as [|n IH]; intros from Hle Hn.
  - replace from with k by lia. by rewrite eventsFrom_last, Z.sub_diag.
  - rewrite eventsFrom_step by lia.
    rewrite filter_cons_True by done. rewrite filter_cons_False by (by intros ?).
    simpl length. rewrite Nat2Z.inj_succ, IH by lia. lia.
Qed.

(** The loop from attempt [attempt] on, with the fuel that
    [generateComments] gives it. *)
Lemma attempts_returns text userModel chatId post retries fuel attempt :
  validateText text = None →
  1 ≤ attempt ≤ retries →
  fuel = Z.to_nat (retries - attempt + 1) →
  ∃ k, attempt ≤ k ≤ retries ∧
    (attempts fuel attempt retries text userModel chatId post).2 = eventsFrom attempt k ∧
    (∀ i, attempt ≤ i < k → ∃ e, post i = Rejects e) ∧
    ((∃ data responseText responseChatId,
        post k = Resolves data ∧
        (attempts fuel attempt retries text userModel chatId post).1
          = Some (Generated responseText responseChatId userModel)) ∨
     (k = retries ∧ ∃ e,
        post k = Rejects e ∧
        (attempts fuel attempt retries text userModel chatId post).1
          = Some (Failed (handleApiError e)))).
Proof.
  intros Hvalid. revert attempt.
  induction fuel as [|fuel IH]; intros attempt Hrange Hfuel; [lia|].
  simpl. rewrite decide_True by lia. rewrite Hvalid.
  destruct (post attempt) as [data|e] eqn:Hpost.
  - exists attempt. split; [lia|].
    destruct data as [content newChatId|s|json]; simpl;
      (split; [by rewrite eventsFrom_last|]);
      (split; [intros; lia|]); left; eauto.
  - destruct (decide (attempt = retries)) as [->|Hne].
    + exists retries. split; [lia|]. simpl.
      split; [by rewrite eventsFrom_last|]. split; [intros; lia|]. right. eauto.
    + destruct (IH (attempt + 1)) as (k & Hk & Hev & Hfail & Hres); [lia..|].
      destruct (attempts fuel (attempt + 1) retries text userModel chatId post)
        as [r evs]. simpl in *.
      exists k. split; [lia|]. split; [by rewrite eventsFrom_step, Hev by lia|].
      split; [|done].
      intros i Hi. destruct (decide (i = attempt)) as [->|]; [eauto|].
      apply Hfail. lia.
Qed.

(** C9. With [N >= 1] retries configured ([maxRetries], else the
    configured default) and a text that passes validation, the request
    is sent at most [N] times; after each failed attempt [i] before the
    last the loop waits [2000 * i] ms and tries again without
    returning; the call returns at the first attempt that succeeds,
    or, when attempt [N] fails too, with the error of that attempt. *)
Theorem generateComments_retries cfg text model chatId maxRetries post :
  let retries := orNumber maxRetries (Config.maxRetries cfg) in
  let r := generateComments cfg text model chatId maxRetries post in
  validateText text = None →
  1 ≤ retries →
  Z.of_nat (length (filter isPost r.2)) ≤ retries ∧
  ∃ k, 1 ≤ k ≤ retries ∧
    r.2 = expectedEvents k ∧
    Z.of_nat (length (filter isPost r.2)) = k ∧
    (∀ i, 1 ≤ i < k → ∃ e, post i = Rejects e) ∧
    ((∃ data responseText responseChatId,
        post k = Resolves data ∧
        r.1 = Some (Generated responseText responseChatId
                      (orString model (qwenModel cfg)))) ∨
     (k = retries ∧ ∃ e,
        post k = Rejects e ∧ r.1 = Some (Failed (handleApiError e)))).
Proof.
  intros retries r Hvalid Hretries. subst r. unfold generateComments.
  fold retries.
  destruct (attempts_returns text (orString model (qwenModel cfg)) chatId post
              retries (Z.to_nat retries) 1 Hvalid) as (k & Hk & Hev & Hfail & Hres);
    [lia | f_equal; lia |].
  assert (Z.of_nat (length (filter isPost
            (attempts (Z.to_nat retries) 1 retries text
               (orString model (qwenModel cfg)) chatId post).2)) = k) as Hposts.
  { rewrite Hev, eventsFrom_posts by lia. lia. }
  split; [lia|]. exists k. unfold expectedEvents. split_and!; try done; lia.
Qed.

End Retries.

(** ** Feedback statistics *)

Section Statistics.
Import LearningManager FeedbackStats.

Lemma records_partition fb :
  length fb = (length (ratingsOf fb) + improvementsOf fb)%nat.
Proof.
  unfold ratingsOf, improvementsOf.
  induction fb as [|f fb IH]; [done|].
  destruct f.
  - rewrite filter_cons_False by (by intros ?). simpl. f_equal. exact IH.
  - rewrite filter_cons_True by done. simpl.
    rewrite Nat.add_succ_r. f_equal. exact IH.
Qed.

Lemma countOf_cons k r rs :
  countOf k (r :: rs) = ((if decide (r = k) then 1 else 0) + countOf k rs)%nat.
Proof. unfold countOf. rewrite filter_cons. by case_decide. Qed.

(** The [forEach] loop, started from any tally: every record moves
    exactly one of the two counts, and a rating moves its own counter
    of [ratings] and no other. *)
Lemma tally_foldl fb t0 :
  let t := foldl tallyOne t0 fb in
  ratingCount t = (ratingCount t0 + length (ratingsOf fb))%nat ∧
  totalRating t = totalRating t0 + sumZ (ratingsOf fb) ∧
  tally_improvementFeedback t = (tally_improvementFeedback t0 + improvementsOf fb)%nat ∧
  ∀ k n, tally_ratings t0 !! k = Some (Count n) →
         tally_ratings t !! k = Some (Count (n + countOf k (ratingsOf fb))).
Proof.
  revert t0. induction fb as [|f fb IH]; intros t0.
  - cbn. split_and!; [lia | lia | lia |].
    intros k n Hk. by rewrite Nat.add_0_r.
  - cbn zeta. change (foldl tallyOne t0 (f :: fb))
      with (foldl tallyOne (tallyOne t0 f) fb).
    destruct (IH (tallyOne t0 f)) as (Hc & Hs & Hi & Hr).
    rewrite Hc, Hs, Hi. destruct f as [? ? r ? ?|? ? ? ? ?].
    + assert (ratingsOf (CommentRating id commentId r context timestamp :: fb)
              = r :: ratingsOf fb) as -> by done.
      assert (improvementsOf (CommentRating id commentId r context timestamp :: fb)
              = improvementsOf fb) as ->.
      { unfold improvementsOf. by rewrite filter_cons_False by (by intros ?). }
      cbn [tallyOne ratingCount totalRating tally_improvementFeedback
           tally_ratings length sumZ foldr].
      split_and!; [lia | fold (sumZ (ratingsOf fb)); lia | lia |].
      intros k n Hk.
      rewrite countOf_cons. destruct (decide (r = k)) as [->|Hne].
      * replace (n + (1 + countOf k (ratingsOf fb)))%nat
          with (S n + countOf k (ratingsOf fb))%nat by lia.
        apply Hr. cbn [tallyOne tally_ratings].
        rewrite lookup_insert_eq. by rewrite Hk.
      * apply Hr. cbn [tallyOne tally_ratings]. by rewrite lookup_insert_ne.
    + assert (ratingsOf (ImprovementFeedback id commentId feedback context timestamp :: fb)
              = ratingsOf fb) as -> by done.
      assert (improvementsOf
                (ImprovementFeedback id commentId feedback context timestamp :: fb)
              = S (improvementsOf fb)) as ->.
      { unfold improvementsOf. by rewrite filter_cons_True by done. }
      cbn [tallyOne ratingCount totalRating tally_improvementFeedback tally_ratings].
      split_and!; [lia | lia | lia |].
      intros k n Hk. by apply Hr.
Qed.

Lemma initialRatings_lookup k :
  1 ≤ k ≤ 5 → initialRatings !! k = Some (Count 0).
Proof.
  intros Hk. assert (k = 1 ∨ k = 2 ∨ k = 3 ∨ k = 4 ∨ k = 5) as Hcases by lia.
  destruct Hcases as [->|[->|[->|[->| ->]]]]; reflexivity.
Qed.

(** [tenths m e] is the multiple of one tenth nearest to [m * 2^e],
    the upper one at a tie. *)
Lemma tenths_nearest m e :
  e < 0 →
  2 * JsNumber.tenths m e * 2 ^ (- e) - 2 ^ (- e) ≤ 20 * Z.pos m
    < 2 * JsNumber.tenths m e * 2 ^ (- e) + 2 ^ (- e).
Proof.
  intros He. unfold JsNumber.tenths. rewrite decide_False by lia.
  replace (1 - e) with (Z.succ (- e)) by lia.
  rewrite Z.pow_succ_r by lia.
  assert (0 < 2 ^ (- e)) as Hpos by (apply Z.pow_pos_nonneg; lia).
  pose proof (Z.div_mod (20 * Z.pos m + 2 ^ (- e)) (2 * 2 ^ (- e))) as Hdm.
  pose proof (Z.mod_pos_bound (20 * Z.pos m + 2 ^ (- e)) (2 * 2 ^ (- e))) as Hb.
  nia.
Qed.

(** The rounding is that of the binary64 quotient: 5/4 is a tie and goes
    up, while the quotient of 23/20 lies just below 1.15 and goes down. *)
Lemma toFixed1_of_quotients :
  JsNumber.toFixed1 (JsNumber.div (JsNumber.of_Z 5) (JsNumber.of_Z 4)) = "1.3" ∧
  JsNumber.toFixed1 (JsNumber.div (JsNumber.of_Z 23) (JsNumber.of_Z 20)) = "1.1" ∧
  JsNumber.toFixed1 (JsNumber.div (JsNumber.of_Z 14) (JsNumber.of_Z 3)) = "4.7".
Proof. split_and!; vm_compute; reflexivity. Qed.

(** C6. One rating of 3 for a user without feedback gives the
    statistics of the scenario.  In general every stored record is
    counted once: in the total, and either under its rating or as an
    improvement request; the average is the number 0 when there is no
    rating, and else it is taken over the rating-kind records only and
    written with one decimal by [toFixed(1)].  The latter is stated for
    ratings that the code sums without rounding: integers whose absolute
    values add up to at most [2^53], which keeps the average below the
    [10^21] from which [toFixed] changes to exponent notation.  Saving
    appends exactly the new record to the feedback of that user.  The
    decimal that [toFixed(1)] writes for [m * 2^e] is the nearest
    multiple of one tenth, the upper one at a tie. *)
Theorem getUserFeedbackStats_counts :
  (∀ u commentId context now rnd m,
     userFeedback u (feedbackCache m) = [] →
     getUserFeedbackStats u
       (saveCommentRatingJSON u commentId 3 context now rnd m).2 =
     {| totalFeedback := 1;
        ratings := {[ 1 := Count 0; 2 := Count 0; 3 := Count 1;
                      4 := Count 0; 5 := Count 0 ]};
        improvementFeedback := 0;
        averageRating := AverageFixed "3.0" |}) ∧
  (∀ u m,
     let fb := userFeedback u (feedbackCache m) in
     let s := getUserFeedbackStats u m in
     totalFeedback s = length fb ∧
     totalFeedback s = (length (ratingsOf fb) + improvementFeedback s)%nat ∧
     improvementFeedback s = improvementsOf fb ∧
     (∀ k, 1 ≤ k ≤ 5 →
           ratings s !! k = Some (Count (countOf k (ratingsOf fb)))) ∧
     (ratingsOf fb = [] → averageRating s = AverageZero) ∧
     (ratingsOf fb ≠ [] → exactly_summed (ratingsOf fb) →
      averageRating s =
        AverageFixed
          (JsNumber.toFixed1
             (JsNumber.div (JsNumber.of_Z (sumZ (ratingsOf fb)))
                (JsNumber.of_Z (Z.of_nat (length (ratingsOf fb)))))))) ∧
  (∀ u commentId rating context now rnd m,
     let m' := (saveCommentRatingJSON u commentId rating context now rnd m).2 in
     userFeedback u (feedbackCache m') =
       userFeedback u (feedbackCache m) ++
         [CommentRating (newFeedbackId now rnd) commentId rating context now] ∧
     ∀ u', u' ≠ u → userFeedback u' (feedbackCache m') = userFeedback u' (feedbackCache m)) ∧
  (∀ u commentId feedback context now rnd m,
     let m' := (saveImprovementFeedback u commentId feedback context now rnd m).2 in
     userFeedback u (feedbackCache m') =
       userFeedback u (feedbackCache m) ++
         [ImprovementFeedback (newFeedbackId now rnd) commentId feedback context now] ∧
     ∀ u', u' ≠ u → userFeedback u' (feedbackCache m') = userFeedback u' (feedbackCache m)) ∧
  (∀ m e,
     (0 ≤ e → JsNumber.tenths m e = 10 * Z.pos m * 2 ^ e) ∧
     (e < 0 →
        2 * JsNumber.tenths m e * 2 ^ (- e) - 2 ^ (- e) ≤ 20 * Z.pos m
          < 2 * JsNumber.tenths m e * 2 ^ (- e) + 2 ^ (- e))).
Proof.
  split_and!; [| | | |intros m e; split;
                       [intros He; unfold JsNumber.tenths; by rewrite decide_True
                       |apply tenths_nearest]].
  - intros u commentId context now rnd m Hnone.
    assert (userFeedback u
              (feedbackCache (saveCommentRatingJSON u commentId 3 context now rnd m).2)
            = [CommentRating (newFeedbackId now rnd) commentId 3 context now]) as Hfb.
    { simpl. unfold userFeedback at 1. rewrite lookup_insert_eq. simpl.
      by rewrite Hnone. }
    unfold getUserFeedbackStats. rewrite Hfb. reflexivity.
  - intros u m fb s. subst s. unfold getUserFeedbackStats. fold fb. simpl.
    destruct (tally_foldl fb initialTally) as (Hc & Hs & Hi & Hr).
    simpl in Hc, Hs, Hi. split_and!.
    + done.
    + rewrite Hi. apply records_partition.
    + by rewrite Hi.
    + intros k Hk. rewrite (Hr k 0%nat); [done|].
      by apply initialRatings_lookup.
    + intros Hnone. rewrite Hc, Hnone. done.
    + intros Hsome _. rewrite Hc, Hs. destruct (ratingsOf fb) as [|r rs]; [done|].
      simpl length. rewrite decide_True by lia. done.
  - intros u commentId rating context now rnd m. simpl. split.
    + unfold userFeedback at 1. by rewrite lookup_insert_eq.
    + intros u' Hne. unfold userFeedback. by rewrite lookup_insert_ne.
  - intros u commentId feedback context now rnd m. simpl. split.
    + unfold userFeedback at 1. by rewrite lookup_insert_eq.
    + intros u' Hne. unfold userFeedback. by rewrite lookup_insert_ne.
Qed.

End Statistics.

(** ** Concrete runs *)

Section Runs.
Import Config ChatManager ChatStore Scenario.

(** C1 fails on the code.  On the database a successful [createChat]
    makes the new chat the only active chat of the user, in every state:
    the chats the user had are deactivated, then the new row is inserted
    active.  On the flat files [createChatJSON] sets [activeChatId] only
    when the new chat is the user's first one: for a user who has a chat
    the new chat is appended and the active chat stays what it was.  So
    after "A" and then "B" the flat files still give "A" as the active
    chat, where the database, on the same calls, gives "B" and has
    deactivated "A". *)
Theorem createChat_flat_files_keep_active_chat :
  (∀ cfg u chatName now rnd m c m',
     useDatabase m = true →
     createChat cfg u chatName now rnd m = (Ok c, m') →
     ∃ row, c = DbChat row ∧
       DatabaseManager.is_active row = true ∧
       row ∈ DatabaseManager.chats (dbManager m') ∧
       (∀ r, r ∈ DatabaseManager.chats (dbManager m') →
             DatabaseManager.chat_user_id r = DatabaseManager.chat_user_id row →
             DatabaseManager.is_active r = true → r = row) ∧
       ∀ t, (getActiveChat u t m').1 = Ok (DbChat row)) ∧
  (∀ cfg u chatName now rnd m c m',
     useDatabase m = false →
     createChat cfg u chatName now rnd m = (Ok c, m') →
     ∃ chat, c = JsonChat chat ∧
       let before := (getUserData u (userChats m)).1 in
       userChats m' !! u =
         Some {| chats := chats before ++ [chat];
                 activeChatId :=
                   match chats before with
                   | [] => Some (id chat)
                   | _ :: _ => activeChatId before
                   end |}) ∧
  (createChat Config.default alice "B" 2000 "b" flatA = (Ok (JsonChat chatB), flatAB) ∧
   (getActiveChat alice 2001 flatAB).1 = Ok (JsonChat chatA) ∧
   (getActiveChat alice 2001 flatAB).1 ≠ Ok (JsonChat chatB)) ∧
  (∃ rowB,
     createChat Config.default alice "B" 2000 "b" dbA = (Ok (DbChat rowB), dbAB) ∧
     DatabaseManager.name rowB = "B" ∧
     DatabaseManager.chats (dbManager dbA) = [rowA] ∧
     DatabaseManager.chats (dbManager dbAB) = [DatabaseManager.deactivate rowA; rowB] ∧
     (getActiveChat alice 2001 dbAB).1 = Ok (DbChat rowB)).
Proof.
  split_and!.
  - intros cfg u chatName now rnd m c m' Hdb Hc.
    pose proof (createChat_Ok_state cfg u chatName now rnd m c m' Hc) as H.
    by rewrite Hdb in H.
  - intros cfg u chatName now rnd m c m' Hdb Hc.
    pose proof (createChat_Ok_state cfg u chatName now rnd m c m' Hc) as H.
    by rewrite Hdb in H.
  - vm_compute. reflexivity.
  - vm_compute. reflexivity.
  - vm_compute. discriminate.
  - eexists. split_and!.
    + vm_compute. reflexivity.
    + reflexivity.
    + vm_compute. reflexivity.
    + vm_compute. reflexivity.
    + vm_compute. reflexivity.
Qed.

Lemma createChat_at_limit_witness :
  let r := createChat small alice "C" 3000 "c" flatAB in
  (∃ e, r.1 = Fail e ∧ e = ChatLimitReached 2 ∧ errorKind e = LimitExceeded) ∧
  (∀ t', (getChats alice t' r.2).1 = (getChats alice t' flatAB).1 ∧
         (getActiveChat alice t' r.2).1 = (getActiveChat alice t' flatAB).1) ∧
  DatabaseManager.chats (dbManager r.2) = DatabaseManager.chats (dbManager flatAB) ∧
  (getUserData alice (userChats r.2)).1 = (getUserData alice (userChats flatAB)).1 ∧
  ∀ u', u' ≠ alice → userChats r.2 !! u' = userChats flatAB !! u'.
Proof.
  apply (createChat_at_limit small alice "C" 3000 "c" 0 flatAB).
  vm_compute. lia.
Defined.

Lemma chat_name_length_boundary_witness :
  ((chatCount alice 0 flatA < 2)%nat →
     success (createChat small alice "abc" 2000 "b" flatA).1 = true ∧
     ∃ e, (createChat small alice "abcd" 2000 "b" flatA).1 = Fail e ∧
          e = ChatNameTooLong 3 ∧ errorKind e = ValidationError) ∧
  (∀ chatId,
     is_Some (list_find (λ c, IdString (id c) = chatId)
                (chats (getUserData alice (userChats flatA)).1)) →
     (∃ c, (renameChat small alice chatId "abc" flatA).1 = Ok c ∧ name c = "abc") ∧
     ∃ e, (renameChat small alice chatId "abcd" flatA).1 = Fail e ∧
          e = ChatNameTooLong 3 ∧ errorKind e = ValidationError).
Proof.
  apply (chat_name_length_boundary small alice 2000 "b" 0 flatA "abc" "abcd");
    reflexivity.
Defined.




(** C8 fails on the code.  The database lists the chats of a user by
    [updated_at], latest first: on every table the managers wrote the
    listing is sorted and holds exactly the rows of the user.  The flat
    files are never sorted: [getChatsJSON] returns the stored array, and
    a new chat goes to its end whenever it is created.  So a user
    without chats who creates "A" and then, later, "B" is shown B, A by
    the database and A, B by the flat files, the chat used last coming
    last. *)
Theorem getChats_flat_files_not_sorted :
  (∀ u t m,
     useDatabase m = true →
     rtc DatabaseInvariant.step DatabaseManager.empty (dbManager m) →
     ∃ cs a, (getChats u t m).1 = Ok (DbChats cs a) ∧
       StronglySorted DatabaseManager.updated_desc cs ∧
       cs ≡ₚ filter (λ c, DatabaseManager.chat_user_id c =
                           DatabaseManager.user_id
                             (DatabaseManager.getUserOrCreate u
                                DatabaseManager.no_hints t (dbManager m)).1)
               (DatabaseManager.chats (dbManager m))) ∧
  (∀ cfg u chatName now rnd t m c m',
     useDatabase m = false →
     createChat cfg u chatName now rnd m = (Ok c, m') →
     ∃ chat a, c = JsonChat chat ∧ lastUsed chat = now ∧
       (getChats u t m').1 =
         Ok (JsonChats (chats (getUserData u (userChats m)).1 ++ [chat]) a)) ∧
  (∀ cfg u nameA nameB t1 t2 t rndA rndB m,
     chatCount u t m = 0%nat →
     (2 ≤ maxChatsPerUser cfg)%nat →
     (String.length nameA ≤ maxChatNameLength cfg)%nat →
     (String.length nameB ≤ maxChatNameLength cfg)%nat →
     t1 < t2 →
     let m1 := (createChat cfg u nameA t1 rndA m).2 in
     let m2 := (createChat cfg u nameB t2 rndB m1).2 in
     if useDatabase m then
       ∃ a b,
         (getChats u t m2).1 = Ok (DbChats [b; a] (Some (DatabaseManager.id b))) ∧
         DatabaseManager.name a = nameA ∧ DatabaseManager.name b = nameB ∧
         DatabaseManager.updated_at a = t1 ∧ DatabaseManager.updated_at b = t2
     else
       ∃ a b, (getChats u t m2).1 = Ok (JsonChats [a; b] (Some (id a))) ∧
         name a = nameA ∧ name b = nameB ∧
         lastUsed a = t1 ∧ lastUsed b = t2 ∧
         ¬ recent_first [a; b]) ∧
  ((getChats alice 2001 flatAB).1
     = Ok (JsonChats [chatA; chatB] (Some (id chatA))) ∧
   lastUsed chatA < lastUsed chatB ∧
   ¬ recent_first [chatA; chatB]) ∧
  (∃ a b, (getChats alice 2001 dbAB).1
            = Ok (DbChats [b; a] (Some (DatabaseManager.id b))) ∧
     DatabaseManager.name a = "A" ∧ DatabaseManager.name b = "B" ∧
     DatabaseManager.updated_at a = 1000 ∧ DatabaseManager.updated_at b = 2000).
Proof.
  assert (∀ a b : Chat, lastUsed a < lastUsed b → ¬ recent_first [a; b]) as Hnot.
  { intros a b Hlt Hs. apply StronglySorted_inv in Hs as [_ Hall].
    apply Forall_cons in Hall as [Hle _]. simpl in Hle. lia. }
  split_and!.
  - intros u t m Hdb _. by apply getChats_db_sorted.
  - intros cfg u chatName now rnd t m c m'.
    apply getChats_json_new_chat_last.
  - intros cfg u nameA nameB t1 t2 t rndA rndB m Hcount Hmax HlenA HlenB Hlt.
    pose proof (getChats_two_chats cfg u nameA nameB t1 t2 t rndA rndB m
                  Hcount Hmax HlenA HlenB Hlt) as H.
    simpl in H. simpl. destruct (useDatabase m).
    + destruct H as (a & b & H1 & H2 & H3 & H4 & H5 & _). exists a, b.
      by split_and!.
    + destruct H as (a & b & H1 & H2 & H3 & H4 & H5 & _). exists a, b.
      split_and!; try done. apply Hnot. lia.
  - vm_compute. reflexivity.
  - vm_compute. reflexivity.
  - apply Hnot. vm_compute. reflexivity.
  - pose proof (getChats_two_chats Config.default alice "A" "B" 1000 2000 2001
                  "a" "b" (initial true)) as H.
    simpl in H.
    destruct H as (a & b & H1 & H2 & H3 & H4 & H5 & _);
      [reflexivity | vm_compute; lia | vm_compute; lia | vm_compute; lia | lia |].
    exists a, b. by split_and!.
Qed.

Lemma activeChatId_never_dangles_witness :
  ∃ c, c ∈ [chatA; chatB] ∧ id c = id chatA.
Proof.
  apply (activeChatId_never_dangles Config.default false flatAB_afterC alice
           {| chats := [chatA; chatB]; activeChatId := Some (id chatA) |}).
  - eapply rtc_l; [apply (step_createChat _ alice "A" 1000 "a")|].
    eapply rtc_l; [apply (step_createChat _ alice "B" 2000 "b")|].
    eapply rtc_l; [apply (step_createChat _ alice "C" 3000 "c")|].
    eapply rtc_l;
      [apply (step_selectChat _ alice (IdString (newChatId 3000 "c")) 4000)|].
    eapply rtc_l;
      [apply (step_deleteChat _ alice (IdString (newChatId 3000 "c")))|].
    apply rtc_refl.
  - vm_compute. reflexivity.
Defined.

(** C2 fails on the code. [renameChat] and [deleteChat] never touch the
    database.  With the database in use, the chat that [getChats] lists
    can be neither renamed nor deleted: both calls answer "not found"
    and the chat is still listed; on the flat files the same calls
    succeed.  Likewise a rating saved with the database in use goes
    into the [feedback] table, and [getUserFeedbackStats], which reads
    the flat-file cache, still reports nothing. *)
Theorem renameChat_deleteChat_bypass_database :
  (∀ cfg u chatId newName m,
     dbManager (renameChat cfg u chatId newName m).2 = dbManager m) ∧
  (∀ u chatId m, dbManager (deleteChat u chatId m).2 = dbManager m) ∧
  ((getChats alice 1001 dbA).1 = Ok (DbChats [rowA] (Some 1)) ∧
   (renameChat Config.default alice (IdNumber 1) "B" dbA).1 = Fail ChatNotFound ∧
   (deleteChat alice (IdNumber 1) dbA).1 = Fail ChatNotFound ∧
   (getChats alice 1002 (deleteChat alice (IdNumber 1) dbA).2).1
     = Ok (DbChats [rowA] (Some 1))) ∧
  ((getChats alice 1001 flatA).1 = Ok (JsonChats [chatA] (Some (id chatA))) ∧
   success (renameChat Config.default alice (IdString (id chatA)) "B" flatA).1 = true ∧
   (deleteChat alice (IdString (id chatA)) flatA).1 = Ok chatA ∧
   (getChats alice 1002 (deleteChat alice (IdString (id chatA)) flatA).2).1
     = Ok (JsonChats [] None)) ∧
  (let r := LearningManager.saveCommentRating alice "comment_1" 3 "{}" 1000 "x"
              (LearningManager.initial true) in
   r.1 = Ok (LearningManager.SavedRow 1) ∧
   length (DatabaseManager.feedback (LearningManager.dbManager r.2)) = 1%nat ∧
   LearningManager.totalFeedback (LearningManager.getUserFeedbackStats alice r.2)
     = 0%nat).
Proof.
  split_and!.
  - intros cfg u chatId newName m. unfold renameChat.
    destruct (getUserData u (userChats m)) as [d uc].
    destruct (list_find _ (chats d)) as [[i c]|]; [|done].
    by case_decide.
  - intros u chatId m. unfold deleteChat.
    destruct (getUserData u (userChats m)) as [d uc].
    by destruct (list_find _ (chats d)) as [[i c]|].
  - vm_compute. reflexivity.
  - vm_compute. reflexivity.
  - vm_compute. reflexivity.
  - vm_compute. reflexivity.
  - vm_compute. reflexivity.
  - vm_compute. reflexivity.
  - vm_compute. reflexivity.
  - vm_compute. reflexivity.
  - vm_compute. split_and!; reflexivity.
Qed.

(** The database refuses a rating outside 1..5 and stores nothing. *)
Lemma saveCommentRatingDB_out_of_range u commentId rating context now m :
  ¬ (1 ≤ rating ≤ 5) →
  let r := LearningManager.saveCommentRatingDB u commentId rating context now m in
  r.1 = Fail (SqliteError CheckConstraintFailed) ∧
  errorKind (SqliteError CheckConstraintFailed) = ValidationError ∧
  DatabaseManager.feedback (LearningManager.dbManager r.2)
    = DatabaseManager.feedback (LearningManager.dbManager m).
Proof.
  intros Hr. unfold LearningManager.saveCommentRatingDB.
  destruct (getUserOrCreate_tables u DatabaseManager.no_hints now
              (LearningManager.dbManager m)) as (_ & _ & Hf & _).
  destruct (DatabaseManager.getUserOrCreate u _ now _) as [user db].
  unfold DatabaseManager.saveFeedback.
  rewrite decide_False by (simpl; lia). simpl in *. done.
Qed.

(** C5 fails on the flat files. [saveCommentRatingJSON] stores whatever
    rating it is given and reports success; a rating of 7 ends up in
    the store, and in the statistics as a [NaN] counter.  The database
    refuses the same call and stores nothing. *)
Theorem saveCommentRating_flat_files_unchecked :
  (∀ u commentId rating context now rnd m,
     let r := LearningManager.saveCommentRatingJSON u commentId rating context
                now rnd m in
     let f := LearningManager.CommentRating
                (LearningManager.newFeedbackId now rnd) commentId rating context now in
     r.1 = Ok (LearningManager.SavedJson f) ∧
     f ∈ LearningManager.userFeedback u (LearningManager.feedbackCache r.2)) ∧
  (let r := LearningManager.saveCommentRating alice "comment_1" 7 "{}" 1000 "x"
              (LearningManager.initial false) in
   let f := LearningManager.CommentRating "feedback_1000_x" "comment_1" 7 "{}" 1000 in
   r.1 = Ok (LearningManager.SavedJson f) ∧
   LearningManager.feedbackCache r.2 !! alice = Some [f] ∧
   LearningManager.ratings (LearningManager.getUserFeedbackStats alice r.2) !! 7
     = Some LearningManager.NaN) ∧
  (let r := LearningManager.saveCommentRating alice "comment_1" 7 "{}" 1000 "x"
              (LearningManager.initial true) in
   r.1 = Fail (SqliteError CheckConstraintFailed) ∧
   DatabaseManager.feedback (LearningManager.dbManager r.2) = []).
Proof.
  split_and!.
  - intros u commentId rating context now rnd m. simpl. split; [done|].
    unfold LearningManager.userFeedback at 1. rewrite lookup_insert_eq. simpl.
    apply elem_of_app. right. by left.
  - vm_compute. split_and!; reflexivity.
  - vm_compute. split_and!; reflexivity.
Qed.

Lemma getUserFeedbackStats_counts_witness :
  LearningManager.getUserFeedbackStats alice
    (LearningManager.saveCommentRatingJSON alice "comment_1" 3 "{}" 1000 "x"
       (LearningManager.initial false)).2 =
  {| LearningManager.totalFeedback := 1;
     LearningManager.ratings :=
       {[ 1 := LearningManager.Count 0; 2 := LearningManager.Count 0;
          3 := LearningManager.Count 1; 4 := LearningManager.Count 0;
          5 := LearningManager.Count 0 ]};
     LearningManager.improvementFeedback := 0;
     LearningManager.averageRating := LearningManager.AverageFixed "3.0" |} ∧
  FeedbackStats.ratingsOf
    (LearningManager.userFeedback alice (LearningManager.feedbackCache ratedTwice))
    = [4; 5] ∧
  LearningManager.averageRating (LearningManager.getUserFeedbackStats alice ratedTwice)
    = LearningManager.AverageFixed "4.5".
Proof.
  split_and!.
  - apply (proj1 getUserFeedbackStats_counts alice "comment_1" "{}" 1000 "x"
             (LearningManager.initial false)).
    reflexivity.
  - vm_compute. reflexivity.
  - pose proof (proj1 (proj2 getUserFeedbackStats_counts) alice ratedTwice) as H.
    cbv zeta in H. destruct H as (_ & _ & _ & _ & _ & H).
    rewrite H.
    + vm_compute. reflexivity.
    + vm_compute. discriminate.
    + vm_compute. split; discriminate.
Defined.

(** With the default configuration and three failing requests: three
    attempts, waits of 2 s and 4 s, and the error of the third. *)
Lemma generateComments_default_three_attempts :
  QwenApi.generateComments Config.default (Some "post") None None None failing =
  (Some (QwenApi.Failed
           {| Utils.error := "Превышен лимит запросов";
              Utils.code := "RATE_LIMIT" |}),
   [QwenApi.Post 1; QwenApi.Sleep 2000; QwenApi.Post 2; QwenApi.Sleep 4000;
    QwenApi.Post 3]).
Proof. vm_compute. reflexivity. Qed.

Lemma generateComments_retries_witness :
  let r := QwenApi.generateComments Config.default (Some "post") None None None
             failing in
  Z.of_nat (length (filter QwenApi.isPost r.2)) ≤ 3 ∧
  ∃ k, 1 ≤ k ≤ 3 ∧
    r.2 = Retry.expectedEvents k ∧
    Z.of_nat (length (filter QwenApi.isPost r.2)) = k ∧
    (∀ i, 1 ≤ i < k → ∃ e, failing i = QwenApi.Rejects e) ∧
    ((∃ data responseText responseChatId,
        failing k = QwenApi.Resolves data ∧
        r.1 = Some (QwenApi.Generated responseText responseChatId
                      "qwen-max-latest")) ∨
     (k = 3 ∧ ∃ e,
        failing k = QwenApi.Rejects e ∧
        r.1 = Some (QwenApi.Failed (Utils.handleApiError e)))).
Proof.
  apply (generateComments_retries Config.default (Some "post") None None None failing).
  - reflexivity.
  - vm_compute. discriminate.
Defined.

End Runs.

(** * Further properties *)

(** ** What the database keeps true *)

Section DatabaseInvariants.
Import DatabaseManager DatabaseInvariant.

Lemma foldr_max_ge (us : list UserRow) x0 :
  x0 ≤ foldr (λ u' acc, Z.max (user_id u') acc) x0 us ∧
  ∀ u, u ∈ us → user_id u ≤ foldr (λ u' acc, Z.max (user_id u') acc) x0 us.
Proof.
  induction us as [|v us [IH0 IH]]; simpl.
  - split; [lia|]. intros u Hu. by apply elem_of_nil in Hu.
  - split; [lia|]. intros u [->|Hu]%elem_of_cons; [lia|].
    specialize (IH u Hu). lia.
Qed.

Lemma next_user_id_fresh us u : u ∈ us → user_id u < next_user_id us.
Proof.
  destruct us as [|v us]; [by intros ?%elem_of_nil|].
  unfold next_user_id. destruct (foldr_max_ge us (user_id v)) as [H0 H].
  intros [->|Hu]%elem_of_cons; [lia|]. specialize (H u Hu). lia.
Qed.

Lemma deactivate_all_ids userId cs :
  id <$> deactivate_all userId cs = id <$> cs.
Proof.
  unfold deactivate_all. rewrite <- list_fmap_compose.
  apply list_fmap_ext. intros i c _. simpl. by case_decide.
Qed.

Lemma deactivate_all_users userId cs :
  chat_user_id <$> deactivate_all userId cs = chat_user_id <$> cs.
Proof.
  unfold deactivate_all. rewrite <- list_fmap_compose.
  apply list_fmap_ext. intros i c _. simpl. by case_decide.
Qed.

Lemma activate_ids chatId userId now (cs : list ChatRow) :
  id <$> (ChatSelect.activate chatId userId now <$> cs) = id <$> cs.
Proof.
  rewrite <- list_fmap_compose.
  apply list_fmap_ext. intros i c _. simpl. unfold ChatSelect.activate.
  by case_decide.
Qed.

Lemma activate_users chatId userId now (cs : list ChatRow) :
  chat_user_id <$> (ChatSelect.activate chatId userId now <$> cs)
  = chat_user_id <$> cs.
Proof.
  rewrite <- list_fmap_compose.
  apply list_fmap_ext. intros i c _. simpl. unfold ChatSelect.activate.
  by case_decide.
Qed.

(** A property of the ids, or of the owners, of the rows carries over to
    a table with the same ids and owners. *)
Lemma rows_same_keys (cs cs' : list ChatRow) (P : Z → Z → Prop) :
  id <$> cs' = id <$> cs →
  chat_user_id <$> cs' = chat_user_id <$> cs →
  (∀ c, c ∈ cs → P (id c) (chat_user_id c)) →
  ∀ c, c ∈ cs' → P (id c) (chat_user_id c).
Proof.
  intros Hid Hu HP c (i & Hi)%list_elem_of_lookup.
  assert ((id <$> cs') !! i = Some (id c)) as H1 by (by rewrite list_lookup_fmap, Hi).
  assert ((chat_user_id <$> cs') !! i = Some (chat_user_id c)) as H2
    by (by rewrite list_lookup_fmap, Hi).
  rewrite Hid, list_lookup_fmap in H1. rewrite Hu, list_lookup_fmap in H2.
  destruct (cs !! i) as [c0|] eqn:Hc0; [|done].
  simpl in H1, H2. injection H1 as <-. injection H2 as <-.
  apply HP. by eapply list_elem_of_lookup_2.
Qed.

Lemma constraints_empty : constraints empty.
Proof.
  split; simpl; try apply NoDup_nil_2; by intros ? ?%elem_of_nil.
Qed.

Lemma constraints_same_keys db cs :
  id <$> cs = id <$> chats db →
  chat_user_id <$> cs = chat_user_id <$> chats db →
  constraints db → constraints (with_chats db cs (chats_seq db)).
Proof.
  intros Hid Hu [].
  split; simpl; try done.
  - by rewrite Hid.
  - apply (rows_same_keys (chats db) cs (λ i _, i ≤ chats_seq db)); done.
  - apply (rows_same_keys (chats db) cs (λ _ u, u ∈ user_id <$> users db)); done.
Qed.

Lemma step_constraints db db' : step db db' → constraints db → constraints db'.
Proof.
  intros Hstep Hc. destruct Hstep.
  - (* getUserOrCreate *)
    unfold getUserOrCreate.
    destruct (list_find _ (users db)) as [[i user]|] eqn:Hf; [done|].
    destruct Hc. split; simpl; try done.
    + rewrite fmap_app. apply NoDup_app. split_and!; [done| |apply NoDup_singleton].
      intros x (u & -> & Hu)%list_elem_of_fmap Heq%list_elem_of_singleton.
      apply next_user_id_fresh in Hu. simpl in *. lia.
    + rewrite fmap_app. apply NoDup_app. split_and!; [done| |apply NoDup_singleton].
      intros x (u & -> & Hu)%list_elem_of_fmap Heq%list_elem_of_singleton.
      apply list_find_None in Hf. rewrite Forall_forall in Hf.
      by apply (Hf u).
    + intros c Hin. rewrite fmap_app. apply elem_of_app. left. by apply chat_users_exist0.
    + intros f Hin. rewrite fmap_app. apply elem_of_app. left.
      by apply feedback_users_exist0.
  - (* createChat *)
    unfold createChat. case_decide as Hex.
    + pose proof (constraints_same_keys db (deactivate_all userId (chats db))
                    (deactivate_all_ids _ _) (deactivate_all_users _ _) Hc) as [].
      simpl in *. split; simpl; try done.
      * rewrite fmap_app. apply NoDup_app. split_and!; [done| |apply NoDup_singleton].
        intros x (c & -> & Hin)%list_elem_of_fmap Heq%list_elem_of_singleton.
        apply chat_ids_issued0 in Hin. simpl in *. lia.
      * intros c [Hin | ->%list_elem_of_singleton]%elem_of_app.
        -- apply chat_ids_issued0 in Hin. lia.
        -- simpl. lia.
      * intros c [Hin | ->%list_elem_of_singleton]%elem_of_app.
        -- by apply chat_users_exist0.
        -- simpl. apply Exists_exists in Hex as (u & Hu & <-).
           by apply list_elem_of_fmap_2.
    + apply constraints_same_keys;
        [apply deactivate_all_ids | apply deactivate_all_users | done].
  - (* setActiveChat *)
    apply constraints_same_keys; [| |done].
    + by rewrite activate_ids, deactivate_all_ids.
    + by rewrite activate_users, deactivate_all_users.
  - (* saveFeedback *)
    unfold saveFeedback. case_decide as Hr; [|done]. case_decide as Hex; [|done].
    destruct Hc. split; simpl; try done.
    + rewrite fmap_app. apply NoDup_app. split_and!; [done| |apply NoDup_singleton].
      intros x (f & -> & Hin)%list_elem_of_fmap Heq%list_elem_of_singleton.
      apply feedback_ids_issued0 in Hin. simpl in *. lia.
    + intros f [Hin | ->%list_elem_of_singleton]%elem_of_app.
      * apply feedback_ids_issued0 in Hin. lia.
      * simpl. lia.
    + intros f [Hin | ->%list_elem_of_singleton]%elem_of_app.
      * by apply feedback_users_exist0.
      * simpl. apply Exists_exists in Hex as (u & Hu & <-).
        by apply list_elem_of_fmap_2.
    + intros f [Hin | ->%list_elem_of_singleton]%elem_of_app.
      * by apply ratings_in_range0.
      * done.
Qed.

Lemma steps_constraints db db' : rtc step db db' → constraints db → constraints db'.
Proof. induction 1; eauto using step_constraints. Qed.

Lemma filter_by_absent_id (cs : list ChatRow) (Q : ChatRow → Prop)
    `{!∀ c, Decision (Q c)} k :
  k ∉ id <$> cs → filter (λ x, id x = k ∧ Q x) cs = [].
Proof.
  induction cs as [|z cs IH]; [done|].
  rewrite fmap_cons. intros [Hne Hk]%not_elem_of_cons.
  rewrite filter_cons, decide_False by (intros [? _]; congruence).
  by apply IH.
Qed.

(** In a table with distinct ids, the rows with the id of a given row
    that also satisfy what it satisfies are that row alone. *)
Lemma filter_by_id (cs : list ChatRow) (Q : ChatRow → Prop)
    `{!∀ c, Decision (Q c)} c :
  NoDup (id <$> cs) → c ∈ cs → Q c →
  filter (λ x, id x = id c ∧ Q x) cs = [c].
Proof.
  induction cs as [|y cs IH]; intros Hnd Hin HQ.
  - by apply elem_of_nil in Hin.
  - rewrite fmap_cons in Hnd. apply NoDup_cons in Hnd as [Hy Hnd].
    rewrite filter_cons. apply elem_of_cons in Hin as [->|Hin].
    + rewrite decide_True by done. f_equal. by apply filter_by_absent_id.
    + rewrite decide_False; [by apply IH|].
      intros [Heq _]. apply Hy. rewrite Heq. by apply list_elem_of_fmap_2.
Qed.

Lemma length_filter_by_id (cs : list ChatRow) (Q : ChatRow → Prop)
    `{!∀ c, Decision (Q c)} k :
  NoDup (id <$> cs) → (length (filter (λ x, id x = k ∧ Q x) cs) ≤ 1)%nat.
Proof.
  intros Hnd.
  destruct (filter (λ x, id x = k ∧ Q x) cs) as [|c l] eqn:Hf; [simpl; lia|].
  assert (c ∈ filter (λ x, id x = k ∧ Q x) cs) as Hc by (rewrite Hf; by left).
  apply list_elem_of_filter in Hc as [[<- HQ] Hin].
  rewrite (filter_by_id cs Q c) in Hf by done. injection Hf as <-. simpl. lia.
Qed.

(** What the two updates of [setActiveChat] make of one row. *)
Lemma setActiveChat_row userId chatId now c :
  let c' := ChatSelect.activate chatId userId now
              (if decide (chat_user_id c = userId) then deactivate c else c) in
  (id c = chatId ∧ chat_user_id c = userId →
     c' = ChatSelect.activate chatId userId now (deactivate c) ∧
     chat_user_id c' = userId ∧ is_active c' = true) ∧
  (¬ (id c = chatId ∧ chat_user_id c = userId) →
     ¬ (chat_user_id c' = userId ∧ is_active c' = true)).
Proof.
  unfold ChatSelect.activate. split.
  - intros [Hi Hu]. rewrite (decide_True (P := chat_user_id c = userId)) by done.
    simpl. by rewrite decide_True.
  - intros Hnot. destruct (decide (chat_user_id c = userId)) as [Hu|Hu]; simpl.
    + rewrite decide_False by (intros [? ?]; by apply Hnot).
      simpl. by intros [_ ?].
    + rewrite decide_False by (by intros [_ ?]). by intros [? _].
Qed.

(** The rows that [setActiveChat] leaves active for the user are the
    rows of that user with the chosen id, activated. *)
Lemma activeChats_setActiveChat userId chatId now db :
  activeChats userId (ChatSelect.setActiveChat userId chatId now db) =
  ChatSelect.activate chatId userId now <$>
    (deactivate <$> filter (λ c, id c = chatId ∧ chat_user_id c = userId) (chats db)).
Proof.
  unfold activeChats, ChatSelect.setActiveChat, deactivate_all. simpl.
  induction (chats db) as [|c cs IH]; [done|].
  rewrite !fmap_cons, !filter_cons, IH.
  destruct (setActiveChat_row userId chatId now c) as [Hyes Hno].
  destruct (decide (id c = chatId ∧ chat_user_id c = userId)) as [Hc|Hc].
  - destruct (Hyes Hc) as (Heq & Hu & Ha).
    rewrite decide_True by done. by rewrite !fmap_cons, Heq.
  - by rewrite decide_False by (by apply Hno).
Qed.

(** Mapping rows leaves a filter alone when it neither moves a row
    across the filter nor changes a row that passes it. *)
Lemma filter_fmap_unchanged (P : ChatRow → Prop) `{!∀ c, Decision (P c)}
    (g : ChatRow → ChatRow) (cs : list ChatRow) :
  (∀ c, P c → g c = c) → (∀ c, P (g c) → P c) →
  filter P (g <$> cs) = filter P cs.
Proof.
  intros Hfix Hback. induction cs as [|c cs IH]; [done|].
  rewrite fmap_cons, !filter_cons, IH.
  destruct (decide (P c)) as [Hc|Hc].
  - rewrite (Hfix c Hc). by rewrite decide_True.
  - by rewrite decide_False by (intros ?; by apply Hc, Hback).
Qed.

(** The statements on the chats of one user leave the active chats of
    every other user alone. *)
Lemma activeChats_other_deactivate_all userId u cs :
  u ≠ userId →
  filter (λ c, chat_user_id c = u ∧ is_active c = true) (deactivate_all userId cs)
  = filter (λ c, chat_user_id c = u ∧ is_active c = true) cs.
Proof.
  intros Hne. unfold deactivate_all. apply filter_fmap_unchanged.
  - intros c [Hu _]. rewrite decide_False; [done | congruence].
  - intros c. case_decide; [|done]. simpl. intros [? _]. congruence.
Qed.

Lemma activeChats_other_activate chatId userId now u (cs : list ChatRow) :
  u ≠ userId →
  filter (λ c, chat_user_id c = u ∧ is_active c = true)
    (ChatSelect.activate chatId userId now <$> cs)
  = filter (λ c, chat_user_id c = u ∧ is_active c = true) cs.
Proof.
  intros Hne. apply filter_fmap_unchanged; unfold ChatSelect.activate.
  - intros c [Hu _]. rewrite decide_False; [done | intros [_ ?]; congruence].
  - intros c. case_decide as Hc; [|done]. simpl. intros [? _].
    destruct Hc. congruence.
Qed.

Lemma step_one_active db db' :
  step db db' → constraints db → one_active db → one_active db'.
Proof.
  intros Hstep Hc Hone u. destruct Hstep.
  - unfold activeChats. destruct (getUserOrCreate_tables telegramId hints now db)
      as (-> & _). apply Hone.
  - unfold activeChats, createChat. destruct (decide (u = userId)) as [->|Hne].
    + case_decide; simpl.
      * rewrite filter_app, filter_active_deactivate_all. simpl.
        etrans; [apply length_filter|]. simpl. lia.
      * rewrite filter_active_deactivate_all. simpl. lia.
    + case_decide; simpl.
      * rewrite filter_app, activeChats_other_deactivate_all by done.
        rewrite filter_cons, decide_False by (simpl; intros [? _]; congruence).
        rewrite filter_nil, app_nil_r. apply Hone.
      * rewrite activeChats_other_deactivate_all by done. apply Hone.
  - destruct (decide (u = userId)) as [->|Hne].
    + rewrite activeChats_setActiveChat, !length_fmap.
      apply length_filter_by_id. by destruct Hc.
    + unfold activeChats, ChatSelect.setActiveChat. simpl.
      rewrite activeChats_other_activate, activeChats_other_deactivate_all by done.
      apply Hone.
  - unfold activeChats, saveFeedback. repeat case_decide; apply Hone.
Qed.

Lemma steps_one_active db db' :
  rtc step db db' → constraints db ∧ one_active db → constraints db' ∧ one_active db'.
Proof.
  induction 1 as [|d d' d'' Hstep _ IH]; [done|].
  intros [Hc Hone]. apply IH.
  split; [by eapply step_constraints | by eapply step_one_active].
Qed.

(** X1. Whatever sequence of the managers' statements has run on a
    database that started empty, the constraints of the schema hold:
    user, chat and feedback ids are distinct, no two users share a
    Telegram id, every chat and every feedback row belongs to a user
    that exists, and every stored rating is NULL or between 1 and 5. *)
Theorem database_constraints_hold db :
  rtc step empty db → constraints db.
Proof.
  intros Hsteps. apply (steps_constraints empty); [done | apply constraints_empty].
Qed.

(** X2. After any sequence of the managers' statements on a database
    that started empty, no user has more than one chat marked active. *)
Theorem at_most_one_active_chat db u :
  rtc step empty db → (length (activeChats u db) ≤ 1)%nat.
Proof.
  intros Hsteps.
  destruct (steps_one_active empty db Hsteps) as [_ Hone]; [|apply Hone].
  split; [apply constraints_empty|]. intros u'. cbn. lia.
Qed.

(** X3. [getUserOrCreate] is idempotent: a second call, with whatever
    hints and at whatever time, returns the row of the first and writes
    nothing; a call for a Telegram id that is already there leaves the
    database as it is; and a call adds at most one user, whose Telegram
    id is the one asked for. *)
Theorem getUserOrCreate_idempotent telegramId hints hints' now now' db :
  let r := getUserOrCreate telegramId hints now db in
  getUserOrCreate telegramId hints' now' r.2 = r ∧
  telegram_id r.1 = telegramId ∧
  r.1 ∈ users r.2 ∧
  (telegramId ∈ telegram_id <$> users db → r.2 = db) ∧
  (telegramId ∉ telegram_id <$> users db → users r.2 = users db ++ [r.1]).
Proof.
  intros r. subst r. split; [apply getUserOrCreate_again|].
  unfold getUserOrCreate.
  destruct (list_find _ (users db)) as [[i user]|] eqn:Hf; simpl.
  - apply list_find_Some in Hf as (Hi & Ht & _).
    assert (user ∈ users db) as Hin by (by eapply list_elem_of_lookup_2).
    split_and!; try done. intros Hnot. exfalso. apply Hnot.
    rewrite <- Ht. by apply list_elem_of_fmap_2.
  - apply list_find_None in Hf. rewrite Forall_forall in Hf.
    split_and!; try done.
    + apply elem_of_app. right. by left.
    + intros (u & -> & Hu)%list_elem_of_fmap. by destruct (Hf u Hu).
Qed.

End DatabaseInvariants.

(** ** Selecting a chat in the database *)

Section SelectChatDB.
Import DatabaseManager DatabaseInvariant ChatSelect.

Lemma getUserChats_elem_of userId db c :
  c ∈ getUserChats userId db ↔ c ∈ chats db ∧ chat_user_id c = userId.
Proof.
  destruct (getUserChats_sorted userId db) as [_ Hperm].
  rewrite Hperm, list_elem_of_filter. tauto.
Qed.

(** X4. [selectChatDB] on a database that the managers built: when the
    user has a chat with that id, the call succeeds, returns the row as
    it was before, and afterwards that chat, with [updated_at] set to the
    time of the call, is the active chat of the user; the chats of other
    users are as before.  Otherwise it answers "not found" and the chats
    are untouched. *)
Theorem selectChatDB_activates u chatId now m :
  rtc step empty (ChatManager.dbManager m) →
  let r := selectChatDB u chatId now m in
  let uid := user_id (getUserOrCreate u no_hints now (ChatManager.dbManager m)).1 in
  match r.1 with
  | Ok chat =>
      id chat = chatId ∧ chat_user_id chat = uid ∧
      chat ∈ chats (ChatManager.dbManager m) ∧
      (∀ t, (ChatManager.getActiveChatDB u t r.2).1 =
            Ok (ChatManager.DbChat
                  {| id := chatId; chat_user_id := uid; name := name chat;
                     model := model chat; is_active := true;
                     message_count := message_count chat;
                     created_at := created_at chat; updated_at := now |})) ∧
      ∀ u', u' ≠ uid →
        filter (λ c, chat_user_id c = u') (chats (ChatManager.dbManager r.2)) =
        filter (λ c, chat_user_id c = u') (chats (ChatManager.dbManager m))
  | Fail e =>
      e = ChatNotFound ∧
      (¬ ∃ c, c ∈ chats (ChatManager.dbManager m) ∧ id c = chatId ∧
              chat_user_id c = uid) ∧
      chats (ChatManager.dbManager r.2) = chats (ChatManager.dbManager m)
  end.
Proof.
  intros Hreach r uid. subst r uid. unfold selectChatDB.
  assert (constraints (getUserOrCreate u no_hints now (ChatManager.dbManager m)).2)
    as Hc.
  { apply (steps_constraints empty); [|apply constraints_empty].
    eapply rtc_r; [done | apply step_getUserOrCreate]. }
  destruct (getUserOrCreate_tables u no_hints now (ChatManager.dbManager m))
    as (Hcs & _).
  destruct (getUserOrCreate_find u no_hints now (ChatManager.dbManager m))
    as [j Hfind].
  destruct (getUserOrCreate u no_hints now (ChatManager.dbManager m))
    as [user db]. simpl in *.
  destruct (list_find _ (getUserChats (user_id user) db)) as [[i chat]|] eqn:Hf;
    simpl.
  - apply list_find_Some in Hf as (Hi & Hid & _).
    apply list_elem_of_lookup_2, getUserChats_elem_of in Hi as [Hin Hu].
    split_and!; [done | done | by rewrite <- Hcs | |].
    + intros t. unfold ChatManager.getActiveChatDB. simpl.
      rewrite (getUserOrCreate_found u no_hints t
                 (setActiveChat (user_id user) chatId now db) j user) by done.
      simpl. unfold getActiveChat.
      change (filter _ (chats (setActiveChat (user_id user) chatId now db)))
        with (activeChats (user_id user) (setActiveChat (user_id user) chatId now db)).
      rewrite activeChats_setActiveChat. rewrite <- Hid.
      rewrite (filter_by_id (chats db) (λ c, chat_user_id c = user_id user) chat)
        by (done || by destruct Hc).
      simpl. unfold activate. simpl. rewrite decide_True by done.
      by rewrite Hu.
    + intros u' Hne. rewrite <- Hcs. unfold setActiveChat. simpl.
      rewrite (filter_fmap_unchanged (λ c, chat_user_id c = u')).
      * unfold deactivate_all. apply filter_fmap_unchanged.
        -- intros c Hc'. rewrite decide_False; [done | congruence].
        -- intros c. by case_decide.
      * intros c Hc'. unfold activate. rewrite decide_False; [done|].
        intros [_ ?]. congruence.
      * intros c. unfold activate. by case_decide.
  - split_and!; [done | | done].
    intros (c & Hin & Hid & Hu). apply list_find_None in Hf.
    rewrite Forall_forall in Hf. apply (Hf c); [|done].
    apply getUserChats_elem_of. split; [by rewrite Hcs | done].
Qed.

End SelectChatDB.

(** ** More on the flat-file store *)

Section FlatFileStore.
Import Config ChatManager ChatStore ChatStoreMore.

Lemma within_limit_insert cfg uc u d :
  within_limit cfg uc → (length (chats d) ≤ maxChatsPerUser cfg)%nat →
  within_limit cfg (<[u := d]> uc).
Proof.
  intros Huc Hd u' d'. rewrite lookup_insert.
  case_decide; [intros [= <-]; done | apply Huc].
Qed.

Lemma getUserData_within_limit cfg u uc :
  within_limit cfg uc →
  within_limit cfg (getUserData u uc).2 ∧
  (length (chats (getUserData u uc).1) ≤ maxChatsPerUser cfg)%nat.
Proof.
  intros Huc. unfold getUserData.
  destruct (uc !! u) as [d|] eqn:Hu; simpl.
  - split; [done | by apply (Huc u)].
  - split; [apply within_limit_insert; [done | simpl; lia] | lia].
Qed.

Lemma step_within_limit cfg m m' :
  step cfg m m' → within_limit cfg (userChats m) → within_limit cfg (userChats m').
Proof.
  intros Hstep Hok. destruct Hstep.
  - unfold createChat. destruct (useDatabase m).
    + by rewrite createChatDB_userChats.
    + unfold createChatJSON.
      destruct (getUserData_within_limit cfg u (userChats m) Hok) as [Huc Hd].
      destruct (getUserData u (userChats m)) as [d uc]. simpl in *.
      case_decide; [done|]. case_decide; [done|]. simpl.
      apply within_limit_insert; [done|]. simpl. rewrite length_app. simpl. lia.
  - unfold selectChatJSON.
    destruct (getUserData_within_limit cfg u (userChats m) Hok) as [Huc Hd].
    destruct (getUserData u (userChats m)) as [d uc]. simpl in *.
    destruct (list_find _ (chats d)) as [[i c]|]; simpl; [|done].
    apply within_limit_insert; [done|]. simpl. by rewrite length_insert.
  - unfold renameChat.
    destruct (getUserData_within_limit cfg u (userChats m) Hok) as [Huc Hd].
    destruct (getUserData u (userChats m)) as [d uc]. simpl in *.
    destruct (list_find _ (chats d)) as [[i c]|]; simpl; [|done].
    case_decide; simpl; [done|].
    apply within_limit_insert; [done|]. simpl. by rewrite length_insert.
  - unfold deleteChat.
    destruct (getUserData_within_limit cfg u (userChats m) Hok) as [Huc Hd].
    destruct (getUserData u (userChats m)) as [d uc]. simpl in *.
    destruct (list_find _ (chats d)) as [[i c]|]; simpl; [|done].
    apply within_limit_insert; [done|]. simpl.
    etrans; [apply sublist_length, sublist_delete | done].
  - unfold getChatsJSON.
    destruct (getUserData_within_limit cfg u (userChats m) Hok) as [Huc Hd].
    by destruct (getUserData u (userChats m)) as [d uc].
  - unfold getActiveChatJSON.
    destruct (getUserData_within_limit cfg u (userChats m) Hok) as [Huc Hd].
    destruct (getUserData u (userChats m)) as [d uc]. simpl in *.
    destruct (activeChatId d) as [a|]; [|done].
    case_decide; [done|]. by destruct (list_find _ _) as [[? ?]|].
  - unfold updateChatStats.
    destruct (getUserData_within_limit cfg u (userChats m) Hok) as [Huc Hd].
    destruct (getUserData u (userChats m)) as [d uc]. simpl in *.
    destruct (list_find _ (chats d)) as [[i c]|]; simpl; [|done].
    apply within_limit_insert; [done|]. simpl. by rewrite length_insert.
  - intros u d. simpl. rewrite lookup_fmap.
    destruct (userChats m !! u) as [d0|] eqn:Hu; [|discriminate].
    simpl. intros [= <-]. simpl.
    etrans; [apply sublist_length, foldl_removeById_sublist|]. by apply (Hok u).
Qed.

Lemma steps_within_limit cfg m m' :
  rtc (step cfg) m m' → within_limit cfg (userChats m) → within_limit cfg (userChats m').
Proof. induction 1; eauto using step_within_limit. Qed.

(** X5. On the flat files no user ever has more chats than
    [maxChatsPerUser]: this holds after any sequence of operations of
    the chat manager, run under one configuration from the initial
    state. *)
Theorem chat_limit_never_exceeded cfg useDb m u d :
  rtc (step cfg) (initial useDb) m →
  userChats m !! u = Some d →
  (length (chats d) ≤ maxChatsPerUser cfg)%nat.
Proof.
  intros Hsteps. apply (steps_within_limit cfg (initial useDb) m Hsteps).
  intros u' d' Hd. simpl in Hd. by rewrite lookup_empty in Hd.
Qed.

(** Overwriting the entry that a search finds by one that also matches
    leaves it the first match. *)
Lemma list_find_insert_found (P Q : Chat → Prop)
    `{!∀ c, Decision (P c)} `{!∀ c, Decision (Q c)} (cs : list Chat) i c c' :
  (∀ x, Q x ↔ P x) →
  list_find P cs = Some (i, c) → Q c' →
  list_find Q (<[i := c']> cs) = Some (i, c').
Proof.
  intros HPQ (Hi & HP & Hfirst)%list_find_Some HQ.
  apply list_find_Some. split_and!; [|done|].
  - apply list_lookup_insert_eq. by eapply lookup_lt_Some.
  - intros j y Hj Hlt. rewrite list_lookup_insert_ne in Hj by lia.
    rewrite HPQ. by eapply Hfirst.
Qed.

Lemma reachable_store_ok cfg useDb m :
  rtc (step cfg) (initial useDb) m → store_ok (userChats m).
Proof. intros Hsteps. eapply steps_ok; [done | apply store_ok_empty]. Qed.

(** X6. In every state the chat manager can reach, [getActiveChatJSON]
    answers with the first chat that carries the active id when there is
    an active id, and with "no active chat" when there is none; the
    answer "active chat not found" never occurs. *)
Theorem getActiveChatJSON_reachable cfg useDb m u :
  rtc (step cfg) (initial useDb) m →
  let d := (getUserData u (userChats m)).1 in
  match (getActiveChatJSON u m).1 with
  | Ok c => c ∈ chats d ∧ activeChatId d = Some (id c) ∧ namedChat d = Some c
  | Fail e => e = NoActiveChat ∧ activeChatId d = None
  end.
Proof.
  intros Hok%reachable_store_ok. unfold getActiveChatJSON, namedChat.
  destruct (getUserData u (userChats m)) as [d uc] eqn:Hg.
  destruct (getUserData_ok _ _ _ _ Hg Hok) as (_ & Ha & Hi). simpl.
  destruct (activeChatId d) as [a|] eqn:Hact; simpl; [|done].
  destruct (proj1 (list_elem_of_fmap _ _ _) (Ha a Hact)) as (c & -> & Hc).
  rewrite decide_False by (by apply Hi).
  destruct (list_find_elem_of (λ x, id x = id c) (chats d) c Hc eq_refl)
    as [[j c'] Hf].
  rewrite Hf. simpl.
  apply list_find_Some in Hf as (Hj & Hid & _).
  split_and!; [by eapply list_elem_of_lookup_2 | by rewrite Hid | done].
Qed.

(** X7. In every state the chat manager can reach, selecting a chat of
    the user by its id succeeds, stamps the chat with the time of the
    call and makes it the chat that [getActiveChatJSON] returns, keeping
    the ids of the list in place; selecting an id the user does not have
    answers "not found" and leaves the user's data as it was. *)
Theorem selectChatJSON_then_active cfg useDb m u chatId now :
  rtc (step cfg) (initial useDb) m →
  let d := (getUserData u (userChats m)).1 in
  let r := selectChatJSON u chatId now m in
  match r.1 with
  | Ok c =>
      IdString (id c) = chatId ∧ lastUsed c = now ∧
      (getActiveChatJSON u r.2).1 = Ok c ∧
      id <$> chats (getUserData u (userChats r.2)).1 = id <$> chats d
  | Fail e =>
      e = ChatNotFound ∧
      (¬ ∃ c, c ∈ chats d ∧ IdString (id c) = chatId) ∧
      (getUserData u (userChats r.2)).1 = d
  end.
Proof.
  intros Hok%reachable_store_ok. unfold selectChatJSON.
  pose proof (getUserData_again u (userChats m)) as Hagain.
  destruct (getUserData u (userChats m)) as [d uc] eqn:Hg.
  destruct (getUserData_ok _ _ _ _ Hg Hok) as (_ & Ha & Hi). simpl.
  destruct (list_find _ (chats d)) as [[i c]|] eqn:Hf; simpl.
  - pose proof Hf as (Hl & Hid & _)%list_find_Some.
    assert (id c ≠ "") as Hne by (apply Hi; by eapply list_elem_of_lookup_2).
    split_and!; [done | done | |].
    + unfold getActiveChatJSON, getUserData. simpl. rewrite lookup_insert_eq.
      simpl. rewrite decide_False by done.
      erewrite (list_find_insert_found (λ x, IdString (id x) = chatId)
                  (λ x, id x = id c)); [done | | done | done].
      intros x. rewrite <- Hid. split; [by intros -> | by intros [= ->]].
    + unfold getUserData. simpl. rewrite lookup_insert_eq. simpl.
      by apply (ids_insert_same _ _ c).
  - simpl in Hagain. split_and!; [done | | by rewrite Hagain].
    intros (c & Hc & Hid). apply list_find_None in Hf.
    rewrite Forall_forall in Hf. by apply (Hf c).
Qed.

Lemma filter_ext_in (P Q : Chat → Prop)
    `{!∀ c, Decision (P c)} `{!∀ c, Decision (Q c)} (cs : list Chat) :
  (∀ c, c ∈ cs → P c ↔ Q c) → filter P cs = filter Q cs.
Proof.
  induction cs as [|c cs IH]; intros Hext; [done|].
  rewrite !filter_cons, IH by (intros x Hx; apply Hext; by right).
  destruct (decide (P c)) as [Hc|Hc].
  - by rewrite decide_True by (apply Hext; [by left | done]).
  - by rewrite decide_False by (intros ?; apply Hc, Hext; [by left | done]).
Qed.

Lemma filter_all (P : Chat → Prop) `{!∀ c, Decision (P c)} (cs : list Chat) :
  (∀ c, c ∈ cs → P c) → filter P cs = cs.
Proof.
  induction cs as [|c cs IH]; intros Hall; [done|].
  rewrite filter_cons, decide_True by (apply Hall; by left).
  f_equal. apply IH. intros x Hx. apply Hall. by right.
Qed.

Lemma NoDup_ids_filter (P : Chat → Prop) `{!∀ c, Decision (P c)} (cs : list Chat) :
  NoDup (id <$> cs) → NoDup (id <$> filter P cs).
Proof.
  intros Hnd. eapply sublist_NoDup; [done|].
  apply fmap_sublist, sublist_filter.
Qed.

(** With distinct ids, [findIndex] by id and [splice] take out the chat
    with that id, if there is one. *)
Lemma removeById_filter cs x :
  NoDup (id <$> cs) → removeById cs x = filter (λ c, id c ≠ id x) cs.
Proof.
  unfold removeById. induction cs as [|y cs IH]; intros Hnd; [done|].
  rewrite fmap_cons in Hnd. apply NoDup_cons in Hnd as [Hy Hnd].
  rewrite filter_cons. cbn [list_find].
  destruct (decide (id y = id x)) as [Heq|Hne].
  - rewrite decide_False by (intros ?; done). simpl.
    symmetry. apply filter_all. intros c Hc Hid. apply Hy.
    rewrite Heq, <- Hid. by apply list_elem_of_fmap_2.
  - rewrite decide_True by done. specialize (IH Hnd).
    destruct (list_find (λ c, id c = id x) cs) as [[i c]|]; simpl.
    + by rewrite IH.
    + by rewrite <- IH.
Qed.

Lemma foldl_removeById_filter olds cs :
  NoDup (id <$> cs) →
  foldl removeById cs olds = filter (λ c, id c ∉ id <$> olds) cs.
Proof.
  revert cs. induction olds as [|x olds IH]; intros cs Hnd; simpl.
  - symmetry. apply filter_all. intros c _. apply not_elem_of_nil.
  - rewrite removeById_filter by done.
    rewrite IH by (by apply NoDup_ids_filter).
    rewrite list_filter_filter. apply list_filter_iff. intros c.
    rewrite not_elem_of_cons. tauto.
Qed.

Lemma NoDup_ids_inj (cs : list Chat) c c' :
  NoDup (id <$> cs) → c ∈ cs → c' ∈ cs → id c = id c' → c = c'.
Proof.
  intros Hnd (i & Hi)%list_elem_of_lookup (j & Hj)%list_elem_of_lookup Hid.
  assert (i = j) as ->; [|congruence].
  eapply (NoDup_lookup _ _ _ (id c) Hnd); rewrite list_lookup_fmap.
  - by rewrite Hi.
  - by rewrite Hj, Hid.
Qed.

Lemma cleanupUser_chats now d :
  NoDup (id <$> chats d) →
  chats (cleanupUser now d) = filter (λ c, ¬ isOld now c) (chats d).
Proof.
  intros Hnd. unfold cleanupUser. simpl.
  rewrite foldl_removeById_filter by done.
  apply filter_ext_in. intros c Hc. split.
  - intros Hnot Hold. apply Hnot. apply list_elem_of_fmap_2.
    by apply list_elem_of_filter.
  - intros Hnew (c' & Hid & [Hold Hc']%list_elem_of_filter)%list_elem_of_fmap.
    apply Hnew. by rewrite (NoDup_ids_inj (chats d) c c' Hnd Hc Hc' Hid).
Qed.

Lemma filter_none (P : Chat → Prop) `{!∀ c, Decision (P c)} (cs : list Chat) :
  (∀ c, c ∈ cs → ¬ P c) → filter P cs = [].
Proof.
  induction cs as [|c cs IH]; intros Hall; [done|].
  rewrite filter_cons, decide_False by (apply Hall; by left).
  apply IH. intros x Hx. apply Hall. by right.
Qed.

(** After a cleanup, an active id that is not empty names a chat. *)
Lemma cleanupUser_active_found now d a :
  activeChatId (cleanupUser now d) = Some a → a ≠ "" →
  is_Some (list_find (λ c, id c = a) (chats (cleanupUser now d))).
Proof.
  unfold cleanupUser. simpl.
  set (cs' := foldl removeById (chats d) (filter (isOld now) (chats d))).
  destruct (activeChatId d) as [a0|]; [|discriminate].
  case_decide; [by intros [= <-]|].
  destruct (list_find (λ c, id c = a0) cs') as [[i c]|] eqn:Hf.
  - intros [= <-] _. by rewrite Hf.
  - intros Hfirst _. unfold firstChatId in Hfirst.
    destruct cs' as [|c cs'']; [discriminate|]. simpl in Hfirst.
    injection Hfirst as <-. cbn [list_find]. by rewrite decide_True.
Qed.

(** X8. One run of the cleanup timer on the chats of a user whose chat
    ids are distinct keeps exactly the chats used within the last 30
    days, in their order; the active chat stays if it is kept, and
    otherwise the first kept chat (or none) becomes active; a second run
    at the same time changes nothing. *)
Theorem cleanupUser_keeps_recent now d :
  NoDup (id <$> chats d) →
  let d' := cleanupUser now d in
  chats d' = filter (λ c, ¬ isOld now c) (chats d) ∧
  (∀ a, activeChatId d = Some a → a ≠ "" →
        activeChatId d' =
          if decide (a ∈ id <$> chats d') then Some a else firstChatId (chats d')) ∧
  (activeChatId d = None → activeChatId d' = None) ∧
  cleanupUser now d' = d'.
Proof.
  intros Hnd d'. pose proof (cleanupUser_chats now d Hnd) as Hchats.
  fold d' in Hchats.
  assert (∀ a, activeChatId d = Some a → a ≠ "" →
            activeChatId d' =
              if decide (a ∈ id <$> chats d') then Some a else firstChatId (chats d'))
    as Hactive.
  { intros a Hact Hne. subst d'. unfold cleanupUser at 1. simpl.
    rewrite Hact, decide_False by done.
    change (foldl removeById (chats d) (filter (isOld now) (chats d)))
      with (chats (cleanupUser now d)).
    destruct (list_find _ (chats (cleanupUser now d))) as [[i c]|] eqn:Hf.
    - apply list_find_Some in Hf as (Hi & Hid & _).
      rewrite decide_True; [done|]. rewrite <- Hid.
      apply list_elem_of_fmap_2. by eapply list_elem_of_lookup_2.
    - apply list_find_None in Hf. rewrite Forall_forall in Hf.
      rewrite decide_False; [done|].
      intros (c & -> & Hc)%list_elem_of_fmap. by apply (Hf c). }
  split_and!; [done | done | |].
  - intros Hnone. subst d'. unfold cleanupUser. simpl. by rewrite Hnone.
  - assert (filter (isOld now) (chats d') = []) as Hnoold.
    { rewrite Hchats. apply filter_none.
      by intros c [Hnew _]%list_elem_of_filter. }
    pose proof (cleanupUser_active_found now d) as Hfound. fold d' in Hfound.
    clearbody d'. unfold cleanupUser. rewrite Hnoold. simpl.
    destruct d' as [cs' act']. simpl in *. f_equal.
    destruct act' as [a|]; [|done].
    destruct (decide (a = "")) as [He|Hne]; [done|].
    by destruct (Hfound a eq_refl Hne) as [[i c] ->].
Qed.

Lemma getUserData_other u u' uc :
  u' ≠ u → (getUserData u uc).2 !! u' = uc !! u'.
Proof.
  intros Hne. unfold getUserData.
  destruct (uc !! u); simpl; [done|]. by rewrite lookup_insert_ne.
Qed.

Lemma getUserData_insert u d uc : (getUserData u (<[u := d]> uc)).1 = d.
Proof. unfold getUserData. by rewrite lookup_insert_eq. Qed.

(** X9. [deleteChat] takes out exactly one chat, the first one of the
    user with that id: the list gets one shorter, the other chats keep
    their order, other users are untouched, and unless the deleted chat
    was the active one the active chat stays.  For an id the user does
    not have it answers "not found" and changes nothing of the user's
    data. *)
Theorem deleteChat_removes_one u chatId m :
  let d := (getUserData u (userChats m)).1 in
  let r := deleteChat u chatId m in
  let d' := (getUserData u (userChats r.2)).1 in
  (∀ u', u' ≠ u → userChats r.2 !! u' = userChats m !! u') ∧
  match r.1 with
  | Ok deleted =>
      IdString (id deleted) = chatId ∧
      ∃ i, chats d !! i = Some deleted ∧
        (∀ j c, (j < i)%nat → chats d !! j = Some c → IdString (id c) ≠ chatId) ∧
        chats d' = delete i (chats d) ∧
        S (length (chats d')) = length (chats d) ∧
        (IdString <$> activeChatId d ≠ Some chatId →
           activeChatId d' = activeChatId d)
  | Fail e =>
      e = ChatNotFound ∧ d' = d ∧
      ¬ ∃ c, c ∈ chats d ∧ IdString (id c) = chatId
  end.
Proof.
  unfold deleteChat.
  pose proof (getUserData_again u (userChats m)) as Hagain.
  pose proof (λ u', getUserData_other u u' (userChats m)) as Hother.
  destruct (getUserData u (userChats m)) as [d uc]. simpl in *.
  destruct (list_find _ (chats d)) as [[i c]|] eqn:Hf; simpl.
  - split; [intros u' Hne; rewrite lookup_insert_ne by done; by apply Hother|].
    apply list_find_Some in Hf as (Hi & Hid & Hfirst).
    split; [done|]. exists i. rewrite getUserData_insert. simpl.
    split_and!; [done | | done | |].
    + intros j c' Hlt Hj. by eapply Hfirst.
    + rewrite length_delete by done.
      apply lookup_lt_Some in Hi. lia.
    + intros Hne. by rewrite decide_False.
  - split; [done|]. split_and!; [done | by rewrite Hagain |].
    intros (c & Hc & Hid). apply list_find_None in Hf.
    rewrite Forall_forall in Hf. by apply (Hf c).
Qed.

(** X10. [renameChat] changes the name of one chat and nothing else:
    the first chat of the user with that id gets the new name, every
    other chat, the ids, the order, the active chat and the other users
    stay as they were.  It looks for the chat before it looks at the
    name: an unknown id answers "not found" even for a name that is too
    long, and either failure leaves the user's data unchanged. *)
Theorem renameChat_changes_name_only cfg u chatId newName m :
  let d := (getUserData u (userChats m)).1 in
  let r := renameChat cfg u chatId newName m in
  let d' := (getUserData u (userChats r.2)).1 in
  (∀ u', u' ≠ u → userChats r.2 !! u' = userChats m !! u') ∧
  match r.1 with
  | Ok c =>
      (String.length newName ≤ maxChatNameLength cfg)%nat ∧
      ∃ i old, chats d !! i = Some old ∧ IdString (id old) = chatId ∧
        (∀ j c', (j < i)%nat → chats d !! j = Some c' → IdString (id c') ≠ chatId) ∧
        c = {| id := id old; name := newName; createdAt := createdAt old;
               lastUsed := lastUsed old; messageCount := messageCount old |} ∧
        chats d' = <[i := c]> (chats d) ∧
        activeChatId d' = activeChatId d
  | Fail e =>
      d' = d ∧
      ((e = ChatNotFound ∧ ¬ ∃ c, c ∈ chats d ∧ IdString (id c) = chatId) ∨
       (e = ChatNameTooLong (maxChatNameLength cfg) ∧
        (∃ c, c ∈ chats d ∧ IdString (id c) = chatId) ∧
        (maxChatNameLength cfg < String.length newName)%nat))
  end.
Proof.
  unfold renameChat.
  pose proof (getUserData_again u (userChats m)) as Hagain.
  pose proof (λ u', getUserData_other u u' (userChats m)) as Hother.
  destruct (getUserData u (userChats m)) as [d uc]. simpl in *.
  destruct (list_find _ (chats d)) as [[i c]|] eqn:Hf; simpl.
  - apply list_find_Some in Hf as (Hi & Hid & Hfirst).
    assert (∃ c0, c0 ∈ chats d ∧ IdString (id c0) = chatId) as Hex.
    { exists c. split; [by eapply list_elem_of_lookup_2 | done]. }
    case_decide as Hlen; simpl.
    + split; [done|]. split; [by rewrite Hagain|]. by right.
    + split; [intros u' Hne; rewrite lookup_insert_ne by done; by apply Hother|].
      split; [lia|]. exists i, c. rewrite getUserData_insert. simpl.
      split_and!; try done. intros j c' Hlt Hj. by eapply Hfirst.
  - split; [done|]. split; [by rewrite Hagain|].
    left. split; [done|].
    intros (c & Hc & Hid). apply list_find_None in Hf.
    rewrite Forall_forall in Hf. by apply (Hf c).
Qed.

Lemma filter_and_nil {A} (P Q : A → Prop) `{!∀ x, Decision (P x)}
    `{!∀ x, Decision (Q x)} (l : list A) :
  filter P l = [] → filter (λ x, P x ∧ Q x) l = [].
Proof.
  induction l as [|x l IH]; [done|].
  rewrite !filter_cons. destruct (decide (P x)) as [HP|HP]; [done|].
  intros Hnil. rewrite decide_False by tauto. auto.
Qed.

(** After [createChatDB] has succeeded, the new row is what
    [getActiveChatDB] returns. *)
Lemma getActiveChatDB_createChatDB cfg u chatName now m row m' :
  createChatDB cfg u chatName now m = (Ok (DbChat row), m') →
  ∀ t, (getActiveChatDB u t m').1 = Ok (DbChat row).
Proof.
  unfold createChatDB.
  destruct (getUserOrCreate_find u DatabaseManager.no_hints now (dbManager m))
    as [i Hfind].
  destruct (DatabaseManager.getUserOrCreate u _ now (dbManager m)) as [user db].
  simpl in Hfind.
  case_decide; [discriminate|]. case_decide; [discriminate|].
  destruct (getUserModel cfg u (userSettings m)) as [model us].
  destruct (DatabaseManager.createChat _ _ _ _ _) as [[row'|e] db'] eqn:Hc;
    [|discriminate].
  intros [= <- <-] t.
  destruct (createChat_Ok _ _ _ _ _ _ _ Hc) as (_ & _ & Hus).
  unfold getActiveChatDB. simpl.
  rewrite (getUserOrCreate_found u _ t db' i user) by (by rewrite Hus).
  simpl. by rewrite (getActiveChat_createChat _ _ _ _ _ _ _ Hc).
Qed.

(** X11. In every state of the chat manager, a user without chats has
    no active chat: [getActiveChat] fails as not found.  The first chat
    such a user creates becomes the active one, on the database and on
    the flat files alike. *)
Theorem first_chat_becomes_active cfg m u t chatName now rnd :
  chatCount u t m = 0%nat →
  (1 ≤ maxChatsPerUser cfg)%nat →
  (String.length chatName ≤ maxChatNameLength cfg)%nat →
  (∃ e, (getActiveChat u t m).1 = Fail e ∧ errorKind e = NotFound) ∧
  ∃ c, (createChat cfg u chatName now rnd m).1 = Ok c ∧
    ∀ t', (getActiveChat u t' (createChat cfg u chatName now rnd m).2).1 = Ok c.
Proof.
  intros Hcount Hmax Hlen.
  unfold getActiveChat, createChat. destruct (useDatabase m) eqn:Hdb.
  - (* database *)
    pose proof Hcount as Hcount'.
    rewrite (chatCount_db u t t) in Hcount by done.
    rewrite (chatCount_db u t now) in Hcount' by done.
    split.
    + unfold getActiveChatDB.
      destruct (DatabaseManager.getUserOrCreate u _ t (dbManager m)) as [user db].
      simpl in *. rewrite getUserChats_length in Hcount.
      apply nil_length_inv in Hcount.
      unfold DatabaseManager.getActiveChat.
      rewrite (filter_and_nil _ _ _ Hcount). simpl. eauto.
    + pose proof (createChatDB_ok cfg u chatName now m) as Hcreate.
      simpl in Hcreate. rewrite Hcount' in Hcreate.
      specialize (Hcreate ltac:(lia) Hlen).
      pose proof (getActiveChatDB_createChatDB cfg u chatName now m _ _ Hcreate) as H.
      rewrite Hcreate. simpl. eexists. split; [done|]. intros t'.
      rewrite Hdb. apply H.
  - (* flat files *)
    rewrite chatCount_json in Hcount by done. apply nil_length_inv in Hcount.
    pose proof (createChatJSON_appends cfg u chatName now rnd m) as Hcreate.
    simpl in Hcreate. rewrite Hcount in Hcreate. simpl in Hcreate.
    rewrite Hcreate by lia. simpl. clear Hcreate.
    unfold getActiveChatJSON at 1.
    destruct (getUserData u (userChats m)) as [d uc] eqn:Hg. simpl in *.
    split.
    + destruct (activeChatId d) as [a|] eqn:Hact; [|simpl; eauto].
      case_decide; [simpl; eauto|]. rewrite Hcount. simpl. eauto.
    + eexists. split; [done|]. intros t'. rewrite Hdb.
      unfold getActiveChatJSON, getUserData. simpl. rewrite lookup_insert_eq.
      simpl.
      by rewrite (decide_True (P := newChatId now rnd = newChatId now rnd)).
Qed.

(** X12. The model a user sets is the model the user gets: after
    [setUserModel], [getUserModel] returns it for that user and what it
    returned before for every other user; a user who never set one gets
    the default; the chats are untouched; and a chat the user then
    creates in the database is created with that model. *)
Theorem setUserModel_getUserModel cfg u model m :
  let m' := (UserModel.setUserModel cfg u model m).2 in
  (getUserModel cfg u (userSettings m')).1 = model ∧
  (∀ u', u' ≠ u →
     (getUserModel cfg u' (userSettings m')).1 = (getUserModel cfg u' (userSettings m)).1) ∧
  (userSettings m !! u = None →
     (getUserModel cfg u (userSettings m)).1 = defaultModel cfg) ∧
  userChats m' = userChats m ∧ dbManager m' = dbManager m ∧
  (∀ chatName now row m'',
     createChatDB cfg u chatName now m' = (Ok (DbChat row), m'') →
     DatabaseManager.model row = model).
Proof.
  unfold UserModel.setUserModel.
  assert (∀ u', u' ≠ u →
            (getUserModel cfg u (userSettings m)).2 !! u' = userSettings m !! u')
    as Hother.
  { intros u' Hne. unfold getUserModel.
    destruct (userSettings m !! u); simpl; [done|].
    by rewrite lookup_insert_ne by congruence. }
  destruct (getUserModel cfg u (userSettings m)) as [old us] eqn:Hg. simpl in *.
  split_and!; try done.
  - unfold getUserModel. by rewrite lookup_insert_eq.
  - intros u' Hne. unfold getUserModel at 1 2.
    rewrite lookup_insert_ne by congruence. rewrite Hother by done.
    by destruct (userSettings m !! u').
  - intros Hnone. unfold getUserModel in Hg. rewrite Hnone in Hg. by injection Hg.
  - intros chatName now row m''. unfold createChatDB. simpl.
    destruct (DatabaseManager.getUserOrCreate u _ now (dbManager m)) as [user db].
    case_decide; [discriminate|]. case_decide; [discriminate|].
    unfold getUserModel. rewrite lookup_insert_eq.
    destruct (DatabaseManager.createChat _ _ _ _ _) as [[row'|e] db'] eqn:Hc;
      [|discriminate].
    intros [= <- <-]. by destruct (createChat_Ok _ _ _ _ _ _ _ Hc) as (-> & _).
Qed.

End FlatFileStore.

Section FeedbackCleanupFacts.
Import LearningManager FeedbackCleanup.

Lemma removeItem_app_notin item (p l : list Feedback) :
  item ∉ p → removeItem item (p ++ item :: l) = p ++ l.
Proof.
  induction p as [|f p IH]; intros Hnotin; simpl.
  - by rewrite decide_True.
  - apply not_elem_of_cons in Hnotin as [Hne Hnotin].
    rewrite decide_False by congruence. by rewrite IH.
Qed.

Lemma cleanupUser_prefix cutoff (p l : list Feedback) :
  Forall (λ f, ¬ timestamp f < cutoff) p →
  foldl (λ l item, removeItem item l) (p ++ l)
    (filter (λ f, timestamp f < cutoff) l) =
  p ++ filter (λ f, ¬ timestamp f < cutoff) l.
Proof.
  revert p. induction l as [|f l IH]; intros p Hp; [done|].
  rewrite !filter_cons. destruct (decide (timestamp f < cutoff)) as [Hold|Hnew].
  - rewrite decide_False by tauto. simpl. rewrite removeItem_app_notin; [by apply IH|].
    intros Hin. by apply (proj1 (Forall_forall _ _) Hp) in Hin.
  - rewrite decide_True by done.
    rewrite (cons_middle f p l), (assoc_L (++)).
    rewrite IH by (apply Forall_app; split; [done|by apply Forall_singleton]).
    by rewrite <- (assoc_L (++)).
Qed.

Lemma cleanupUser_filter cutoff (l : list Feedback) :
  cleanupUser cutoff l = filter (λ f, cutoff ≤ timestamp f) l.
Proof.
  unfold cleanupUser.
  pose proof (cleanupUser_prefix cutoff [] l (Forall_nil_2 _)) as H.
  simpl in H. rewrite H. apply list_filter_iff. intros f. lia.
Qed.

(** X13. A tick of the feedback clean-up removes, for every user, the
    records older than the retention period and nothing else: what is
    left are the records from the cut-off on, in their order.  No user
    is dropped from the cache, and a second tick at the same time
    changes nothing. *)
Theorem feedback_autoCleanup_keeps_recent retentionDays now m u :
  let m' := autoCleanup retentionDays now m in
  userFeedback u (feedbackCache m') =
    filter (λ f, now - retentionDays * 86400000 ≤ timestamp f)
      (userFeedback u (feedbackCache m)) ∧
  dom (feedbackCache m') = dom (feedbackCache m) ∧
  autoCleanup retentionDays now m' = m'.
Proof.
  assert (cutoffDate retentionDays now = now - retentionDays * 86400000) as Hcut
    by (unfold cutoffDate; lia).
  split_and!.
  - unfold autoCleanup, userFeedback. simpl. rewrite lookup_fmap, Hcut.
    destruct (feedbackCache m !! u) as [l|]; simpl; [|done].
    apply cleanupUser_filter.
  - unfold autoCleanup. simpl. apply dom_fmap_L.
  - unfold autoCleanup, with_cache. simpl. f_equal.
    rewrite <- map_fmap_compose. apply map_fmap_ext. intros k l _. simpl.
    rewrite !cleanupUser_filter, list_filter_filter.
    apply list_filter_iff. intros f. tauto.
Qed.

End FeedbackCleanupFacts.

Section DatabaseStatsFacts.
Import DatabaseManager DatabaseInvariant DatabaseStats FeedbackStats.
Import LearningManager(Count, initialRatings, initialTally, tally_ratings,
  totalRating, ratingCount, ratings, averageRating, totalFeedback,
  improvementFeedback, AverageZero, AverageFixed).

Lemma sumZ_cons x l : sumZ (x :: l) = x + sumZ l.
Proof. done. Qed.

Lemma sumZ_Permutation l1 l2 : l1 ≡ₚ l2 → sumZ l1 = sumZ l2.
Proof. induction 1; rewrite ?sumZ_cons; lia. Qed.

(** The loop over the groups, started from any tally. *)
Lemma addGroup_foldl (g : list (Z * nat)) t0 :
  NoDup g.*1 →
  let t := foldl addGroup t0 g in
  ratingCount t = (ratingCount t0 + sum_list g.*2)%nat ∧
  totalRating t = totalRating t0 + sumZ ((λ row, row.1 * Z.of_nat row.2) <$> g) ∧
  (∀ k c, (k, c) ∈ g → tally_ratings t !! k = Some (Count c)) ∧
  (∀ k, k ∉ g.*1 → tally_ratings t !! k = tally_ratings t0 !! k).
Proof.
  revert t0. induction g as [|[r c] g IH]; intros t0 Hnd.
  - cbn. split_and!; [lia | lia | |done].
    intros k c Hin. by apply elem_of_nil in Hin.
  - cbn zeta. change (foldl addGroup t0 ((r, c) :: g))
      with (foldl addGroup (addGroup t0 (r, c)) g).
    rewrite fmap_cons in Hnd. apply NoDup_cons in Hnd as [Hr Hnd].
    destruct (IH (addGroup t0 (r, c)) Hnd) as (Hc & Hs & Hin & Hout).
    rewrite Hc, Hs. rewrite !fmap_cons, sumZ_cons. split_and!.
    + simpl. lia.
    + simpl. lia.
    + intros k c' [Heq|Hin']%elem_of_cons.
      * injection Heq as -> ->. rewrite Hout by done. simpl.
        by rewrite lookup_insert_eq.
      * by apply Hin.
    + intros k Hk.
      apply not_elem_of_cons in Hk as [Hne Hk]. simpl in Hne.
      rewrite Hout by done. simpl. by rewrite lookup_insert_ne.
Qed.

Lemma sumZ_single (f : Z → Z) x (D : list Z) :
  NoDup D → x ∈ D →
  sumZ ((λ r, if decide (x = r) then f r else 0) <$> D) = f x.
Proof.
  induction D as [|d D IH]; intros Hnd Hin; [by apply elem_of_nil in Hin|].
  apply NoDup_cons in Hnd as [Hd Hnd]. rewrite fmap_cons, sumZ_cons.
  destruct (decide (x = d)) as [->|Hne].
  - assert (sumZ ((λ r, if decide (d = r) then f r else 0) <$> D) = 0) as ->; [|lia].
    clear IH Hin Hnd. induction D as [|e D IH]; [done|].
    rewrite fmap_cons, sumZ_cons.
    apply not_elem_of_cons in Hd as [Hne Hd].
    rewrite decide_False by done. by rewrite IH.
  - apply elem_of_cons in Hin as [?|Hin]; [done|]. rewrite IH by done. lia.
Qed.

(** Summing over the groups is summing over the rows. *)
Lemma groups_total (rs D : list Z) :
  NoDup D → (∀ x, x ∈ rs → x ∈ D) →
  sumZ ((λ r, r * Z.of_nat (countOf r rs)) <$> D) = sumZ rs ∧
  sumZ ((λ r, Z.of_nat (countOf r rs)) <$> D) = Z.of_nat (length rs).
Proof.
  intros Hnd. induction rs as [|x rs IH]; intros Hin.
  - split.
    + clear Hnd Hin. induction D as [|d D IH]; [done|].
      rewrite fmap_cons, sumZ_cons, IH. unfold countOf. simpl. lia.
    + clear Hnd Hin. induction D as [|d D IH]; [done|].
      rewrite fmap_cons, sumZ_cons, IH. unfold countOf. simpl. lia.
  - destruct IH as [IH1 IH2]; [intros y Hy; apply Hin; by right|].
    assert (x ∈ D) as Hx by (apply Hin; by left).
    pose proof (sumZ_single (λ r, r) x D Hnd Hx) as H1.
    pose proof (sumZ_single (λ _, 1) x D Hnd Hx) as H2.
    simpl in H1, H2.
    assert (∀ D' : list Z,
      sumZ ((λ r, r * Z.of_nat (countOf r (x :: rs))) <$> D') =
      sumZ ((λ r, if decide (x = r) then r else 0) <$> D') +
      sumZ ((λ r, r * Z.of_nat (countOf r rs)) <$> D')) as A1.
    { intros D'. induction D' as [|d D' IHD]; [done|].
      rewrite !fmap_cons, !sumZ_cons, countOf_cons, IHD. case_decide; lia. }
    assert (∀ D' : list Z,
      sumZ ((λ r, Z.of_nat (countOf r (x :: rs))) <$> D') =
      sumZ ((λ r, if decide (x = r) then 1 else 0) <$> D') +
      sumZ ((λ r, Z.of_nat (countOf r rs)) <$> D')) as A2.
    { intros D'. induction D' as [|d D' IHD]; [done|].
      rewrite !fmap_cons, !sumZ_cons, countOf_cons, IHD. case_decide; lia. }
    rewrite A1, A2, H1, H2, IH1, IH2, sumZ_cons. cbn [length]. lia.
Qed.

Lemma sum_list_Z (l : list nat) : Z.of_nat (sum_list l) = sumZ (Z.of_nat <$> l).
Proof.
  induction l as [|x l IH]; [done|]. rewrite fmap_cons, sumZ_cons, <- IH.
  simpl. lia.
Qed.

Lemma countOf_absent k rs : k ∉ rs → countOf k rs = 0%nat.
Proof.
  intros Hk. unfold countOf. induction rs as [|r rs IH]; [done|].
  apply not_elem_of_cons in Hk as [Hne Hk].
  rewrite filter_cons_False by congruence. auto.
Qed.

Lemma ratedRows_in_range u db r :
  constraints db → r ∈ ratedRows u db → 1 ≤ r ≤ 5.
Proof.
  intros Hc Hr. unfold ratedRows in Hr.
  apply list_elem_of_omap in Hr as (f & Hf & Hrating).
  apply list_elem_of_filter in Hf as [_ Hf].
  pose proof (ratings_in_range db Hc f Hf) as Hcheck.
  by rewrite Hrating in Hcheck.
Qed.

(** The statistics the groups of a list of ratings give. *)
Lemma statsOfGroups_tally (rs : list Z) (groups : list (Z * nat)) :
  groups ≡ₚ groupByRating rs →
  let t := foldl addGroup initialTally groups in
  ratingCount t = length rs ∧
  totalRating t = sumZ rs ∧
  (∀ k, k ∈ rs → tally_ratings t !! k = Some (Count (countOf k rs))) ∧
  (∀ k, k ∉ rs → tally_ratings t !! k = initialRatings !! k).
Proof.
  intros Hperm.
  assert (groups.*1 ≡ₚ remove_dups rs) as Hkeys.
  { rewrite Hperm. unfold groupByRating. rewrite <- list_fmap_compose.
    by rewrite (list_fmap_id (remove_dups rs) : _ <$> remove_dups rs = _). }
  assert (NoDup groups.*1) as Hnd by (rewrite Hkeys; apply NoDup_remove_dups).
  destruct (addGroup_foldl groups initialTally Hnd) as (Hc & Hs & Hin & Hout).
  destruct (groups_total rs (remove_dups rs) (NoDup_remove_dups rs)) as [Ht Hl].
  { intros x. by rewrite elem_of_remove_dups. }
  cbn zeta. split_and!.
  - rewrite Hc. simpl. apply Nat2Z.inj. rewrite sum_list_Z, <- Hl.
    rewrite <- list_fmap_compose.
    rewrite (sumZ_Permutation _ _ (fmap_Permutation _ _ _ Hperm)).
    unfold groupByRating. by rewrite <- list_fmap_compose.
  - rewrite Hs. simpl. rewrite <- Ht.
    rewrite (sumZ_Permutation _ _ (fmap_Permutation _ _ _ Hperm)).
    unfold groupByRating. by rewrite <- list_fmap_compose.
  - intros k Hk. apply Hin. rewrite Hperm. unfold groupByRating.
    apply list_elem_of_fmap. exists k. split; [done|]. by apply elem_of_remove_dups.
  - intros k Hk. rewrite Hout; [done|]. rewrite Hkeys. by rewrite elem_of_remove_dups.
Qed.

(** X14. Statistics of the feedback table.  In a database the
    managers have written, whatever the order of the groups of the
    GROUP BY: the counters of [ratings] are those of 1 to 5 and no
    other, each the number of rated rows of the user with that rating;
    the average is taken over the rated rows, and is the number 0 when
    there is none; and the total covers the rated rows and the
    improvement requests. *)
Theorem database_feedback_stats db u groups :
  rtc step empty db →
  groups ≡ₚ groupByRating (ratedRows u db) →
  let rs := ratedRows u db in
  let s := statsOfGroups u db groups in
  (∀ k, 1 ≤ k ≤ 5 → ratings s !! k = Some (Count (countOf k rs))) ∧
  (∀ k, ¬ 1 ≤ k ≤ 5 → ratings s !! k = None) ∧
  averageRating s =
    match rs with
    | [] => AverageZero
    | _ :: _ =>
        AverageFixed
          (JsNumber.toFixed1
             (JsNumber.div (JsNumber.of_Z (sumZ rs))
                (JsNumber.of_Z (Z.of_nat (length rs)))))
    end ∧
  (length rs + improvementFeedback s ≤ totalFeedback s)%nat.
Proof.
  intros Hsteps Hperm rs s.
  assert (constraints db) as Hcon
    by (apply (steps_constraints empty); [done | apply constraints_empty]).
  destruct (statsOfGroups_tally rs groups Hperm) as (Hc & Hs & Hin & Hout).
  assert (∀ k, ¬ 1 ≤ k ≤ 5 → initialRatings !! k = None) as Hnone.
  { intros k Hk. unfold initialRatings.
    repeat (rewrite lookup_insert_ne by lia). apply lookup_singleton_ne. lia. }
  assert (∀ k, 1 ≤ k ≤ 5 → initialRatings !! k = Some (Count 0)) as Hzero.
  { intros k Hk. unfold initialRatings.
    assert (k = 1 ∨ k = 2 ∨ k = 3 ∨ k = 4 ∨ k = 5) as Hcases by lia.
    destruct Hcases as [->|[->|[->|[->| ->]]]]; done. }
  subst s. unfold statsOfGroups. cbn zeta. simpl. split_and!.
  - intros k Hk. destruct (decide (k ∈ rs)) as [Hkin|Hkout]; [by apply Hin|].
    rewrite Hout, countOf_absent by done. by apply Hzero.
  - intros k Hk. rewrite Hout; [by apply Hnone|].
    intros Hkin. apply Hk. by apply (ratedRows_in_range u db).
  - rewrite Hc, Hs. by destruct rs.
  - subst rs. unfold ratedRows. clear.
    induction (feedback db) as [|f l IH]; [done|].
    rewrite !filter_cons.
    destruct (decide (feedback_user_id f = u)) as [Hu|Hu].
    + destruct (feedback_type f) eqn:Ht.
      * rewrite decide_True by done.
        rewrite (decide_False (P := _ ∧ comment_rating = improvement_feedback))
          by (by intros [_ ?]).
        set (X := filter _ l) in *.
        change (omap rating (f :: X))
          with (match rating f with
                | Some y => y :: omap rating X
                | None => omap rating X
                end).
        destruct (rating f); cbn [length]; lia.
      * rewrite (decide_False (P := _ ∧ improvement_feedback = comment_rating))
          by (by intros [_ ?]).
        rewrite decide_True by done. cbn [length]. lia.
    + rewrite !decide_False by tauto. done.
Qed.

(** X15. With the database in use, a rating from 1 to 5 is stored in
    the feedback table: [saveCommentRating] succeeds, the rated rows of
    the user grow by this rating, and the statistics of the table count
    it.  The statistics of the learning manager, which read the cache
    of the flat files, do not change. *)
Theorem saveCommentRating_database_counted u commentId r context now rnd m :
  LearningManager.useDatabase m = true →
  1 ≤ r ≤ 5 →
  let res := LearningManager.saveCommentRating u commentId r context now rnd m in
  let uid := user_id (getUserOrCreate u no_hints now (LearningManager.dbManager m)).1 in
  let db := LearningManager.dbManager m in
  let db' := LearningManager.dbManager res.2 in
  success res.1 = true ∧
  ratedRows uid db' = ratedRows uid db ++ [r] ∧
  ratings (DatabaseStats.getUserFeedbackStats uid db') !! r =
    Some (Count (S (countOf r (ratedRows uid db)))) ∧
  ∀ u', LearningManager.getUserFeedbackStats u' res.2 =
        LearningManager.getUserFeedbackStats u' m.
Proof.
  intros Hdb Hr. cbn zeta.
  unfold LearningManager.saveCommentRating. rewrite Hdb.
  unfold LearningManager.saveCommentRatingDB.
  pose proof (getUserOrCreate_registered u no_hints now (LearningManager.dbManager m))
    as Hreg.
  destruct (getUserOrCreate_tables u no_hints now (LearningManager.dbManager m))
    as (_ & _ & Hfb & _).
  destruct (getUserOrCreate u no_hints now (LearningManager.dbManager m))
    as [user db1]. simpl in Hreg, Hfb. simpl.
  unfold saveFeedback.
  rewrite (decide_True (P := rating_check (Some r))) by done.
  rewrite (decide_True (P := Exists _ (users db1))) by done. simpl.
  assert (ratedRows (user_id user)
            (with_feedback db1
               (feedback db1 ++
                [{| feedback_id := feedback_seq db1 + 1;
                    feedback_user_id := user_id user;
                    comment_id := commentId; rating := Some r;
                    feedback_text := None; feedback_type := comment_rating;
                    DatabaseManager.context := context;
                    feedback_created_at := now |}])
               (feedback_seq db1 + 1)) =
          ratedRows (user_id user) (LearningManager.dbManager m) ++ [r]) as Hrows.
  { unfold ratedRows. simpl. rewrite filter_app, omap_app, Hfb. f_equal.
    rewrite filter_cons_True by done. done. }
  split_and!; [done | done | | done].
  unfold DatabaseStats.getUserFeedbackStats, statsOfGroups. simpl.
  rewrite Hrows.
  destruct (statsOfGroups_tally
              (ratedRows (user_id user) (LearningManager.dbManager m) ++ [r])
              (groupByRating
                 (ratedRows (user_id user) (LearningManager.dbManager m) ++ [r])))
    as (_ & _ & Hin & _); [done|].
  rewrite Hin by (apply elem_of_app; right; by left).
  do 2 f_equal. unfold countOf. rewrite filter_app, length_app.
  rewrite filter_cons_True by done. simpl. lia.
Qed.

End DatabaseStatsFacts.

Section RequestsSent.
Import Config Utils QwenApi Retry.

(** X16. When nothing is sent.  [generateComments] returns without a
    result ([undefined]) exactly when the number of retries is below 1,
    and it sends no request exactly in that case or when the text does
    not pass [validateText]; a text that does not pass gives the
    validation error, whatever the server would have answered. *)
Theorem generateComments_without_request cfg text model chatId maxRetries post :
  let retries := orNumber maxRetries (Config.maxRetries cfg) in
  let r := generateComments cfg text model chatId maxRetries post in
  (r.1 = None ↔ retries < 1) ∧
  (r.2 = [] ↔ retries < 1 ∨ ∃ error, validateText text = Some error) ∧
  (∀ error, 1 ≤ retries → validateText text = Some error →
            r.1 = Some (Invalid error)).
Proof.
  cbn zeta. unfold generateComments.
  set (retries := orNumber maxRetries (Config.maxRetries cfg)).
  set (userModel := orString model (qwenModel cfg)).
  destruct (decide (retries < 1)) as [Hlt|Hge].
  - replace (Z.to_nat retries) with 0%nat by lia. simpl.
    split_and!; [tauto | tauto | lia].
  - destruct (validateText text) as [error|] eqn:Hvalid.
    + assert (attempts (Z.to_nat retries) 1 retries text userModel chatId post =
              (Some (Invalid error), [])) as ->.
      { destruct (Z.to_nat retries) as [|fuel] eqn:Hfuel; [lia|]. simpl.
        rewrite decide_True by lia. by rewrite Hvalid. }
      simpl. split_and!.
      * split; [done | lia].
      * split; [eauto | done].
      * by intros ? _ [= ->].
    + destruct (attempts_returns text userModel chatId post retries
                  (Z.to_nat retries) 1 Hvalid) as (k & Hk & Hev & _ & Hres);
        [lia | f_equal; lia |].
      split_and!.
      * split; [|lia]. intros Hnone.
        destruct Hres as [(? & ? & ? & _ & Hr)|(_ & ? & _ & Hr)]; congruence.
      * split.
        -- rewrite Hev. unfold eventsFrom. intros Hnil.
           by apply app_eq_nil in Hnil as [_ ?].
        -- intros [?|[? ?]]; [lia | done].
      * by intros.
Qed.

End RequestsSent.

Section ApiErrors.
Import Utils.

Lemma handleApiError_response_code status dataError :
  code (handleApiError (ResponseError status dataError)) =
    if decide (status = 401) then "AUTH_ERROR"
    else if decide (status = 403) then "FORBIDDEN"
    else if decide (status = 404) then "NOT_FOUND"
    else if decide (status = 429) then "RATE_LIMIT"
    else if decide (status = 500) then "SERVER_ERROR"
    else "HTTP_" +:+ pretty status.
Proof. unfold handleApiError. by repeat case_decide. Qed.

(** X17. What [handleApiError] reports.  The code tells the three kinds
    of failure apart and, for an answer of the server, its status: two
    answers get the same code exactly when their statuses are equal.
    The code is never the initial [UNKNOWN], and the error text is never
    empty. *)
Theorem handleApiError_code_identifies_failure :
  (∀ e, code (handleApiError e) = "NETWORK_ERROR" ↔ e = RequestError) ∧
  (∀ e, code (handleApiError e) = "GENERAL_ERROR" ↔ ∃ message, e = OtherError message) ∧
  (∀ status dataError status' dataError',
     code (handleApiError (ResponseError status dataError)) =
     code (handleApiError (ResponseError status' dataError')) ↔ status = status') ∧
  (∀ e, code (handleApiError e) ≠ "UNKNOWN") ∧
  (∀ e, error (handleApiError e) ≠ "").
Proof.
  split_and!.
  - intros [status dataError| |message]; [|done|done].
    rewrite handleApiError_response_code.
    split; [|done]. by repeat case_decide.
  - intros [status dataError| |message]; [| |split; eauto].
    + rewrite handleApiError_response_code.
      split; [by repeat case_decide | by intros [? ?]].
    + split; [done | by intros [? ?]].
  - intros status dataError status' dataError'.
    rewrite !handleApiError_response_code.
    split; [|by intros ->].
    repeat case_decide; subst; try done.
    intros Heq. simpl in Heq. injection Heq as Heq. by apply (inj pretty).
  - intros [status dataError| |message]; [|done|done].
    rewrite handleApiError_response_code. by repeat case_decide.
  - intros [status dataError| |message]; simpl.
    + destruct dataError as [d|]; repeat case_decide; simpl; done.
    + done.
    + destruct message as [s|]; [|done]. by case_decide.
Qed.

End ApiErrors.

Section CleanTextFacts.
Import CleanText.
Context {char : Type} `{EqDecision char}.
Variable isSpace : char → bool.
Variables space newline : char.
Hypothesis space_is_space : isSpace space = true.
Hypothesis newline_is_space : isSpace newline = true.
Hypothesis space_not_newline : space ≠ newline.

Local Abbreviation collapseSpaces := (collapseSpaces isSpace space).
Local Abbreviation dropBlankLines := (dropBlankLines isSpace newline).
Local Abbreviation trimStart := (trimStart isSpace).
Local Abbreviation trimEnd := (trimEnd isSpace).
Local Abbreviation trim := (trim isSpace).
Local Abbreviation cleanText := (cleanText isSpace space newline).
Local Abbreviation tidy := (tidy isSpace space).
Local Abbreviation visible := (λ c : char, isSpace c = false).

Lemma tidy_collapseSpaces b text : tidy b (collapseSpaces b text).
Proof.
  revert b. induction text as [|c rest IH]; intros b; simpl; [done|].
  destruct (isSpace c) eqn:Hc.
  - destruct b; [apply IH|]. simpl. rewrite space_is_space. auto.
  - simpl. rewrite Hc. apply IH.
Qed.

Lemma tidy_weaken b text : tidy b text → tidy false text.
Proof.
  destruct text as [|c rest]; simpl; [done|].
  destruct (isSpace c); [|done]. tauto.
Qed.

Lemma tidy_trimStart b text : tidy b text → tidy true (trimStart text).
Proof.
  revert b. induction text as [|c rest IH]; intros b; simpl; [done|].
  destruct (isSpace c) eqn:Hc.
  - intros (_ & _ & Hrest). by apply (IH true).
  - simpl. by rewrite Hc.
Qed.

Lemma tidy_trimEnd b text : tidy b text → tidy b (trimEnd text).
Proof.
  revert b. induction text as [|c rest IH]; intros b; simpl; [done|].
  destruct (trimEnd rest) as [|k kept] eqn:Hkept.
  - destruct (isSpace c) eqn:Hc; simpl; [done|]. by rewrite Hc.
  - destruct (isSpace c) eqn:Hc; cbn [CleanText.tidy]; rewrite Hc.
    + intros (? & ? & Hrest). split_and!; [done | done |]. by apply (IH true).
    + intros Hrest. by apply (IH false).
Qed.

Lemma tidy_spaces b text c :
  tidy b text → c ∈ text → isSpace c = true → c = space.
Proof.
  revert b. induction text as [|d rest IH]; intros b Ht Hin Hc;
    [by apply elem_of_nil in Hin|].
  simpl in Ht. apply elem_of_cons in Hin as [->|Hin].
  - rewrite Hc in Ht. tauto.
  - destruct (isSpace d); [destruct Ht as (_ & _ & Ht)|]; eauto.
Qed.

Lemma tidy_adjacent b text front x y rest :
  tidy b text → text = front ++ x :: y :: rest →
  isSpace x = true → isSpace y = false.
Proof.
  revert b text. induction front as [|d front IH]; intros b text Ht -> Hx.
  - simpl in Ht. rewrite Hx in Ht. destruct Ht as (_ & _ & Ht).
    destruct (isSpace y); [|done]. by destruct Ht as (_ & ? & _).
  - simpl in Ht. destruct (isSpace d); [destruct Ht as (_ & _ & Ht)|]; eauto.
Qed.

Lemma tidy_no_newline b text c : tidy b text → c ∈ text → c ≠ newline.
Proof.
  intros Ht Hin ->. apply space_not_newline. symmetry.
  by apply (tidy_spaces b text).
Qed.

Lemma tidy_collapseSpaces_id b text : tidy b text → collapseSpaces b text = text.
Proof.
  revert b. induction text as [|c rest IH]; intros b; simpl; [done|].
  destruct (isSpace c) eqn:Hc.
  - intros (-> & -> & Hrest). by rewrite IH.
  - intros Hrest. by rewrite IH.
Qed.

Lemma dropBlankLines_no_newline fuel text :
  (∀ c, c ∈ text → c ≠ newline) → dropBlankLines fuel text = text.
Proof.
  revert text. induction fuel as [|fuel IH]; intros text Hno; [by destruct text|].
  destruct text as [|c rest]; [done|]. simpl.
  rewrite decide_False by (apply Hno; by left).
  rewrite IH; [done|]. intros d Hd. apply Hno. by right.
Qed.

Lemma trimEnd_last text front c : trimEnd text = front ++ [c] → isSpace c = false.
Proof.
  revert front. induction text as [|d rest IH]; intros front; simpl.
  - by destruct front.
  - destruct (trimEnd rest) as [|k kept] eqn:Hkept.
    + destruct (isSpace d) eqn:Hd; [by destruct front|].
      destruct front as [|? [|? ?]]; [|done|done]. by intros [= <-].
    + destruct front as [|f front]; [done|]. intros [= _ Heq]. by apply (IH front).
Qed.

Lemma trimEnd_idemp text : trimEnd (trimEnd text) = trimEnd text.
Proof.
  induction text as [|c rest IH]; simpl; [done|].
  destruct (trimEnd rest) as [|k kept] eqn:Hkept.
  - destruct (isSpace c) eqn:Hc; simpl; [done|]. by rewrite Hc.
  - change (trimEnd (c :: k :: kept))
      with (match trimEnd (k :: kept) with
            | [] => if isSpace c then [] else [c]
            | kept' => c :: kept'
            end).
    by rewrite IH.
Qed.

Lemma tidy_trimStart_id text : tidy true text → trimStart text = text.
Proof.
  destruct text as [|c rest]; simpl; [done|].
  destruct (isSpace c); [|done]. by intros (_ & ? & _).
Qed.

Lemma visible_collapseSpaces b text :
  filter visible (collapseSpaces b text) = filter visible text.
Proof.
  revert b. induction text as [|c rest IH]; intros b; simpl; [done|].
  destruct (isSpace c) eqn:Hc.
  - rewrite (filter_cons_False visible c) by (by rewrite Hc).
    destruct b; [apply IH|].
    rewrite filter_cons_False by (by rewrite space_is_space). apply IH.
  - rewrite !filter_cons_True by done. by rewrite IH.
Qed.

Lemma visible_trimStart text : filter visible (trimStart text) = filter visible text.
Proof.
  induction text as [|c rest IH]; simpl; [done|].
  destruct (isSpace c) eqn:Hc; [|done].
  by rewrite (filter_cons_False visible c) by (by rewrite Hc).
Qed.

Lemma visible_trimEnd text : filter visible (trimEnd text) = filter visible text.
Proof.
  induction text as [|c rest IH]; simpl; [done|].
  rewrite (filter_cons visible c rest), <- IH.
  destruct (trimEnd rest) as [|k kept] eqn:Hkept.
  - destruct (isSpace c) eqn:Hc.
    + by rewrite decide_False by done.
    + by rewrite decide_True, filter_cons_True by done.
  - by rewrite (filter_cons visible c (k :: kept)).
Qed.

(** X18. The text that goes into a request.  After the white-space
    runs have been replaced by single spaces there is no line break
    left, so the second replacement of [cleanText] changes nothing.
    The result keeps the code units that are not white space, in their
    order; its white space is single spaces, none of them adjacent to
    another and none at either end; and cleaning a cleaned text changes
    nothing. *)
Theorem cleanText_normal_form text :
  let collapsed := collapseSpaces false text in
  let r := cleanText text in
  dropBlankLines (length collapsed) collapsed = collapsed ∧
  filter visible r = filter visible text ∧
  (∀ c, c ∈ r → isSpace c = true → c = space) ∧
  (∀ c rest, r = c :: rest → isSpace c = false) ∧
  (∀ front c, r = front ++ [c] → isSpace c = false) ∧
  (∀ front a b rest, r = front ++ a :: b :: rest →
                     isSpace a = true → isSpace b = false) ∧
  cleanText r = r.
Proof.
  intros collapsed r.
  pose proof (tidy_collapseSpaces false text) as Hcollapsed.
  fold collapsed in Hcollapsed.
  assert (dropBlankLines (length collapsed) collapsed = collapsed) as Hdrop.
  { apply dropBlankLines_no_newline. intros c. by apply (tidy_no_newline false). }
  assert (r = trimEnd (trimStart collapsed)) as Hr.
  { subst r. unfold CleanText.cleanText. fold collapsed. by rewrite Hdrop. }
  assert (tidy true r) as Htidy.
  { rewrite Hr. apply tidy_trimEnd. by apply (tidy_trimStart false). }
  split_and!.
  - done.
  - rewrite Hr, visible_trimEnd, visible_trimStart. apply visible_collapseSpaces.
  - intros c. by apply (tidy_spaces true).
  - intros c rest Heq. rewrite Heq in Htidy. simpl in Htidy.
    destruct (isSpace c); [|done]. by destruct Htidy as (_ & ? & _).
  - intros front c Heq. apply (trimEnd_last (trimStart collapsed) front).
    by rewrite <- Hr.
  - intros front a b rest. by apply (tidy_adjacent true).
  - unfold CleanText.cleanText.
    rewrite (tidy_collapseSpaces_id false r) by (by apply (tidy_weaken true)).
    rewrite dropBlankLines_no_newline
      by (intros c; by apply (tidy_no_newline true)).
    unfold CleanText.trim. rewrite tidy_trimStart_id by done.
    rewrite Hr. apply trimEnd_idemp.
Qed.

End CleanTextFacts.

Section MigrationFacts.
Import DatabaseManager DatabaseInvariant Migration.

(** The UPDATE of [createChat], on shapes. *)
Local Abbreviation off uid :=
  (λ s : Z * string * bool, if decide (s.1.1 = uid) then (s.1.1, s.1.2, false) else s).

Lemma shape_updateStats i mc t (cs : list ChatRow) :
  shape <$> (updateStats i mc t <$> cs) = shape <$> cs.
Proof.
  rewrite <- list_fmap_compose. apply list_fmap_ext. intros _ c _. simpl.
  unfold updateStats. by case_decide.
Qed.

Lemma shape_deactivate_all uid (cs : list ChatRow) :
  shape <$> deactivate_all uid cs = off uid <$> (shape <$> cs).
Proof.
  unfold deactivate_all. rewrite <- !list_fmap_compose.
  apply list_fmap_ext. intros _ c _. simpl. by case_decide.
Qed.

Lemma migrateChat_shape clock uid db n chat :
  Exists (λ u, user_id u = uid) (users db) →
  users (migrateChat clock uid (db, n) chat).1 = users db ∧
  shape <$> chats (migrateChat clock uid (db, n) chat).1 =
    (off uid <$> (shape <$> chats db)) ++ [(uid, ChatManager.name chat, true)].
Proof.
  intros Huser. unfold migrateChat, createChat.
  rewrite decide_True by done.
  case_decide; simpl; rewrite ?shape_updateStats, fmap_app, shape_deactivate_all;
    done.
Qed.

Lemma migrateChat_foldl clock uid db n cs c :
  Exists (λ u, user_id u = uid) (users db) →
  users (foldl (migrateChat clock uid) (db, n) (cs ++ [c])).1 = users db ∧
  shape <$> chats (foldl (migrateChat clock uid) (db, n) (cs ++ [c])).1 =
    (off uid <$> (shape <$> chats db)) ++
    ((λ c', (uid, ChatManager.name c', false)) <$> cs) ++
    [(uid, ChatManager.name c, true)].
Proof.
  intros Huser. revert c. induction cs as [|c' cs IH] using rev_ind; intros c.
  - simpl. by apply migrateChat_shape.
  - rewrite foldl_app. cbn [foldl].
    destruct (IH c') as [Husers Hshape].
    destruct (foldl (migrateChat clock uid) (db, n) (cs ++ [c'])) as [db1 n1].
    simpl in Husers, Hshape.
    destruct (migrateChat_shape clock uid db1 n1 c) as [Husers' Hshape'];
      [by rewrite Husers|].
    split; [congruence|]. rewrite Hshape', Hshape.
    rewrite !fmap_app, <- !(assoc_L (++)). f_equal.
    + rewrite <- list_fmap_compose. apply list_fmap_ext.
      intros _ [[u nm] a] _. simpl.
      destruct (decide (u = uid)) as [Hu|Hu]; simpl.
      * by rewrite decide_True by done.
      * by rewrite decide_False by done.
    + f_equal.
      * rewrite <- list_fmap_compose. apply list_fmap_ext. intros _ x _. simpl.
        by rewrite decide_True by done.
      * simpl. by rewrite decide_True by done.
Qed.

Lemma filter_keeps_all {A} (P : A → Prop) `{!∀ x, Decision (P x)} (l : list A) :
  (∀ x, x ∈ l → P x) → filter P l = l.
Proof.
  induction l as [|x l IH]; intros Hall; [done|].
  rewrite filter_cons, decide_True by (apply Hall; by left).
  f_equal. apply IH. intros y Hy. apply Hall. by right.
Qed.

Lemma filter_drops_all {A} (P : A → Prop) `{!∀ x, Decision (P x)} (l : list A) :
  (∀ x, x ∈ l → ¬ P x) → filter P l = [].
Proof.
  induction l as [|x l IH]; intros Hall; [done|].
  rewrite filter_cons, decide_False by (apply Hall; by left).
  apply IH. intros y Hy. apply Hall. by right.
Qed.

Lemma off_user_names uid (L : list (Z * string * bool)) :
  (λ s, s.1.2) <$> filter (λ s, s.1.1 = uid) (off uid <$> L) =
  (λ s, s.1.2) <$> filter (λ s, s.1.1 = uid) L.
Proof.
  induction L as [|[[u nm] a] L IH]; [done|].
  rewrite fmap_cons, !filter_cons. cbn [fst snd].
  destruct (decide (u = uid)) as [Hu|Hu]; cbn [fst snd].
  - rewrite decide_True by done. rewrite !fmap_cons. f_equal. exact IH.
  - rewrite decide_False by done. exact IH.
Qed.

Lemma off_active uid (L : list (Z * string * bool)) :
  filter (λ s, s.1.1 = uid ∧ s.2 = true) (off uid <$> L) = [].
Proof.
  induction L as [|[[u nm] a] L IH]; [done|].
  rewrite fmap_cons, filter_cons, IH. cbn [fst snd].
  destruct (decide (u = uid)) as [Hu|Hu]; cbn [fst snd].
  - by rewrite decide_False by (by intros [_ ?]).
  - by rewrite decide_False by tauto.
Qed.

Lemma filter_shape (P : Z * string * bool → Prop) `{!∀ s, Decision (P s)}
    (cs : list ChatRow) :
  shape <$> filter (λ c, P (shape c)) cs = filter P (shape <$> cs).
Proof.
  induction cs as [|c cs IH]; [done|].
  rewrite fmap_cons, !filter_cons. case_decide; [|done].
  by rewrite fmap_cons, IH.
Qed.

(** X19. Migration of the chats of one user.  The chats of the flat
    files become rows of the user, after those the user already had and
    in their order, with their names; whichever chat was active in the
    flat files, the row of the last chat of the list is the active one
    afterwards, and the only one. *)
Theorem migrateUser_last_chat_active clock db n telegramId d :
  let uid := user_id (getUserOrCreate telegramId no_hints (clock n) db).1 in
  let db' := (migrateUser clock (db, n) (telegramId, d)).1 in
  name <$> filter (λ c, chat_user_id c = uid) (chats db') =
    (name <$> filter (λ c, chat_user_id c = uid) (chats db)) ++
    (ChatManager.name <$> ChatManager.chats d) ∧
  (∀ front c, ChatManager.chats d = front ++ [c] →
     ∃ row, getActiveChat uid db' = Ok row ∧
            name row = ChatManager.name c ∧
            activeChats uid db' = [row]).
Proof.
  cbn zeta. unfold migrateUser. simpl.
  pose proof (getUserOrCreate_registered telegramId no_hints (clock n) db) as Hreg.
  destruct (getUserOrCreate_tables telegramId no_hints (clock n) db)
    as (Hchats & _).
  destruct (getUserOrCreate telegramId no_hints (clock n) db) as [user db1].
  simpl in Hreg, Hchats. simpl. rewrite <- Hchats.
  set (uid := user_id user) in *.
  assert (∀ cs : list ChatRow,
            name <$> filter (λ c, chat_user_id c = uid) cs =
            (λ s, s.1.2) <$> filter (λ s, s.1.1 = uid) (shape <$> cs)) as Hnames.
  { intros cs.
    rewrite <- (filter_shape (λ s, s.1.1 = uid)), <- list_fmap_compose. done. }
  assert (∀ l : list ChatManager.Chat, l = [] ∨ ∃ l' c0, l = l' ++ [c0]) as Hcases.
  { intros l. induction l using rev_ind; eauto. }
  destruct (Hcases (ChatManager.chats d)) as [->|(l & c0 & ->)].
  - simpl. split; [by rewrite app_nil_r|]. intros [|? ?] ? ?; done.
  - destruct (migrateChat_foldl clock uid db1 (S n) l c0 Hreg) as [_ Hshape].
    split.
    + rewrite !Hnames, Hshape, !filter_app, !fmap_app, off_user_names.
      f_equal. f_equal.
      * rewrite (filter_keeps_all (λ s : Z * string * bool, s.1.1 = uid)).
        -- by rewrite <- list_fmap_compose.
        -- intros s (c' & -> & _)%list_elem_of_fmap. done.
      * by rewrite filter_cons_True by done.
    + intros front c [-> ->]%app_inj_tail.
      assert (shape <$> activeChats uid
                (foldl (migrateChat clock uid) (db1, S n) (front ++ [c])).1 =
              [(uid, ChatManager.name c, true)]) as Hactive.
      { unfold activeChats.
        etrans; [exact (filter_shape (λ s, s.1.1 = uid ∧ s.2 = true) _)|].
        rewrite Hshape, !filter_app, off_active.
        rewrite (filter_drops_all (λ s : Z * string * bool, s.1.1 = uid ∧ s.2 = true)
                   ((λ c', (uid, ChatManager.name c', false)) <$> front)).
        - by rewrite filter_cons_True by done.
        - intros s (c' & -> & _)%list_elem_of_fmap [_ ?]. done. }
      destruct (activeChats uid _) as [|row [|? ?]] eqn:Hrows; [done| |done].
      injection Hactive as Hrow. exists row.
      unfold getActiveChat. unfold activeChats in Hrows. rewrite Hrows.
      rewrite order_by_singleton. split_and!; [done | | done].
      unfold shape in Hrow. congruence.
Qed.

Lemma migrateUser_length clock db n entry :
  length (chats (migrateUser clock (db, n) entry).1) =
  (length (chats db) + length (ChatManager.chats entry.2))%nat.
Proof.
  unfold migrateUser.
  pose proof (getUserOrCreate_registered entry.1 no_hints (clock n) db) as Hreg.
  destruct (getUserOrCreate_tables entry.1 no_hints (clock n) db) as (Hchats & _).
  destruct (getUserOrCreate entry.1 no_hints (clock n) db) as [user db1].
  simpl in Hreg, Hchats. rewrite <- Hchats.
  assert (∀ l : list ChatManager.Chat, l = [] ∨ ∃ l' c0, l = l' ++ [c0]) as Hcases.
  { intros l. induction l using rev_ind; eauto. }
  destruct (Hcases (ChatManager.chats entry.2)) as [->|(l & c0 & ->)].
  - simpl. lia.
  - destruct (migrateChat_foldl clock (user_id user) db1 (S n) l c0 Hreg)
      as [_ Hshape].
    apply (f_equal length) in Hshape.
    rewrite !length_app, !length_fmap in Hshape. rewrite length_app. simpl in *. lia.
Qed.

(** X20. Migration of all chats.  Every chat of the flat files becomes
    a row of the table: the run adds as many rows as the flat files hold
    chats, whatever the table held before. *)
Theorem migrateChats_row_count clock userChats db :
  length (chats (migrateChats clock userChats db)) =
  (length (chats db) +
   sum_list ((λ entry, length (ChatManager.chats entry.2)) <$> userChats))%nat.
Proof.
  unfold migrateChats. generalize 0%nat. revert db.
  induction userChats as [|entry userChats IH]; intros db n; [simpl; lia|].
  rewrite fmap_cons. cbn [foldl].
  pose proof (migrateUser_length clock db n entry) as Hlen.
  destruct (migrateUser clock (db, n) entry) as [db1 n1].
  rewrite IH. simpl in *. lia.
Qed.

End MigrationFacts.

Section BotMonitorFacts.
Import BotMonitor.

Lemma run_spawns restartCount endings :
  (length (filter (λ a, a = Spawn) (run restartCount endings)) ≤
   maxRestarts - restartCount)%nat.
Proof.
  revert restartCount. induction endings as [|e rest IH]; intros rc; [simpl; lia|].
  cbn [run]. destruct (onEnding rc e) as [rc' action] eqn:Hon.
  assert (action = Spawn → (rc' = S rc ∧ S rc ≤ maxRestarts)%nat) as Hspawn.
  { intros ->. unfold onEnding, handleRestart in Hon.
    destruct e; repeat case_decide; simplify_eq; done. }
  destruct action.
  - destruct Hspawn as [-> Hle]; [done|].
    rewrite filter_cons_True by done. cbn [length].
    specialize (IH (S rc)). lia.
  - rewrite filter_cons_False by done. simpl. lia.
  - rewrite filter_cons_False by done. simpl. lia.
Qed.

Lemma run_crashes restartCount endings :
  Forall crashed endings →
  (restartCount ≤ maxRestarts)%nat →
  (maxRestarts - restartCount < length endings)%nat →
  run restartCount endings =
    replicate (maxRestarts - restartCount) Spawn ++ [ProcessExit].
Proof.
  revert restartCount. induction endings as [|e rest IH]; intros rc Hall Hrc Hlen;
    [simpl in Hlen; lia|].
  apply Forall_cons in Hall as [He Hall]. cbn [run length] in *.
  destruct (decide (rc < maxRestarts)%nat) as [Hlt|Hge].
  - assert (onEnding rc e = (S rc, Spawn)) as ->.
    { unfold onEnding, handleRestart.
      destruct e as [|code].
      - by rewrite decide_True by lia.
      - rewrite decide_True by (split; [by intros -> | done]).
        by rewrite decide_True by lia. }
    rewrite IH by (done || lia).
    replace (maxRestarts - rc)%nat with (S (maxRestarts - S rc)) by lia. done.
  - assert (onEnding rc e = (S rc, ProcessExit) ∨ onEnding rc e = (rc, ProcessExit))
      as [-> | ->].
    { unfold onEnding, handleRestart. destruct e as [|code].
      - left. by rewrite decide_False by lia.
      - right. rewrite decide_False by (intros [_ ?]; lia).
        by rewrite decide_True by lia. }
    + by replace (maxRestarts - rc)%nat with 0%nat by lia.
    + by replace (maxRestarts - rc)%nat with 0%nat by lia.
Qed.

(** X21. The monitor restarts the bot a bounded number of times.
    Whatever way the bot processes end, the bot is started at most
    eleven times (the first start and ten restarts); and when it keeps
    crashing, it is started exactly eleven times and the monitor then
    leaves with [process.exit(1)]. *)
Theorem monitor_restarts_bounded endings :
  (length (filter (λ a, a = Spawn) (start endings)) ≤ S maxRestarts)%nat ∧
  (Forall crashed endings → (maxRestarts < length endings)%nat →
   start endings = replicate (S maxRestarts) Spawn ++ [ProcessExit]).
Proof.
  unfold start. split.
  - rewrite filter_cons_True by done. cbn [length].
    pose proof (run_spawns 0 endings). lia.
  - intros Hall Hlen. rewrite (run_crashes 0 endings) by (done || lia).
    done.
Qed.

End BotMonitorFacts.

Section StartCommand.
Import Config ChatManager ChatStore TelegramBot.

Lemma createChatDB_useDatabase cfg u chatName now m :
  useDatabase (createChatDB cfg u chatName now m).2 = useDatabase m.
Proof.
  unfold createChatDB.
  destruct (DatabaseManager.getUserOrCreate _ _ _ _) as [user db].
  repeat case_decide; try done.
  destruct (getUserModel _ _ _) as [model us].
  by destruct (DatabaseManager.createChat _ _ _ _ _) as [r db'].
Qed.

Lemma getUserData_no_chats u uc :
  (∀ u' d, uc !! u' = Some d → chats d = []) →
  chats (getUserData u uc).1 = [] ∧
  (∀ u' d, (getUserData u uc).2 !! u' = Some d → chats d = []).
Proof.
  intros Hno. unfold getUserData. destruct (uc !! u) as [d|] eqn:Hu; simpl.
  - split; [by apply (Hno u) | done].
  - split; [done|]. intros u' d. rewrite lookup_insert.
    case_decide; [by intros [= <-] | apply Hno].
Qed.

(** With the database in use, the operations of the chat manager never
    put a chat into the flat-file store. *)
Lemma step_database_mode cfg m m' :
  step cfg m m' →
  useDatabase m = true ∧ (∀ u d, userChats m !! u = Some d → chats d = []) →
  useDatabase m' = true ∧ (∀ u d, userChats m' !! u = Some d → chats d = []).
Proof.
  intros Hstep [Hdb Hno]. destruct Hstep.
  - unfold createChat. rewrite Hdb.
    by rewrite createChatDB_useDatabase, createChatDB_userChats.
  - unfold selectChatJSON.
    destruct (getUserData_no_chats u (userChats m) Hno) as [Hd Huc].
    destruct (getUserData u (userChats m)) as [d uc]. simpl in *.
    by rewrite Hd.
  - unfold renameChat.
    destruct (getUserData_no_chats u (userChats m) Hno) as [Hd Huc].
    destruct (getUserData u (userChats m)) as [d uc]. simpl in *.
    by rewrite Hd.
  - unfold deleteChat.
    destruct (getUserData_no_chats u (userChats m) Hno) as [Hd Huc].
    destruct (getUserData u (userChats m)) as [d uc]. simpl in *.
    by rewrite Hd.
  - unfold getChatsJSON.
    destruct (getUserData_no_chats u (userChats m) Hno) as [Hd Huc].
    by destruct (getUserData u (userChats m)) as [d uc].
  - unfold getActiveChatJSON.
    destruct (getUserData_no_chats u (userChats m) Hno) as [Hd Huc].
    destruct (getUserData u (userChats m)) as [d uc]. simpl in *.
    destruct (activeChatId d) as [a|]; [|done].
    case_decide; [done|]. by rewrite Hd.
  - unfold updateChatStats.
    destruct (getUserData_no_chats u (userChats m) Hno) as [Hd Huc].
    destruct (getUserData u (userChats m)) as [d uc]. simpl in *.
    by rewrite Hd.
  - split; [done|]. intros u d. simpl. rewrite lookup_fmap.
    destruct (userChats m !! u) as [d0|] eqn:Hu; [|discriminate].
    simpl. intros [= <-]. simpl. by rewrite (Hno u d0 Hu).
Qed.

(** The operations that only write the database or the settings are
    steps of [BotRun.step]. *)
Lemma step_selectChatDB cfg u chatId now m :
  BotRun.step cfg m (ChatSelect.selectChatDB u chatId now m).2.
Proof.
  unfold ChatSelect.selectChatDB.
  destruct (DatabaseManager.getUserOrCreate u _ now (dbManager m)) as [user db].
  destruct (list_find _ _) as [[i c]|]; apply BotRun.step_database.
Qed.

Lemma step_setUserModel cfg u model m :
  BotRun.step cfg m (UserModel.setUserModel cfg u model m).2.
Proof.
  unfold UserModel.setUserModel.
  destruct (getUserModel cfg u (userSettings m)) as [old us].
  apply BotRun.step_database.
Qed.

Lemma handleStart_database_mode cfg u now rnd m :
  useDatabase m = true ∧ (∀ u d, userChats m !! u = Some d → chats d = []) →
  useDatabase (handleStart cfg u now rnd m) = true ∧
  (∀ u' d, userChats (handleStart cfg u now rnd m) !! u' = Some d → chats d = []).
Proof.
  intros [Hdb Hno]. unfold handleStart.
  destruct (getUserData_no_chats u (userChats m) Hno) as [Hd Huc].
  destruct (getUserData u (userChats m)) as [d uc]. simpl in Hd, Huc.
  rewrite Hd. simpl. unfold createChat. simpl. rewrite Hdb.
  by rewrite createChatDB_useDatabase, createChatDB_userChats.
Qed.

(** With the database in use, no run of the bot puts a chat into the
    flat-file store. *)
Lemma run_database_mode cfg m m' :
  rtc (BotRun.step cfg) m m' →
  useDatabase m = true ∧ (∀ u d, userChats m !! u = Some d → chats d = []) →
  useDatabase m' = true ∧ (∀ u d, userChats m' !! u = Some d → chats d = []).
Proof.
  induction 1 as [|m1 m2 m3 Hstep _ IH]; [done|].
  intros Hinv. apply IH. destruct Hstep.
  - by eapply step_database_mode.
  - done.
  - by apply handleStart_database_mode.
Qed.

(** X22. [/start] with the database in use.  The handler looks for the
    chats of the user in the flat-file store, which is empty when the
    bot starts on the database and never gets a chat from then on,
    whatever has been done to the database: so every [/start] of a user
    below the chat limit, also one who has chats, creates one more chat
    named [mainChatName] and makes it the active one. *)
Theorem handleStart_database_adds_chat cfg m0 m u now rnd t :
  BotRun.started_on_database m0 →
  rtc (BotRun.step cfg) m0 m →
  (chatCount u t m < maxChatsPerUser cfg)%nat →
  (String.length mainChatName ≤ maxChatNameLength cfg)%nat →
  let m' := handleStart cfg u now rnd m in
  chatCount u t m' = S (chatCount u t m) ∧
  ∃ row, (getActiveChat u t m').1 = Ok (DbChat row) ∧
         DatabaseManager.name row = mainChatName.
Proof.
  intros [Hdb0 Hempty] Hsteps Hcount Hname.
  destruct (run_database_mode cfg m0 m Hsteps) as [Hdb Hno].
  { split; [done|]. intros u' d. by rewrite Hempty, lookup_empty. }
  cbn zeta. unfold handleStart.
  destruct (getUserData_no_chats u (userChats m) Hno) as [Hd _].
  destruct (getUserData u (userChats m)) as [d uc]. simpl in Hd.
  rewrite Hd. simpl.
  set (m1 := with_userChats m uc).
  assert (useDatabase m1 = true) as Hdb1 by done.
  assert (dbManager m1 = dbManager m) as Hdbm by done.
  rewrite (chatCount_db u t now m) in Hcount by done.
  rewrite (chatCount_db u t now m) by done.
  unfold createChat. rewrite Hdb1.
  pose proof (createChatDB_ok cfg u mainChatName now m1) as Hcreate.
  simpl in Hcreate. specialize (Hcreate Hcount Hname).
  pose proof (getActiveChatDB_createChatDB cfg u mainChatName now m1 _ _ Hcreate t)
    as Hactive.
  subst m1. rewrite Hcreate in *. simpl in Hcreate, Hactive, Hcount |- *.
  destruct (getUserOrCreate_find u DatabaseManager.no_hints now (dbManager m))
    as [i Hfind].
  destruct (DatabaseManager.getUserOrCreate u DatabaseManager.no_hints now
              (dbManager m)) as [user db] eqn:Hg.
  simpl in Hcreate, Hactive, Hcount, Hfind |- *. split.
  - rewrite (chatCount_db u t now) by done. simpl.
    rewrite (getUserOrCreate_found u _ now _ i user) by done. simpl.
    rewrite !getUserChats_length. simpl.
    rewrite filter_app, filter_user_deactivate_all, length_app, length_fmap.
    rewrite filter_cons_True by done. simpl. lia.
  - unfold getActiveChat. cbn [useDatabase with_db with_userChats].
    rewrite Hdb. eexists. split; [exact Hactive | done].
Qed.

(** X23. [/start] on the flat files.  A user without chats gets the
    chat [mainChatName], which is then the active one; for a user who
    has a chat, and so for every later [/start], nothing changes. *)
Theorem handleStart_flat_files_once cfg m u now rnd now' rnd' :
  useDatabase m = false →
  (1 ≤ maxChatsPerUser cfg)%nat →
  (String.length mainChatName ≤ maxChatNameLength cfg)%nat →
  let d := (getUserData u (userChats m)).1 in
  let m' := handleStart cfg u now rnd m in
  let d' := (getUserData u (userChats m')).1 in
  (chats d = [] →
   ∃ c, chats d' = [c] ∧ name c = mainChatName ∧
        (getActiveChatJSON u m').1 = Ok c) ∧
  (chats d ≠ [] → d' = d) ∧
  userChats (handleStart cfg u now' rnd' m') = userChats m'.
Proof.
  intros Hdb Hmax Hname. cbn zeta.
  assert (∀ m0, useDatabase m0 = false →
            chats (getUserData u (userChats m0)).1 ≠ [] →
            userChats (handleStart cfg u now' rnd' m0) =
              (getUserData u (userChats m0)).2) as Hlater.
  { intros m0 Hdb0 Hne. unfold handleStart.
    destruct (getUserData u (userChats m0)) as [d0 uc0]. simpl in *.
    rewrite decide_False; [done|]. by destruct (chats d0). }
  pose proof (getUserData_again u (userChats m)) as Hagain.
  pose proof (createChatJSON_appends cfg u mainChatName now rnd
                (with_userChats m (getUserData u (userChats m)).2)) as Hcreate.
  cbn zeta in Hcreate. cbn [userChats with_userChats] in Hcreate.
  rewrite Hagain in Hcreate.
  assert (handleStart cfg u now rnd m =
          if decide (length (chats (getUserData u (userChats m)).1) = 0%nat)
          then (createChat cfg u mainChatName now rnd
                  (with_userChats m (getUserData u (userChats m)).2)).2
          else with_userChats m (getUserData u (userChats m)).2) as ->.
  { unfold handleStart. by destruct (getUserData u (userChats m)). }
  destruct (getUserData u (userChats m)) as [d uc] eqn:Hg.
  cbn [fst snd] in *.
  destruct (chats d) as [|c0 cs] eqn:Hd.
  - rewrite (decide_True (P := length [] = 0%nat)) by done. unfold createChat.
    cbn [useDatabase with_userChats]. rewrite Hdb.
    rewrite Hcreate by (done || (simpl; lia)).
    cbn [fst snd userChats with_userChats].
    split_and!; [|done|].
    + intros _. rewrite getUserData_insert. eexists.
      split_and!; [done | done |].
      unfold getActiveChatJSON, getUserData. simpl. rewrite lookup_insert_eq.
      simpl.
      by rewrite (decide_True (P := newChatId now rnd = newChatId now rnd)).
    + rewrite Hlater; cbn [useDatabase userChats with_userChats];
        [|done|by rewrite getUserData_insert].
      unfold getUserData. by rewrite lookup_insert_eq.
  - rewrite (decide_False (P := length (c0 :: cs) = 0%nat)) by done.
    cbn [userChats with_userChats].
    split_and!; [done| |].
    + intros _. by rewrite Hagain.
    + rewrite Hlater; cbn [useDatabase userChats with_userChats];
        [|done|rewrite Hagain; cbn [fst]; by rewrite Hd].
      by rewrite Hagain.
Qed.

End StartCommand.

Section ChatCleanupFacts.
Import ChatCleanup.

Lemma sortChats_sorted l : StronglySorted newer_first (sortChats l) ∧ sortChats l ≡ₚ l.
Proof.
  unfold sortChats. split.
  - apply StronglySorted_merge_sort.
    + intros a b c. unfold newer_first. lia.
    + intros a b. unfold newer_first. lia.
  - apply merge_sort_Permutation.
Qed.

(** Once the loop deletes a chat, it deletes every chat after it. *)
Lemma sweep_rest now i c rest :
  StronglySorted newer_first (c :: rest) → doomed now i c →
  sweep now (S i) rest = rest ∧ spared now (S i) rest = [].
Proof.
  revert i c. induction rest as [|c' rest IH]; intros i c Hs Hc; [done|].
  apply StronglySorted_inv in Hs as [Hs Hall].
  apply Forall_cons in Hall as [Hc' Hall].
  assert (doomed now (S i) c') as Hd.
  { unfold doomed, newer_first in *. destruct Hc as [?|?]; [left|right]; lia. }
  simpl. rewrite !decide_True by done.
  by destruct (IH (S i) c' Hs Hd) as [-> ->].
Qed.

Lemma sweep_spared now i s :
  StronglySorted newer_first s →
  s = spared now i s ++ sweep now i s ∧
  (length (spared now i s) ≤ MAX_CHATS_PER_USER - i)%nat ∧
  (∀ c, c ∈ spared now i s → now - time c ≤ maxAgeMs).
Proof.
  revert i. induction s as [|c rest IH]; intros i Hs.
  - simpl. split_and!; [done | lia |]. intros c Hc. by apply elem_of_nil in Hc.
  - simpl. destruct (decide (doomed now i c)) as [Hd|Hd].
    + destruct (sweep_rest now i c rest Hs Hd) as [-> ->]. simpl.
      split_and!; [done | lia |]. intros c' Hc'. by apply elem_of_nil in Hc'.
    + apply StronglySorted_inv in Hs as [Hs _].
      destruct (IH (S i) Hs) as (Heq & Hlen & Hage).
      unfold doomed in Hd. split_and!.
      * simpl. by rewrite <- Heq.
      * simpl. lia.
      * intros c' [->|Hc']%elem_of_cons; [lia | by apply Hage].
Qed.

(** X24. The clean-up of a user's chats on the API server.  Of the
    chats, sorted newest first, the loop passes over a front part and
    asks to delete all the rest: it keeps at most five chats, none of
    them older than seven days, and no chat it deletes is newer than one
    it keeps.  When the user has at most five chats and none is older
    than seven days, nothing is deleted. *)
Theorem chat_cleanup_keeps_newest now s :
  StronglySorted newer_first s →
  let keep := spared now 0 s in
  let del := sweep now 0 s in
  s = keep ++ del ∧
  (length keep ≤ MAX_CHATS_PER_USER)%nat ∧
  (∀ c, c ∈ keep → now - time c ≤ maxAgeMs) ∧
  (∀ c c', c ∈ keep → c' ∈ del → time c' ≤ time c) ∧
  ((length s ≤ MAX_CHATS_PER_USER)%nat →
   (∀ c, c ∈ s → now - time c ≤ maxAgeMs) → del = []).
Proof.
  intros Hs. cbn zeta.
  destruct (sweep_spared now 0 s Hs) as (Heq & Hlen & Hage).
  split_and!; [done | lia | done | |].
  - intros c c' Hc Hc'. rewrite Heq in Hs.
    by apply (StronglySorted_app_1_elem_of _ _ _ c c' Hs).
  - intros Hshort Hrecent.
    assert (∀ (l : list RemoteChat) i,
              (i + length l ≤ MAX_CHATS_PER_USER)%nat →
              (∀ c, c ∈ l → now - time c ≤ maxAgeMs) → sweep now i l = []) as Hnone.
    { clear. induction l as [|c rest IH]; intros i Hlen Hrec; [done|].
      simpl in *. rewrite decide_False.
      - apply IH; [lia|]. intros c' Hc'. apply Hrec. by right.
      - unfold doomed. pose proof (Hrec c ltac:(by left)). lia. }
    apply Hnone; [lia | done].
Qed.

End ChatCleanupFacts.

(** * The further properties on concrete runs *)

Section Witnesses.
Import Scenario Runs.

Lemma tablesAB_reachable : rtc DatabaseInvariant.step DatabaseManager.empty tablesAB.
Proof.
  eapply rtc_l;
    [apply (DatabaseInvariant.step_getUserOrCreate alice
              DatabaseManager.no_hints 1000)|].
  eapply rtc_l;
    [apply (DatabaseInvariant.step_createChat 1 "A" "qwen-max-latest" 1000)|].
  eapply rtc_l;
    [apply (DatabaseInvariant.step_createChat 1 "B" "qwen-max-latest" 2000)|].
  apply rtc_refl.
Defined.

Lemma flatAB_reachable :
  rtc (ChatStore.step Config.default) (ChatManager.initial false) flatAB.
Proof.
  eapply rtc_l; [apply (ChatStore.step_createChat _ alice "A" 1000 "a")|].
  eapply rtc_l; [apply (ChatStore.step_createChat _ alice "B" 2000 "b")|].
  apply rtc_refl.
Defined.

Lemma database_constraints_hold_witness : DatabaseInvariant.constraints tablesAB.
Proof. apply (database_constraints_hold tablesAB). exact tablesAB_reachable. Defined.

Lemma at_most_one_active_chat_witness :
  (length (DatabaseInvariant.activeChats 1 tablesAB) ≤ 1)%nat.
Proof. apply (at_most_one_active_chat tablesAB 1). exact tablesAB_reachable. Defined.

Lemma selectChatDB_activates_witness :
  let r := ChatSelect.selectChatDB alice 1 3000 managerAB in
  let uid :=
    DatabaseManager.user_id
      (DatabaseManager.getUserOrCreate alice DatabaseManager.no_hints 3000
         (ChatManager.dbManager managerAB)).1 in
  match r.1 with
  | Ok chat =>
      DatabaseManager.id chat = 1 ∧ DatabaseManager.chat_user_id chat = uid ∧
      chat ∈ DatabaseManager.chats (ChatManager.dbManager managerAB) ∧
      (∀ t, (ChatManager.getActiveChatDB alice t r.2).1 =
            Ok (ChatManager.DbChat
                  {| DatabaseManager.id := 1;
                     DatabaseManager.chat_user_id := uid;
                     DatabaseManager.name := DatabaseManager.name chat;
                     DatabaseManager.model := DatabaseManager.model chat;
                     DatabaseManager.is_active := true;
                     DatabaseManager.message_count :=
                       DatabaseManager.message_count chat;
                     DatabaseManager.created_at := DatabaseManager.created_at chat;
                     DatabaseManager.updated_at := 3000 |})) ∧
      ∀ u', u' ≠ uid →
        filter (λ c, DatabaseManager.chat_user_id c = u')
          (DatabaseManager.chats (ChatManager.dbManager r.2)) =
        filter (λ c, DatabaseManager.chat_user_id c = u')
          (DatabaseManager.chats (ChatManager.dbManager managerAB))
  | Fail e =>
      e = ChatNotFound ∧
      (¬ ∃ c, c ∈ DatabaseManager.chats (ChatManager.dbManager managerAB) ∧
              DatabaseManager.id c = 1 ∧ DatabaseManager.chat_user_id c = uid) ∧
      DatabaseManager.chats (ChatManager.dbManager r.2) =
        DatabaseManager.chats (ChatManager.dbManager managerAB)
  end.
Proof.
  apply (selectChatDB_activates alice 1 3000 managerAB).
  exact tablesAB_reachable.
Defined.

Lemma chat_limit_never_exceeded_witness :
  (length (ChatManager.chats dataAB) ≤ Config.maxChatsPerUser Config.default)%nat.
Proof.
  apply (chat_limit_never_exceeded Config.default false flatAB alice dataAB).
  - exact flatAB_reachable.
  - vm_compute. reflexivity.
Defined.

Lemma getActiveChatJSON_reachable_witness :
  let d := (ChatManager.getUserData alice (ChatManager.userChats flatAB)).1 in
  match (ChatManager.getActiveChatJSON alice flatAB).1 with
  | Ok c =>
      c ∈ ChatManager.chats d ∧
      ChatManager.activeChatId d = Some (ChatManager.id c) ∧
      ChatStoreMore.namedChat d = Some c
  | Fail e => e = NoActiveChat ∧ ChatManager.activeChatId d = None
  end.
Proof.
  apply (getActiveChatJSON_reachable Config.default false flatAB alice).
  exact flatAB_reachable.
Defined.

Lemma selectChatJSON_then_active_witness :
  let chatId := IdString (ChatManager.newChatId 2000 "b") in
  let d := (ChatManager.getUserData alice (ChatManager.userChats flatAB)).1 in
  let r := ChatManager.selectChatJSON alice chatId 5000 flatAB in
  match r.1 with
  | Ok c =>
      IdString (ChatManager.id c) = chatId ∧ ChatManager.lastUsed c = 5000 ∧
      (ChatManager.getActiveChatJSON alice r.2).1 = Ok c ∧
      ChatManager.id <$>
        ChatManager.chats
          (ChatManager.getUserData alice (ChatManager.userChats r.2)).1 =
      ChatManager.id <$> ChatManager.chats d
  | Fail e =>
      e = ChatNotFound ∧
      (¬ ∃ c, c ∈ ChatManager.chats d ∧ IdString (ChatManager.id c) = chatId) ∧
      (ChatManager.getUserData alice (ChatManager.userChats r.2)).1 = d
  end.
Proof.
  apply (selectChatJSON_then_active Config.default false flatAB alice
           (IdString (ChatManager.newChatId 2000 "b")) 5000).
  exact flatAB_reachable.
Defined.

Lemma cleanupUser_keeps_recent_witness :
  let d' := ChatManager.cleanupUser fortyDaysLater dataAB in
  ChatManager.chats d' =
    filter (λ c, ¬ ChatManager.isOld fortyDaysLater c) (ChatManager.chats dataAB) ∧
  (∀ a, ChatManager.activeChatId dataAB = Some a → a ≠ "" →
        ChatManager.activeChatId d' =
          if decide (a ∈ ChatManager.id <$> ChatManager.chats d') then Some a
          else ChatManager.firstChatId (ChatManager.chats d')) ∧
  (ChatManager.activeChatId dataAB = None → ChatManager.activeChatId d' = None) ∧
  ChatManager.cleanupUser fortyDaysLater d' = d'.
Proof.
  apply (cleanupUser_keeps_recent fortyDaysLater dataAB).
  apply (bool_decide_unpack _). vm_compute. exact I.
Defined.

Lemma first_chat_becomes_active_witness :
  ((∃ e, (ChatManager.getActiveChat bob 5000 flatAB).1 = Fail e ∧
         errorKind e = NotFound) ∧
   ∃ c, (ChatManager.createChat Config.default bob "A" 5001 "a" flatAB).1 = Ok c ∧
     ∀ t', (ChatManager.getActiveChat bob t'
              (ChatManager.createChat Config.default bob "A" 5001 "a" flatAB).2).1
           = Ok c) ∧
  ((∃ e, (ChatManager.getActiveChat bob 5000 managerSelected).1 = Fail e ∧
         errorKind e = NotFound) ∧
   ∃ c, (ChatManager.createChat Config.default bob "A" 5001 "a" managerSelected).1
          = Ok c ∧
     ∀ t', (ChatManager.getActiveChat bob t'
              (ChatManager.createChat Config.default bob "A" 5001 "a"
                 managerSelected).2).1 = Ok c).
Proof.
  split.
  - apply (first_chat_becomes_active Config.default flatAB bob 5000 "A" 5001 "a").
    + vm_compute. reflexivity.
    + vm_compute. lia.
    + vm_compute. lia.
  - apply (first_chat_becomes_active Config.default managerSelected bob 5000 "A"
             5001 "a").
    + vm_compute. reflexivity.
    + vm_compute. lia.
    + vm_compute. lia.
Defined.

Lemma database_feedback_stats_witness :
  let rs := DatabaseStats.ratedRows 1 tablesRated in
  let s := DatabaseStats.statsOfGroups 1 tablesRated (DatabaseStats.groupByRating rs) in
  (∀ k, 1 ≤ k ≤ 5 →
        LearningManager.ratings s !! k =
          Some (LearningManager.Count (FeedbackStats.countOf k rs))) ∧
  (∀ k, ¬ 1 ≤ k ≤ 5 → LearningManager.ratings s !! k = None) ∧
  LearningManager.averageRating s =
    match rs with
    | [] => LearningManager.AverageZero
    | _ :: _ =>
        LearningManager.AverageFixed
          (JsNumber.toFixed1
             (JsNumber.div (JsNumber.of_Z (FeedbackStats.sumZ rs))
                (JsNumber.of_Z (Z.of_nat (length rs)))))
    end ∧
  (length rs + LearningManager.improvementFeedback s ≤
   LearningManager.totalFeedback s)%nat.
Proof.
  apply (database_feedback_stats tablesRated 1
           (DatabaseStats.groupByRating (DatabaseStats.ratedRows 1 tablesRated))).
  - eapply rtc_r; [exact tablesAB_reachable|].
    apply (DatabaseInvariant.step_saveFeedback 1 "comment_1" (Some 4) None
             comment_rating "{}" 2500).
  - reflexivity.
Defined.

Lemma saveCommentRating_database_counted_witness :
  let m := LearningManager.initial true in
  let res := LearningManager.saveCommentRating alice "comment_1" 4 "{}" 1500 "r" m in
  let uid :=
    DatabaseManager.user_id
      (DatabaseManager.getUserOrCreate alice DatabaseManager.no_hints 1500
         (LearningManager.dbManager m)).1 in
  let db := LearningManager.dbManager m in
  let db' := LearningManager.dbManager res.2 in
  success res.1 = true ∧
  DatabaseStats.ratedRows uid db' = DatabaseStats.ratedRows uid db ++ [4] ∧
  LearningManager.ratings (DatabaseStats.getUserFeedbackStats uid db') !! 4 =
    Some (LearningManager.Count
            (S (FeedbackStats.countOf 4 (DatabaseStats.ratedRows uid db)))) ∧
  ∀ u', LearningManager.getUserFeedbackStats u' res.2 =
        LearningManager.getUserFeedbackStats u' m.
Proof.
  apply (saveCommentRating_database_counted alice "comment_1" 4 "{}" 1500 "r"
           (LearningManager.initial true)).
  - reflexivity.
  - lia.
Defined.

Lemma cleanText_normal_form_witness :
  let isSpace := Utils.isWhiteSpace in
  let collapsed := CleanText.collapseSpaces isSpace blank false untidy in
  let r := CleanText.cleanText isSpace blank lineBreak untidy in
  CleanText.dropBlankLines isSpace lineBreak (length collapsed) collapsed = collapsed ∧
  filter (λ c, isSpace c = false) r = filter (λ c, isSpace c = false) untidy ∧
  (∀ c, c ∈ r → isSpace c = true → c = blank) ∧
  (∀ c rest, r = c :: rest → isSpace c = false) ∧
  (∀ front c, r = front ++ [c] → isSpace c = false) ∧
  (∀ front a b rest, r = front ++ a :: b :: rest →
                     isSpace a = true → isSpace b = false) ∧
  CleanText.cleanText isSpace blank lineBreak r = r.
Proof.
  apply (cleanText_normal_form Utils.isWhiteSpace blank lineBreak).
  - reflexivity.
  - reflexivity.
  - vm_compute. discriminate.
Defined.

Lemma handleStart_database_adds_chat_witness :
  let m' := TelegramBot.handleStart Config.default alice 5000 "y" managerStarted in
  ChatStore.chatCount alice 5001 m' =
    S (ChatStore.chatCount alice 5001 managerStarted) ∧
  ∃ row, (ChatManager.getActiveChat alice 5001 m').1 = Ok (ChatManager.DbChat row) ∧
         DatabaseManager.name row = TelegramBot.mainChatName.
Proof.
  apply (handleStart_database_adds_chat Config.default managerAB managerStarted
           alice 5000 "y" 5001).
  - split; reflexivity.
  - eapply rtc_l; [apply (step_selectChatDB _ alice 1 3000)|].
    eapply rtc_l; [apply (BotRun.step_handleStart _ alice 4000 "x")|].
    apply rtc_refl.
  - vm_compute. lia.
  - vm_compute. lia.
Defined.

Lemma handleStart_flat_files_once_witness :
  let m := ChatManager.initial false in
  let d := (ChatManager.getUserData alice (ChatManager.userChats m)).1 in
  let m' := TelegramBot.handleStart Config.default alice 1000 "a" m in
  let d' := (ChatManager.getUserData alice (ChatManager.userChats m')).1 in
  (ChatManager.chats d = [] →
   ∃ c, ChatManager.chats d' = [c] ∧ ChatManager.name c = TelegramBot.mainChatName ∧
        (ChatManager.getActiveChatJSON alice m').1 = Ok c) ∧
  (ChatManager.chats d ≠ [] → d' = d) ∧
  ChatManager.userChats (TelegramBot.handleStart Config.default alice 2000 "b" m') =
    ChatManager.userChats m'.
Proof.
  apply (handleStart_flat_files_once Config.default (ChatManager.initial false)
           alice 1000 "a" 2000 "b").
  - reflexivity.
  - vm_compute. lia.
  - vm_compute. lia.
Defined.

Lemma chat_cleanup_keeps_newest_witness :
  let s := ChatCleanup.sortChats remoteChats in
  let keep := ChatCleanup.spared atNoon 0 s in
  let del := ChatCleanup.sweep atNoon 0 s in
  s = keep ++ del ∧
  (length keep ≤ ChatCleanup.MAX_CHATS_PER_USER)%nat ∧
  (∀ c, c ∈ keep → atNoon - ChatCleanup.time c ≤ ChatCleanup.maxAgeMs) ∧
  (∀ c c', c ∈ keep → c' ∈ del → ChatCleanup.time c' ≤ ChatCleanup.time c) ∧
  ((length s ≤ ChatCleanup.MAX_CHATS_PER_USER)%nat →
   (∀ c, c ∈ s → atNoon - ChatCleanup.time c ≤ ChatCleanup.maxAgeMs) → del = []).
Proof.
  apply (chat_cleanup_keeps_newest atNoon (ChatCleanup.sortChats remoteChats)).
  apply (proj1 (sortChats_sorted remoteChats)).
Defined.

End Witnesses.
